(** * PearPass desktop: native-messaging pairing and session channel

    A shallow embedding of
      - [src/services/security/appIdentity.js]   (identity store, pairing),
      - the session manager ([encryptWithSession], [decryptWithSession],
        [beginHandshake], [recordIncomingSeq]),
      - [src/services/handlers/SecurityHandlers.js] (the RPC facade),
    together with the properties the specification states about them. *)

From Stdlib Require Import NArith ZArith QArith Lia List Sorted Ascii String.
From Stdlib Require Import Strings.Byte DecimalString DecimalFacts DecimalPos DecimalN.
From stdpp Require Import base option gmap strings.

Import ListNotations.
Local Open Scope string_scope.
Local Open Scope list_scope.
Local Open Scope N_scope.

(** ** Bytes, hexadecimal and base64 text *)

Definition bytes := list byte.

(** A [Uint8Array] element store: values are reduced modulo 256. *)
Definition byte_of_N (n : N) : byte :=
  match Byte.of_N (n mod 256) with
  | Some b => b
  | None => x00
  end.

Definition nth_char (alphabet : string) (n : N) : ascii :=
  match String.get (N.to_nat n) alphabet with
  | Some c => c
  | None => "?"%char
  end.

Definition hex_lower : string := "0123456789abcdef".
Definition hex_upper : string := "0123456789ABCDEF".

(** [Buffer.prototype.toString('hex')] *)
Fixpoint toHex (bs : bytes) : string :=
  match bs with
  | [] => EmptyString
  | b :: rest =>
      String (nth_char hex_lower (Byte.to_N b / 16))
        (String (nth_char hex_lower (Byte.to_N b mod 16)) (toHex rest))
  end.

(** [String.prototype.toUpperCase] on a text of ASCII characters, where the
    case mapping of Unicode is that of the letters a to z.  The code applies
    it to hexadecimal digits ([toString('hex').toUpperCase()]); on other
    texts the mapping is the runtime's, see [Runtime]. *)
Definition upper_char (c : ascii) : ascii :=
  let n := N_of_ascii c in
  if (97 <=? n) && (n <=? 122) then ascii_of_N (n - 32) else c.

Fixpoint toUpperCase_ascii (s : string) : string :=
  match s with
  | EmptyString => EmptyString
  | String c rest => String (upper_char c) (toUpperCase_ascii rest)
  end.

Definition b64_alphabet : string :=
  "ABCDEFGHIJKLMNOPQRSTUVWXYZabcdefghijklmnopqrstuvwxyz0123456789+/".

Definition b64_char (n : N) : ascii := nth_char b64_alphabet n.

(** [Buffer.from(bytes).toString('base64')] *)
Fixpoint toBase64 (bs : bytes) : string :=
  match bs with
  | [] => EmptyString
  | [a] =>
      let x := Byte.to_N a in
      String (b64_char (x / 4))
        (String (b64_char ((x mod 4) * 16)) "==")
  | [a; b] =>
      let x := Byte.to_N a in
      let y := Byte.to_N b in
      String (b64_char (x / 4))
        (String (b64_char ((x mod 4) * 16 + y / 16))
           (String (b64_char ((y mod 16) * 4)) "="))
  | a :: b :: c :: rest =>
      let x := Byte.to_N a in
      let y := Byte.to_N b in
      let z := Byte.to_N c in
      String (b64_char (x / 4))
        (String (b64_char ((x mod 4) * 16 + y / 16))
           (String (b64_char ((y mod 16) * 4 + z / 64))
              (String (b64_char (z mod 64)) (toBase64 rest))))
  end.

(** Value of one base64 character; Node accepts the URL-safe letters too. *)
Definition b64_val (c : ascii) : option N :=
  let n := N_of_ascii c in
  if (65 <=? n) && (n <=? 90) then Some (n - 65)
  else if (97 <=? n) && (n <=? 122) then Some (n - 71)
  else if (48 <=? n) && (n <=? 57) then Some (n + 4)
  else if (n =? 43) || (n =? 45) then Some 62
  else if (n =? 47) || (n =? 95) then Some 63
  else None.

(** The 6-bit groups of a base64 text: decoding stops at the padding
    character and skips characters outside the alphabet. *)
Fixpoint sextets (s : string) : list N :=
  match s with
  | EmptyString => []
  | String c rest =>
      if (N_of_ascii c =? 61) then []
      else match b64_val c with
           | Some v => v :: sextets rest
           | None => sextets rest
           end
  end.

Fixpoint regroup (l : list N) : bytes :=
  match l with
  | p :: q :: r :: s :: rest =>
      byte_of_N (p * 4 + q / 16)
        :: byte_of_N ((q mod 16) * 16 + r / 4)
        :: byte_of_N ((r mod 4) * 64 + s)
        :: regroup rest
  | [p; q; r] =>
      [byte_of_N (p * 4 + q / 16); byte_of_N ((q mod 16) * 16 + r / 4)]
  | [p; q] => [byte_of_N (p * 4 + q / 16)]
  | _ => []
  end.

(** [new Uint8Array(Buffer.from(s, 'base64'))] *)
Definition fromBase64 (s : string) : bytes := regroup (sextets s).

(** [Buffer.from(s, 'utf8')] on ASCII text. *)
Fixpoint utf8 (s : string) : bytes :=
  match s with
  | EmptyString => []
  | String c rest => byte_of_N (N_of_ascii c) :: utf8 rest
  end.

(** ** SHA-256 ([sodium.crypto_hash_sha256], FIPS 180-4) *)

Module SHA256.

Definition mask32 : N := 0xffffffff.
Definition add32 (a b : N) : N := (a + b) mod 0x100000000.
Definition rotr (n x : N) : N :=
  N.lor (N.shiftr x n) (N.land (N.shiftl x (32 - n)) mask32).
Definition shr (n x : N) : N := N.shiftr x n.
Definition not32 (x : N) : N := N.lxor x mask32.

Definition Ch (x y z : N) : N := N.lxor (N.land x y) (N.land (not32 x) z).
Definition Maj (x y z : N) : N :=
  N.lxor (N.lxor (N.land x y) (N.land x z)) (N.land y z).
Definition bsig0 (x : N) : N := N.lxor (N.lxor (rotr 2 x) (rotr 13 x)) (rotr 22 x).
Definition bsig1 (x : N) : N := N.lxor (N.lxor (rotr 6 x) (rotr 11 x)) (rotr 25 x).
Definition ssig0 (x : N) : N := N.lxor (N.lxor (rotr 7 x) (rotr 18 x)) (shr 3 x).
Definition ssig1 (x : N) : N := N.lxor (N.lxor (rotr 17 x) (rotr 19 x)) (shr 10 x).

(** The round constants are the first 32 bits of the fractional parts of
    the cube roots of the first 64 primes, the initial hash value those
    of the square roots of the first 8 primes. *)
Definition is_prime (n : N) : bool :=
  (1 <? n)
  && forallb (fun d => negb (n mod d =? 0))
       (map N.of_nat (List.seq 2 (N.to_nat n - 2))).

Definition primes : list N :=
  Eval vm_compute in filter is_prime (map N.of_nat (List.seq 2 310)).

(** The largest [r] below [2 ^ bits] with [r ^ 3 <= n]. *)
Fixpoint cube_root (bits : nat) (n r : N) : N :=
  match bits with
  | O => r
  | S bits' =>
      let r' := r + 2 ^ N.of_nat bits' in
      cube_root bits' n (if r' * r' * r' <=? n then r' else r)
  end.

Definition K : list N :=
  Eval vm_compute in
    map (fun p => cube_root 36 (p * 2 ^ 96) 0 mod 2 ^ 32) primes.

Definition H0 : list N :=
  Eval vm_compute in
    map (fun p => N.sqrt (p * 2 ^ 64) mod 2 ^ 32) (firstn 8 primes).

(** Big-endian words of a byte string whose length is a multiple of 4. *)
Fixpoint words (bs : bytes) : list N :=
  match bs with
  | a :: b :: c :: d :: rest =>
      (Byte.to_N a * 0x1000000 + Byte.to_N b * 0x10000
       + Byte.to_N c * 0x100 + Byte.to_N d) :: words rest
  | _ => []
  end.

Definition word_bytes (w : N) : bytes :=
  [byte_of_N (w / 0x1000000); byte_of_N (w / 0x10000);
   byte_of_N (w / 0x100); byte_of_N w].

Definition be64 (n : N) : bytes :=
  word_bytes (n / 0x100000000) ++ word_bytes (n mod 0x100000000).

(** Padding: 0x80, zeros up to 56 mod 64, then the bit length. *)
Definition pad (msg : bytes) : bytes :=
  let len := N.of_nat (List.length msg) in
  let zeros := (119 - len mod 64) mod 64 in
  msg ++ [x80] ++ repeat x00 (N.to_nat zeros) ++ be64 (len * 8).

(** Message schedule: 16 words of the block extended to 64. *)
Fixpoint extend (fuel : nat) (w : list N) : list N :=
  match fuel with
  | O => w
  | S fuel' =>
      let t := List.length w in
      let at_ k := nth (t - k) w 0 in
      extend fuel'
        (w ++ [add32 (add32 (ssig1 (at_ 2%nat)) (at_ 7%nat))
                     (add32 (ssig0 (at_ 15%nat)) (at_ 16%nat))])
  end.

Definition schedule (block : list N) : list N := extend 48 block.

Record regs := Regs { ra : N; rb : N; rc : N; rd : N;
                      re : N; rf : N; rg : N; rh : N }.

Definition round (r : regs) (kw : N * N) : regs :=
  let t1 := add32 (add32 (add32 (rh r) (bsig1 (re r)))
                         (add32 (Ch (re r) (rf r) (rg r)) (fst kw))) (snd kw) in
  let t2 := add32 (bsig0 (ra r)) (Maj (ra r) (rb r) (rc r)) in
  Regs (add32 t1 t2) (ra r) (rb r) (rc r) (add32 (rd r) t1) (re r) (rf r) (rg r).

Definition regs_of (h : list N) : regs :=
  Regs (nth 0 h 0) (nth 1 h 0) (nth 2 h 0) (nth 3 h 0)
       (nth 4 h 0) (nth 5 h 0) (nth 6 h 0) (nth 7 h 0).

Definition compress (h : list N) (block : list N) : list N :=
  let r0 := regs_of h in
  let r := fold_left round (combine K (schedule block)) r0 in
  [add32 (ra r0) (ra r); add32 (rb r0) (rb r); add32 (rc r0) (rc r);
   add32 (rd r0) (rd r); add32 (re r0) (re r); add32 (rf r0) (rf r);
   add32 (rg r0) (rg r); add32 (rh r0) (rh r)].

Fixpoint blocks (fuel : nat) (ws : list N) : list (list N) :=
  match fuel, ws with
  | S fuel', _ :: _ => firstn 16 ws :: blocks fuel' (skipn 16 ws)
  | _, _ => []
  end.

Definition hash (msg : bytes) : bytes :=
  let ws := words (pad msg) in
  let h := fold_left compress (blocks (List.length ws) ws) H0 in
  concat (map word_bytes h).

End SHA256.

Definition crypto_hash_sha256 (input : bytes) : bytes := SHA256.hash input.

(** ** JavaScript results and errors *)

(** Modelled from the spec: [SecurityErrorCodes] of
    [constants/securityErrors.js], whose source is not available; one
    constructor for each code the modelled code names (section 7 lists
    them under the names of the specification). *)
Inductive SecurityErrorCode :=
  | INVALID_PAIRING_SECRET | MISSING_CLIENT_PUBLIC_KEY | NO_PENDING_PAIRING
  | CLIENT_KEY_MISMATCH | PAIRING_TOKEN_REQUIRED | CLIENT_PUBLIC_KEY_REQUIRED
  | INVALID_PAIRING_TOKEN | CLIENT_ALREADY_PAIRED | NATIVE_MESSAGING_DISABLED
  | NOT_PAIRED | MISSING_EPHEMERAL_PUBLIC_KEY | MISSING_SESSION_ID
  | MISSING_CLIENT_SIGNATURE | SESSION_NOT_FOUND | CLIENT_NOT_PAIRED
  | INVALID_CLIENT_PUBLIC_KEY | INVALID_CLIENT_SIGNATURE | INVALID_TRANSCRIPT
  | CLIENT_SIGNATURE_INVALID | DECRYPT_FAILED | IDENTITY_KEYS_UNAVAILABLE
  | INVALID_SEQ | REPLAY_DETECTED.

(** What a [throw] (or a rejected promise) carries. *)
Inductive JsError :=
  | Coded (code : SecurityErrorCode)   (* new Error(createErrorWithCode(code, _)) *)
  | TypeError                           (* member access on undefined *)
  | RangeError                          (* typed-array bounds *)
  | VaultRejected (message : string)    (* a rejected vault-client promise *)
  | PairingSecretPersistenceFailed (cause : JsError)
  | SodiumError.                        (* a sodium call refusing its arguments *)

Inductive Result (A : Type) :=
  | Ok (a : A)
  | Throw (e : JsError).
Arguments Ok {A} a.
Arguments Throw {A} e.

Definition result_bind {A B} (r : Result A) (k : A -> Result B) : Result B :=
  match r with
  | Ok a => k a
  | Throw e => Throw e
  end.

(** ** Pairing code ([appIdentity.js], [getPairingCode]) *)

Definition PAIRING_CODE_TAG : bytes := utf8 "pearpass/pairingcode/v1".

(** [new Uint8Array(n)] *)
Definition Uint8Array_new (n : nat) : bytes := repeat x00 n.

(** [target.set(source, offset)]: a [RangeError] when the source does not
    fit, otherwise the elements at [offset ..] are overwritten. *)
Definition Uint8Array_set (target source : bytes) (offset : nat) : Result bytes :=
  if (offset + List.length source <=? List.length target)%nat
  then Ok (firstn offset target ++ source
             ++ skipn (offset + List.length source) target)
  else Throw RangeError.

(** [bytes.subarray(from, to)] *)
Definition subarray (from to : nat) (bs : bytes) : bytes :=
  firstn (to - from) (skipn from bs).

(** [buf.readUInt32BE(0)] of a 4-byte buffer. *)
Definition readUInt32BE (bs : bytes) : N :=
  Byte.to_N (nth 0 bs x00) * 0x1000000 + Byte.to_N (nth 1 bs x00) * 0x10000
  + Byte.to_N (nth 2 bs x00) * 0x100 + Byte.to_N (nth 3 bs x00).

(** [n.toString()] of a non-negative integer. *)
Definition toString (n : N) : string := NilZero.string_of_uint (N.to_uint n).

(** [s.padStart(width, '0')] *)
Definition padStart0 (width : nat) (s : string) : string :=
  string_of_list_ascii (repeat "0"%char (width - String.length s)) ++ s.

(** The code printed from a digest: six decimal digits, a hyphen, four
    upper-case hexadecimal digits. *)
Definition format_code (out : bytes) : string :=
  let num := readUInt32BE (subarray 0 4 out) in
  let code := padStart0 6 (toString (num mod 1000000)) in
  let suffix := toUpperCase_ascii (toHex (subarray 4 6 out)) in
  code ++ "-" ++ suffix.

Definition getPairingCode (ed25519PublicKeyB64 pairingSecretB64 : string)
  : Result string :=
  let secret := fromBase64 pairingSecretB64 in
  let publicKey := fromBase64 ed25519PublicKeyB64 in
  let tagLen := List.length PAIRING_CODE_TAG in
  let input := Uint8Array_new (tagLen + List.length secret + List.length publicKey) in
  result_bind (Uint8Array_set input PAIRING_CODE_TAG 0) (fun input =>
  result_bind (Uint8Array_set input secret tagLen) (fun input =>
  result_bind (Uint8Array_set input publicKey (tagLen + List.length secret)) (fun input =>
  result_bind (Uint8Array_set input publicKey (List.length secret)) (fun input =>
  let out := crypto_hash_sha256 input in
  Ok (format_code out))))).

(** The derivation as the comment in [getPairingCode] and the specification
    word it: the digest of [tag ‖ secret ‖ publicKey]. *)
Definition documented_pairing_code (secret publicKey : bytes) : string :=
  format_code (crypto_hash_sha256 (PAIRING_CODE_TAG ++ secret ++ publicKey)).

(** ** JavaScript values *)

Inductive JsNumber :=
  | Finite (q : Q)
  | NaN
  | PosInfinity
  | NegInfinity.

#[local] Unset Elimination Schemes.
Inductive JsVal :=
  | JUndefined
  | JNull
  | JBool (b : bool)
  | JNum (n : JsNumber)
  | JStr (s : string)
  | JArr (items : list JsVal)
  | JObj (fields : list (string * JsVal)).
#[local] Set Elimination Schemes.

Definition str_truthy (s : string) : bool := negb (String.eqb s "").

(** [!!v] *)
Definition truthy (v : JsVal) : bool :=
  match v with
  | JUndefined | JNull => false
  | JBool b => b
  | JNum (Finite q) => negb (Qeq_bool q 0)
  | JNum NaN => false
  | JNum _ => true
  | JStr s => str_truthy s
  | JArr _ | JObj _ => true
  end.

Fixpoint assoc_get (k : string) (fields : list (string * JsVal)) : JsVal :=
  match fields with
  | [] => JUndefined
  | (k', v) :: rest => if String.eqb k k' then v else assoc_get k rest
  end.

(** [o[k] = v] on an object's own properties, keeping the insertion order. *)
Fixpoint assoc_set (k : string) (v : JsVal) (fields : list (string * JsVal))
  : list (string * JsVal) :=
  match fields with
  | [] => [(k, v)]
  | (k', v') :: rest =>
      if String.eqb k k' then (k, v) :: rest else (k', v') :: assoc_set k v rest
  end.

(** [v?.k] for the data properties read by the code ([publicKey],
    [pairingState]): only objects carry them. *)
Definition opt_prop (v : JsVal) (k : string) : JsVal :=
  match v with
  | JObj fields => assoc_get k fields
  | _ => JUndefined
  end.

(** [a || b] *)
Definition js_or (a b : JsVal) : JsVal := if truthy a then a else b.

(** [v !== s] for a string [s] *)
Definition strict_ne_str (v : JsVal) (s : string) : bool :=
  match v with
  | JStr t => negb (String.eqb t s)
  | _ => true
  end.

(** [{ ...data, k: v }] *)
Definition spread_with (data : JsVal) (k : string) (v : JsVal) : JsVal :=
  match data with
  | JObj fields => JObj (assoc_set k v fields)
  | _ => JObj [(k, v)]
  end.

(** ** The libraries the code calls *)

(** libsodium, through [sodium-native].  Random bytes come from one stream
    [csprng], read at the position the world records; the key pairs are
    derived from drawn seeds. *)
Class Sodium := {
  csprng : nat -> byte;
  crypto_sign_seed_keypair : bytes -> bytes * bytes;
  crypto_scalarmult_base : bytes -> bytes;
  crypto_scalarmult : bytes -> bytes -> option bytes;
  crypto_sign_detached : bytes -> bytes -> bytes;
  crypto_sign_verify_detached : bytes -> bytes -> bytes -> bool;
  crypto_secretbox_easy : bytes -> bytes -> bytes -> bytes;
  crypto_secretbox_open_easy : bytes -> bytes -> bytes -> option bytes
}.

(** The JavaScript runtime: [JSON], [Buffer.from] on a value that is not a
    string, and [String.prototype.toUpperCase] with the case mapping of
    Unicode (which turns the ligature U+FB00 into FF, for instance). *)
Class Runtime := {
  JSON_stringify : JsVal -> string;
  JSON_parse : string -> option JsVal;
  Buffer_from_value : JsVal -> option bytes;
  toUpperCase : string -> string
}.

Definition crypto_sign_PUBLICKEYBYTES : nat := 32.
Definition crypto_sign_SECRETKEYBYTES : nat := 64.
Definition crypto_sign_BYTES : nat := 64.
Definition crypto_box_PUBLICKEYBYTES : nat := 32.
Definition crypto_box_SECRETKEYBYTES : nat := 32.
Definition crypto_secretbox_NONCEBYTES : nat := 24.
Definition crypto_secretbox_MACBYTES : nat := 16.
Definition crypto_secretbox_KEYBYTES : nat := 32.

(** A buffer of [n] bytes after a library call has written [src] into it. *)
Definition filled (n : nat) (src : bytes) : bytes :=
  firstn n (src ++ repeat x00 n).

(** ** The world the code runs in *)

(** The vault client ([pearpass-lib-vault-core]): an encrypted key-value
    store that rejects reads and writes while it is locked, and answers a
    read with a bare string or with [{ data }]. *)
Record Vault := mkVault {
  vault_status : bool;
  vault_locked : bool;
  vault_wraps : bool;
  vault_entries : gmap string string
}.

Inductive GetResponse :=
  | RNull
  | RString (s : string)
  | RData (data : option string).

Record MemIdentity := mkMemIdentity {
  ed25519PublicKeyBytes : bytes;
  ed25519PrivateKeyBytes : bytes;
  x25519PublicKeyBytes : bytes;
  x25519PrivateKeyBytes : bytes;
  mem_creationDate : string
}.

(** Modelled from the spec: the session record of [sessionStore.js], whose
    source is not available (spec section 3, Session). *)
Record Session := mkSession {
  key : bytes;
  transcript : bytes;
  sendSeq : N;
  lastRecvSeq : Q;
  clientVerified : bool
}.

Record World := mkWorld {
  vault : Vault;
  localStorage : gmap string string;
  MEMORY_IDENTITY : option MemIdentity;
  sessions : gmap string Session;
  nativeMessagingEnabled : bool;
  now : string;          (* new Date().toISOString() *)
  entropy : nat;         (* bytes read from the CSPRNG so far *)
  signKeypairCalls : nat;
  boxKeypairCalls : nat
}.

Definition set_vault (v : Vault) (w : World) : World :=
  mkWorld v (localStorage w) (MEMORY_IDENTITY w) (sessions w)
    (nativeMessagingEnabled w) (now w) (entropy w)
    (signKeypairCalls w) (boxKeypairCalls w).
Definition set_localStorage (l : gmap string string) (w : World) : World :=
  mkWorld (vault w) l (MEMORY_IDENTITY w) (sessions w)
    (nativeMessagingEnabled w) (now w) (entropy w)
    (signKeypairCalls w) (boxKeypairCalls w).
Definition set_MEMORY_IDENTITY (m : option MemIdentity) (w : World) : World :=
  mkWorld (vault w) (localStorage w) m (sessions w)
    (nativeMessagingEnabled w) (now w) (entropy w)
    (signKeypairCalls w) (boxKeypairCalls w).
Definition set_sessions (s : gmap string Session) (w : World) : World :=
  mkWorld (vault w) (localStorage w) (MEMORY_IDENTITY w) s
    (nativeMessagingEnabled w) (now w) (entropy w)
    (signKeypairCalls w) (boxKeypairCalls w).
Definition set_entropy (n : nat) (w : World) : World :=
  mkWorld (vault w) (localStorage w) (MEMORY_IDENTITY w) (sessions w)
    (nativeMessagingEnabled w) (now w) n
    (signKeypairCalls w) (boxKeypairCalls w).
Definition set_signKeypairCalls (n : nat) (w : World) : World :=
  mkWorld (vault w) (localStorage w) (MEMORY_IDENTITY w) (sessions w)
    (nativeMessagingEnabled w) (now w) (entropy w) n (boxKeypairCalls w).
Definition set_boxKeypairCalls (n : nat) (w : World) : World :=
  mkWorld (vault w) (localStorage w) (MEMORY_IDENTITY w) (sessions w)
    (nativeMessagingEnabled w) (now w) (entropy w) (signKeypairCalls w) n.

(** Computations: they read and change the world, and return or throw.
    What a computation changed before it threw stays changed. *)
Definition M (A : Type) : Type := World -> Result A * World.

Definition ret {A} (a : A) : M A := fun w => (Ok a, w).
Definition throw {A} (e : JsError) : M A := fun w => (Throw e, w).
Definition bind {A B} (m : M A) (k : A -> M B) : M B :=
  fun w =>
    match m w with
    | (Ok a, w') => k a w'
    | (Throw e, w') => (Throw e, w')
    end.
(** [try { m } catch (e) { handler e }] and [promise.catch(handler)] *)
Definition try_catch {A} (m : M A) (handler : JsError -> M A) : M A :=
  fun w =>
    match m w with
    | (Ok a, w') => (Ok a, w')
    | (Throw e, w') => handler e w'
    end.
Definition gets {A} (f : World -> A) : M A := fun w => (Ok (f w), w).
Definition modify (f : World -> World) : M unit := fun w => (Ok tt, f w).
Definition lift {A} (r : Result A) : M A := fun w => (r, w).

Notation "'let*' x ':=' m 'in' k" := (bind m (fun x => k))
  (at level 10, x pattern, m at level 100, k at level 200).
Notation "m ';;' k" := (bind m (fun _ => k))
  (at level 100, right associativity).

(** *** The vault client *)

(** The first argument of the functions of [appIdentity.js]: the client
    object, or [undefined] when the caller passes nothing.  A client
    answers from the vault of the world.  Its promises can reject for
    reasons of its own: a client may reject every write (a store that
    cannot persist; the mock of the test suite whose [encryptionAdd]
    rejects while its reads are served) and may fail to initialise
    encryption. *)
Record ClientRef := mkClient {
  rejects_writes : bool;
  rejects_init : bool
}.

(** The client whose promises reject for the state of the vault only. *)
Definition TheClient : ClientRef := mkClient false false.

Definition Client := option ClientRef.

(** [client.method(...)]: reading a method of [undefined] throws before any
    promise exists, so no [.catch] on the call sees it. *)
Definition client_call {A} (client : Client) (call : ClientRef -> M A) : M A :=
  match client with
  | Some c => call c
  | None => throw TypeError
  end.

Definition vault_locked_message : string := "Storage locked".

Definition encryptionGetStatus (c : ClientRef) : M bool :=
  gets (fun w => vault_status (vault w)).

Definition encryptionInit (c : ClientRef) : M unit :=
  if rejects_init c then throw (VaultRejected "Encryption initialization failed")
  else
  let* v := gets vault in
  if vault_status v then throw (VaultRejected "Encryption already initialized")
  else modify (set_vault (mkVault true (vault_locked v) (vault_wraps v) (vault_entries v))).

Definition encryptionGet (k : string) (c : ClientRef) : M GetResponse :=
  let* v := gets vault in
  if vault_locked v then throw (VaultRejected vault_locked_message)
  else if vault_wraps v then ret (RData (vault_entries v !! k))
  else ret (match vault_entries v !! k with
            | Some s => RString s
            | None => RNull
            end).

Definition encryptionAdd (k value : string) (c : ClientRef) : M unit :=
  if rejects_writes c then throw (VaultRejected vault_locked_message)
  else
  let* v := gets vault in
  if vault_locked v then throw (VaultRejected vault_locked_message)
  else modify (set_vault (mkVault (vault_status v) (vault_locked v) (vault_wraps v)
                            (<[k := value]> (vault_entries v)))).

(** *** Primitives with an effect *)

(** [sodium.randombytes_buf(buffer)] on a fresh buffer of [n] bytes. *)
Definition draw `{Sodium} (pos n : nat) : bytes := map csprng (List.seq pos n).

Definition randombytes_buf `{Sodium} (n : nat) : M bytes :=
  let* pos := gets entropy in
  modify (set_entropy (pos + n)) ;;
  ret (draw pos n).

(** [sodium.crypto_sign_keypair(pk, sk)] on fresh buffers. *)
Definition crypto_sign_keypair `{Sodium} : M (bytes * bytes) :=
  let* calls := gets signKeypairCalls in
  modify (set_signKeypairCalls (S calls)) ;;
  let* seed := randombytes_buf 32 in
  let kp := crypto_sign_seed_keypair seed in
  ret (filled crypto_sign_PUBLICKEYBYTES (fst kp),
       filled crypto_sign_SECRETKEYBYTES (snd kp)).

(** [sodium.crypto_box_keypair(pk, sk)] on fresh buffers. *)
Definition crypto_box_keypair `{Sodium} : M (bytes * bytes) :=
  let* calls := gets boxKeypairCalls in
  modify (set_boxKeypairCalls (S calls)) ;;
  let* sk := randombytes_buf 32 in
  ret (filled crypto_box_PUBLICKEYBYTES (crypto_scalarmult_base sk),
       filled crypto_box_SECRETKEYBYTES sk).

(** [new Date().toISOString()] *)
Definition toISOString_now : M string := gets now.

(** ** [appIdentity.js] *)

Definition ENC_KEY_ED25519 : string := "nm.identity.ed25519".
Definition ENC_KEY_X25519 : string := "nm.identity.x25519".
Definition ENC_KEY_CREATION_DATE : string := "nm.identity.creationDate".
Definition ENC_KEY_CLIENT_DATA : string := "nm.client.data".
Definition ENC_KEY_PAIRING_SECRET : string := "nm.identity.pairingSecret".

(** Modelled from the spec: [LOCAL_STORAGE_KEYS.NM_CLIENT_PUBLIC_KEY] of
    [constants/localStorage.js], whose source is not available: the name of
    the single slot of the unprotected cache (section 6).  The text of the
    name plays no role. *)
Definition NM_CLIENT_PUBLIC_KEY : string := "NM_CLIENT_PUBLIC_KEY".

Definition PENDING : string := "PENDING".
Definition CONFIRMED : string := "CONFIRMED".

Definition normalizeEncryptionGet (val : GetResponse) : option string :=
  match val with
  | RNull => None
  | RString s => if str_truthy s then Some s else None
  | RData (Some s) => if str_truthy s then Some s else None
  | RData None => None
  end.

(** [normalizeEncryptionGet(await client.encryptionGet(k).catch(() => null))] *)
Definition load_entry (client : Client) (k : string) : M (option string) :=
  let* val := client_call client
                (fun c => try_catch (encryptionGet k c) (fun _ => ret RNull)) in
  ret (normalizeEncryptionGet val).

Definition getOrCreatePairingSecret `{Sodium} (client : Client) : M string :=
  let* pairingSecretB64 := load_entry client ENC_KEY_PAIRING_SECRET in
  match pairingSecretB64 with
  | Some s =>
      if negb (Nat.eqb (List.length (fromBase64 s)) 32)
      then throw (Coded INVALID_PAIRING_SECRET)
      else ret s
  | None =>
      let* secretBytes := randombytes_buf 32 in
      let b64 := toBase64 secretBytes in
      try_catch (client_call client (encryptionAdd ENC_KEY_PAIRING_SECRET b64))
        (fun err => throw (PairingSecretPersistenceFailed err)) ;;
      ret b64
  end.

Definition ensureEncryptionInitialized (client : Client) : M unit :=
  try_catch
    (let* initialized := client_call client encryptionGetStatus in
     if negb initialized then client_call client encryptionInit else ret tt)
    (fun _ =>
       try_catch (client_call client encryptionInit) (fun _ => ret tt)).

Record Identity := mkIdentity {
  ed25519PublicKey : string;
  x25519PublicKey : string;
  creationDate : string
}.

(** [try { await client.encryptionAdd(k, v) } catch { persisted = false }] *)
Definition try_persist (client : Client) (k v : string) : M bool :=
  try_catch (client_call client (encryptionAdd k v) ;; ret true)
    (fun _ => ret false).

Definition generateAndPersistIdentity `{Sodium} (client : Client) : M Identity :=
  let* ed := crypto_sign_keypair in
  let* x := crypto_box_keypair in
  let payloadEd25519 := fst ed ++ snd ed in
  let payloadX25519 := fst x ++ snd x in
  let* date := toISOString_now in
  let* p1 := try_persist client ENC_KEY_ED25519 (toBase64 payloadEd25519) in
  let* p2 := try_persist client ENC_KEY_X25519 (toBase64 payloadX25519) in
  let* p3 := try_persist client ENC_KEY_CREATION_DATE date in
  let persisted := p1 && p2 && p3 in
  (if negb persisted
   then modify (set_MEMORY_IDENTITY
                  (Some (mkMemIdentity (fst ed) (snd ed) (fst x) (snd x) date)))
   else ret tt) ;;
  ret (mkIdentity (toBase64 (fst ed)) (toBase64 (fst x)) date).

(** [s || new Date().toISOString()] *)
Definition or_now (s : string) : M string :=
  if str_truthy s then ret s else toISOString_now.

Definition getOrCreateIdentity `{Sodium} (client : Client) : M Identity :=
  ensureEncryptionInitialized client ;;
  try_catch (getOrCreatePairingSecret client ;; ret tt) (fun _ => ret tt) ;;
  let* ed25519BlobB64 := load_entry client ENC_KEY_ED25519 in
  let* x25519BlobB64 := load_entry client ENC_KEY_X25519 in
  let* date := load_entry client ENC_KEY_CREATION_DATE in
  let* mem := gets MEMORY_IDENTITY in
  match mem, ed25519BlobB64, x25519BlobB64 with
  | Some m, None, _ | Some m, _, None =>
      (* fallback to the in-memory cache *)
      let* date' := or_now (mem_creationDate m) in
      ret (mkIdentity (toBase64 (ed25519PublicKeyBytes m))
             (toBase64 (x25519PublicKeyBytes m)) date')
  | None, None, _ | None, _, None =>
      (* missing: generate and store *)
      generateAndPersistIdentity client
  | _, Some edB64, Some xB64 =>
      let ed25519Buffer := fromBase64 edB64 in
      let edPub := subarray 0 crypto_sign_PUBLICKEYBYTES ed25519Buffer in
      let x25519Buffer := fromBase64 xB64 in
      let xPub := subarray 0 crypto_box_PUBLICKEYBYTES x25519Buffer in
      let* date' := match date with
                    | Some d => ret d
                    | None => toISOString_now
                    end in
      ret (mkIdentity (toBase64 edPub) (toBase64 xPub) date')
  end.

Definition getFingerprint (ed25519PublicKeyB64 : string) : string :=
  toHex (crypto_hash_sha256 (fromBase64 ed25519PublicKeyB64)).

Definition getPairingToken `{Sodium} (client : Client)
    (ed25519PublicKeyB64 : string) : M string :=
  let* pairingSecretB64 := getOrCreatePairingSecret client in
  lift (getPairingCode ed25519PublicKeyB64 pairingSecretB64).

Definition verifyPairingToken `{Sodium} `{Runtime} (client : Client)
    (ed25519PublicKeyB64 userProvidedToken : string) : M bool :=
  if negb (str_truthy userProvidedToken) then ret false
  else
    let* expectedToken := getPairingToken client ed25519PublicKeyB64 in
    ret (String.eqb (toUpperCase userProvidedToken) (toUpperCase expectedToken)).

(** *** Modelled from the spec: [sessionStore.js]

    Modelled from the spec: the source of [sessionStore.js] is not
    available; section 4.4 describes it as an in-memory map from session id
    to session with [create], [get], [close] and [clearAll], the id being
    the hexadecimal text of 16 random bytes, both counters starting at 0
    and the verified flag at false. *)

(** Modelled from the spec: [randomBytes(n)] of [sessionStore.js], [n]
    bytes of the CSPRNG. *)
Definition randomBytes `{Sodium} (n : nat) : M bytes := randombytes_buf n.

(** Modelled from the spec: [concatBytes(a, b)] of [sessionStore.js], the
    concatenation used for the transcripts (section 4.5, step 5). *)
Definition concatBytes (a b : bytes) : bytes := a ++ b.

(** Modelled from the spec: [createSession(key, transcript)] of
    [sessionStore.js]; the id is the hexadecimal text of 16 random bytes,
    the counters start at 0 and the session is not verified. *)
Definition createSession `{Sodium} (k t : bytes) : M string :=
  let* idBytes := randomBytes 16 in
  let sessionId := toHex idBytes in
  let* table := gets sessions in
  modify (set_sessions (<[sessionId := mkSession k t 0 0%Q false]> table)) ;;
  ret sessionId.

(** Modelled from the spec: [getSession(sessionId)] of [sessionStore.js],
    the lookup in the table. *)
Definition getSession (sessionId : string) : M (option Session) :=
  gets (fun w => sessions w !! sessionId).

(** Modelled from the spec: [closeSession(sessionId)] of [sessionStore.js],
    which removes the session from the table. *)
Definition closeSession (sessionId : string) : M unit :=
  let* table := gets sessions in
  modify (set_sessions (delete sessionId table)).

(** Modelled from the spec: [clearAllSessions()] of [sessionStore.js],
    which empties the table and returns how many sessions it held. *)
Definition clearAllSessions : M nat :=
  let* table := gets sessions in
  modify (set_sessions ∅) ;;
  ret (size table).

(** A write to a field of the session object obtained from [getSession]:
    the object is the one the table holds, so the table sees the write as
    long as the session has not been closed. *)
Definition update_session (sessionId : string) (f : Session -> Session) : M unit :=
  let* table := gets sessions in
  modify (set_sessions (alter f sessionId table)).

(** [session.sendSeq = n], [session.lastRecvSeq = q],
    [session.clientVerified = b] *)
Definition with_sendSeq (n : N) (s : Session) : Session :=
  mkSession (key s) (transcript s) n (lastRecvSeq s) (clientVerified s).
Definition with_lastRecvSeq (q : Q) (s : Session) : Session :=
  mkSession (key s) (transcript s) (sendSeq s) q (clientVerified s).
Definition with_clientVerified (b : bool) (s : Session) : Session :=
  mkSession (key s) (transcript s) (sendSeq s) (lastRecvSeq s) b.

(** *** [appIdentity.js], continued *)

(** [await client.encryptionAdd(k, '').catch(() => {})] *)
Definition clear_entry (client : Client) (k : string) : M unit :=
  client_call client (fun c => try_catch (encryptionAdd k "" c) (fun _ => ret tt)).

Definition localStorage_removeItem (k : string) : M unit :=
  let* l := gets localStorage in modify (set_localStorage (delete k l)).
Definition localStorage_setItem (k v : string) : M unit :=
  let* l := gets localStorage in modify (set_localStorage (<[k := v]> l)).
Definition localStorage_getItem (k : string) : M (option string) :=
  gets (fun w => localStorage w !! k).

Definition resetIdentity `{Sodium} (client : Client) : M Identity :=
  clearAllSessions ;;
  try_catch
    (clear_entry client ENC_KEY_ED25519 ;;
     clear_entry client ENC_KEY_X25519 ;;
     clear_entry client ENC_KEY_CREATION_DATE ;;
     clear_entry client ENC_KEY_CLIENT_DATA ;;
     clear_entry client ENC_KEY_PAIRING_SECRET ;;
     localStorage_removeItem NM_CLIENT_PUBLIC_KEY)
    (fun _ => ret tt) ;;
  modify (set_MEMORY_IDENTITY None) ;;
  let* newIdentity := getOrCreateIdentity client in
  ret newIdentity.

Definition __getMemIdentity : M (option MemIdentity) := gets MEMORY_IDENTITY.

Definition client_record (publicKey state : string) : JsVal :=
  JObj [("publicKey", JStr publicKey); ("pairingState", JStr state)].

Definition setClientIdentityPublicKey `{Runtime} (client : Client)
    (ed25519PublicKeyB64 : string) (state : string) : M unit :=
  if negb (str_truthy ed25519PublicKeyB64)
  then throw (Coded MISSING_CLIENT_PUBLIC_KEY)
  else
    client_call client
      (encryptionAdd ENC_KEY_CLIENT_DATA
         (JSON_stringify (client_record ed25519PublicKeyB64 state))).

Definition getClientData `{Runtime} (client : Client) : M JsVal :=
  let* data := load_entry client ENC_KEY_CLIENT_DATA in
  match data with
  | None => ret JNull
  | Some text =>
      match JSON_parse text with
      | Some v => ret v
      | None => ret JNull
      end
  end.

Definition getClientIdentityPublicKey `{Runtime} (client : Client) : M JsVal :=
  let* data := getClientData client in
  ret (js_or (opt_prop data "publicKey") JNull).

Definition getCachedClientIdentityPublicKey : M (option string) :=
  let* item := localStorage_getItem NM_CLIENT_PUBLIC_KEY in
  ret (match item with
       | Some s => if str_truthy s then Some s else None
       | None => None
       end).

Definition getClientPairingState `{Runtime} (client : Client) : M JsVal :=
  let* data := getClientData client in
  ret (js_or (opt_prop data "pairingState") JNull).

Definition confirmClientPairing `{Runtime} (client : Client)
    (clientEd25519PublicKeyB64 : string) : M unit :=
  let* data := getClientData client in
  if negb (truthy (opt_prop data "publicKey"))
  then throw (Coded NO_PENDING_PAIRING)
  else if strict_ne_str (opt_prop data "publicKey") clientEd25519PublicKeyB64
  then throw (Coded CLIENT_KEY_MISMATCH)
  else
    localStorage_setItem NM_CLIENT_PUBLIC_KEY clientEd25519PublicKeyB64 ;;
    client_call client
      (encryptionAdd ENC_KEY_CLIENT_DATA
         (JSON_stringify (spread_with data "pairingState" (JStr CONFIRMED)))).

(** ** The session manager ([sessionManager.js]) *)

(** [Buffer.from(v, 'base64')] on a value read from parsed JSON. *)
Definition Buffer_from_base64 `{Runtime} (v : JsVal) : M bytes :=
  match v with
  | JStr s => ret (fromBase64 s)
  | _ => match Buffer_from_value v with
         | Some bs => ret bs
         | None => throw TypeError
         end
  end.

(** [++n] on a JavaScript number that holds a non-negative integer: exact
    below 2^53, where the successor stops being representable. *)
Definition js_incr (n : N) : N := if n <? 2 ^ 53 then n + 1 else n.

(** sodium-native refuses a key or a nonce of the wrong length. *)
Definition sodium_check (ok : bool) : M unit :=
  if ok then ret tt else throw SodiumError.

Record Sealed := mkSealed {
  nonceB64 : string;
  ciphertextB64 : string;
  seq : N
}.

Definition encryptWithSession `{Sodium} (sessionId : string) (plaintext : bytes)
  : M Sealed :=
  let* session := getSession sessionId in
  match session with
  | None => throw (Coded SESSION_NOT_FOUND)
  | Some session =>
      let* nonce := randomBytes crypto_secretbox_NONCEBYTES in
      sodium_check (Nat.eqb (List.length (key session)) crypto_secretbox_KEYBYTES) ;;
      let ciphertext :=
        filled (List.length plaintext + crypto_secretbox_MACBYTES)
          (crypto_secretbox_easy plaintext nonce (key session)) in
      let seq := js_incr (sendSeq session) in
      update_session sessionId (with_sendSeq seq) ;;
      ret (mkSealed (toBase64 nonce) (toBase64 ciphertext) seq)
  end.

Definition decryptWithSession `{Sodium} (sessionId : string)
    (nonce ciphertext : bytes) : M bytes :=
  let* session := getSession sessionId in
  match session with
  | None => throw (Coded SESSION_NOT_FOUND)
  | Some session =>
      if (List.length ciphertext <? crypto_secretbox_MACBYTES)%nat
      then throw RangeError
      else
        sodium_check
          (Nat.eqb (List.length nonce) crypto_secretbox_NONCEBYTES
           && Nat.eqb (List.length (key session)) crypto_secretbox_KEYBYTES) ;;
        match crypto_secretbox_open_easy ciphertext nonce (key session) with
        | None => throw (Coded DECRYPT_FAILED)
        | Some opened =>
            ret (filled (List.length ciphertext - crypto_secretbox_MACBYTES) opened)
        end
  end.

Record Handshake := mkHandshake {
  hostEphemeralPubB64 : string;
  signatureB64 : string;
  hs_sessionId : string
}.

(** The part [beginHandshake] and [finalizeHandshakeWithMemoryIdentity]
    have in common: ephemeral key pair, ECDH, transcript, signature,
    session. *)
Definition handshake_with_key `{Sodium} (ed25519PrivateKey : bytes)
    (extensionEphemeralPublicKeyB64 : string) (clientPublicKeyBytes : bytes)
  : M Handshake :=
  let* eph := crypto_box_keypair in
  let hostEphemeralPublicKey := fst eph in
  let hostEphemeralPrivateKey := snd eph in
  let extensionEphemeralPublicKey := fromBase64 extensionEphemeralPublicKeyB64 in
  sodium_check (Nat.eqb (List.length extensionEphemeralPublicKey) 32) ;;
  match crypto_scalarmult hostEphemeralPrivateKey extensionEphemeralPublicKey with
  | None => throw SodiumError
  | Some shared =>
      let sharedSecret := filled 32 shared in
      let transcript :=
        concatBytes (concatBytes hostEphemeralPublicKey extensionEphemeralPublicKey)
          clientPublicKeyBytes in
      sodium_check (Nat.eqb (List.length ed25519PrivateKey) crypto_sign_SECRETKEYBYTES) ;;
      let signature :=
        filled crypto_sign_BYTES (crypto_sign_detached transcript ed25519PrivateKey) in
      let* sessionId := createSession sharedSecret transcript in
      ret (mkHandshake (toBase64 hostEphemeralPublicKey) (toBase64 signature) sessionId)
  end.

Definition finalizeHandshakeWithMemoryIdentity `{Sodium} (mem : MemIdentity)
    (extensionEphemeralPublicKeyB64 : string) (clientPublicKeyBytes : bytes)
  : M Handshake :=
  handshake_with_key (ed25519PrivateKeyBytes mem)
    extensionEphemeralPublicKeyB64 clientPublicKeyBytes.

(** [typeof r === 'string' ? r : r?.data] *)
Definition blob_of (r : GetResponse) : option string :=
  match r with
  | RString s => Some s
  | RData d => d
  | RNull => None
  end.

Definition blob_truthy (b : option string) : bool :=
  match b with
  | Some s => str_truthy s
  | None => false
  end.

Definition beginHandshake `{Sodium} `{Runtime} (client : Client)
    (extensionEphemeralPublicKeyB64 : string) : M Handshake :=
  getOrCreateIdentity client ;;
  let* clientPubB64 := getClientIdentityPublicKey client in
  if negb (truthy clientPubB64) then throw (Coded CLIENT_NOT_PAIRED)
  else
    let* clientPublicKeyBytes := Buffer_from_base64 clientPubB64 in
    let* edResponse := client_call client
        (fun c => try_catch (encryptionGet "nm.identity.ed25519" c)
                    (fun _ => ret RNull)) in
    let* xResponse := client_call client
        (fun c => try_catch (encryptionGet "nm.identity.x25519" c)
                    (fun _ => ret RNull)) in
    let edBlobB64 := blob_of edResponse in
    let xBlobB64 := blob_of xResponse in
    if negb (blob_truthy edBlobB64) || negb (blob_truthy xBlobB64)
    then
      let* fallback :=
        try_catch
          (let* mem := __getMemIdentity in
           match mem with
           | Some mem =>
               let* r := finalizeHandshakeWithMemoryIdentity mem
                           extensionEphemeralPublicKeyB64 clientPublicKeyBytes in
               ret (Some r)
           | None => ret None
           end)
          (fun _ => ret None) in
      match fallback with
      | Some r => ret r
      | None => throw (Coded IDENTITY_KEYS_UNAVAILABLE)
      end
    else
      let edBuffer := fromBase64 (default "" edBlobB64) in
      let ed25519PrivateKeyBytes :=
        subarray crypto_sign_PUBLICKEYBYTES
          (crypto_sign_PUBLICKEYBYTES + crypto_sign_SECRETKEYBYTES) edBuffer in
      handshake_with_key ed25519PrivateKeyBytes
        extensionEphemeralPublicKeyB64 clientPublicKeyBytes.

Definition recordIncomingSeq (sessionId : string) (seq : JsVal) : M unit :=
  let* session := getSession sessionId in
  match session with
  | None => throw (Coded SESSION_NOT_FOUND)
  | Some session =>
      match seq with
      | JNum (Finite q) =>
          if Qle_bool q (lastRecvSeq session)
          then throw (Coded REPLAY_DETECTED)
          else
            update_session sessionId (with_lastRecvSeq q)
      | _ => throw (Coded INVALID_SEQ)
      end
  end.

(** The sequence numbers a session accepts out of those presented to
    [recordIncomingSeq], one call after the other. *)
Fixpoint accepted_seqs (sessionId : string) (seqs : list JsVal) (w : World)
  : list Q :=
  match seqs with
  | [] => []
  | v :: rest =>
      match recordIncomingSeq sessionId v w, v with
      | (Ok _, w'), JNum (Finite q) => q :: accepted_seqs sessionId rest w'
      | (_, w'), _ => accepted_seqs sessionId rest w'
      end
  end.

(** What libsodium promises of [crypto_secretbox]: a box opens, under the
    key and nonce that sealed it, to the sealed message, and is 16 bytes
    longer than the message. *)
Definition secretbox_opens `{Sodium} : Prop :=
  forall m nonce k : bytes,
    List.length k = crypto_secretbox_KEYBYTES ->
    List.length nonce = crypto_secretbox_NONCEBYTES ->
    crypto_secretbox_open_easy (crypto_secretbox_easy m nonce k) nonce k = Some m.

Definition secretbox_length `{Sodium} : Prop :=
  forall m nonce k : bytes,
    List.length (crypto_secretbox_easy m nonce k)
    = (List.length m + crypto_secretbox_MACBYTES)%nat.

(** ** The RPC facade ([SecurityHandlers.js]) *)

(** Modelled from the spec: [PROTOCOL_TAGS.CLIENT_FINISH] of
    [protocolConstants.js], whose source is not available (section 4.5,
    step 6). *)
Definition CLIENT_FINISH : string := "pearpass/client-finish/v1".

(** Modelled from the spec: [getNativeMessagingEnabled()] of
    [nativeMessagingPreferences.js], whose source is not available: the
    single boolean flag supplied by the surrounding app (section 4.6). *)
Definition getNativeMessagingEnabled : M bool := gets nativeMessagingEnabled.

(** A request parameter: absent, or a string. *)
Definition param_falsy (p : option string) : bool :=
  match p with
  | Some s => negb (str_truthy s)
  | None => true
  end.
Definition param_text (p : option string) : string := default "" p.

Record AppIdentity := mkAppIdentity {
  ai_ed25519PublicKey : string;
  ai_x25519PublicKey : string;
  ai_fingerprint : string
}.

(** [nmGetAppIdentity] from the check "is a different client already
    paired" on, given what the load of the pinned key returned. *)
Definition nmGetAppIdentity_pin `{Runtime} (this_client : Client) (id : Identity)
    (clientEd25519PublicKeyB64 : string) (existingClientPubB64 : JsVal)
  : M AppIdentity :=
  if truthy existingClientPubB64
     && strict_ne_str existingClientPubB64 clientEd25519PublicKeyB64
  then throw (Coded CLIENT_ALREADY_PAIRED)
  else
    setClientIdentityPublicKey this_client clientEd25519PublicKeyB64 PENDING ;;
    ret (mkAppIdentity (ed25519PublicKey id) (x25519PublicKey id)
           (getFingerprint (ed25519PublicKey id))).

Definition nmGetAppIdentity `{Sodium} `{Runtime} (this_client : Client)
    (pairingToken clientEd25519PublicKeyB64 : option string) : M AppIdentity :=
  if param_falsy pairingToken then throw (Coded PAIRING_TOKEN_REQUIRED)
  else if param_falsy clientEd25519PublicKeyB64
  then throw (Coded CLIENT_PUBLIC_KEY_REQUIRED)
  else
    let* id := getOrCreateIdentity this_client in
    let* isValidToken :=
      verifyPairingToken this_client (ed25519PublicKey id) (param_text pairingToken) in
    if negb isValidToken then throw (Coded INVALID_PAIRING_TOKEN)
    else
      (* getClientIdentityPublicKey() is called without an argument *)
      let* existingClientPubB64 := getClientIdentityPublicKey None in
      nmGetAppIdentity_pin this_client id (param_text clientEd25519PublicKeyB64)
        existingClientPubB64.


(** [{ ok: true }] *)
Inductive OkResponse := ok_true.

(** [nmFinishHandshake] from the check of the pinned key on, given the
    session found and what the load of the pinned key returned. *)
Definition nmFinishHandshake_verify `{Sodium} `{Runtime}
    (sessionId clientSigB64 : string) (session : Session) (clientPubB64 : JsVal)
  : M OkResponse :=
  if negb (truthy clientPubB64) then throw (Coded CLIENT_NOT_PAIRED)
  else
    let* clientPubBytes := Buffer_from_base64 clientPubB64 in
    let sigBytes := fromBase64 clientSigB64 in
    if negb (Nat.eqb (List.length clientPubBytes) crypto_sign_PUBLICKEYBYTES)
    then throw (Coded INVALID_CLIENT_PUBLIC_KEY)
    else if negb (Nat.eqb (List.length sigBytes) crypto_sign_BYTES)
    then throw (Coded INVALID_CLIENT_SIGNATURE)
    else if Nat.eqb (List.length (transcript session)) 0
    then throw (Coded INVALID_TRANSCRIPT)
    else
      let protocolTag := utf8 CLIENT_FINISH in
      let sessionIdBytes := utf8 sessionId in
      let clientTranscript :=
        concatBytes (concatBytes protocolTag sessionIdBytes) (transcript session) in
      let ok := crypto_sign_verify_detached sigBytes clientTranscript clientPubBytes in
      if negb ok
      then
        (* on failure, drop the session *)
        closeSession sessionId ;;
        throw (Coded CLIENT_SIGNATURE_INVALID)
      else
        update_session sessionId (with_clientVerified true) ;;
        ret ok_true.

Definition nmFinishHandshake `{Sodium} `{Runtime}
    (sessionId clientSigB64 : option string) : M OkResponse :=
  if param_falsy sessionId then throw (Coded MISSING_SESSION_ID)
  else if param_falsy clientSigB64 then throw (Coded MISSING_CLIENT_SIGNATURE)
  else
    let* session := getSession (param_text sessionId) in
    match session with
    | None => throw (Coded SESSION_NOT_FOUND)
    | Some session =>
        if clientVerified session then ret ok_true
        else
          (* getClientIdentityPublicKey() is called without an argument *)
          let* clientPubB64 := getClientIdentityPublicKey None in
          nmFinishHandshake_verify (param_text sessionId) (param_text clientSigB64)
            session clientPubB64
    end.

Definition nmCloseSession (sessionId : option string) : M OkResponse :=
  if param_falsy sessionId then throw (Coded MISSING_SESSION_ID)
  else closeSession (param_text sessionId) ;; ret ok_true.


Record ResetResponse := mkResetResponse {
  clearedSessions : nat;
  newIdentity : Identity
}.

Definition nmResetPairing `{Sodium} (this_client : Client) : M ResetResponse :=
  let* clearedSessions := clearAllSessions in
  let* newIdentity := resetIdentity this_client in
  ret (mkResetResponse clearedSessions newIdentity).

(** ** Vocabulary of the statements *)

(** What a load of the vault entry [k] yields: nothing while the vault is
    locked, nothing for an absent or empty entry. *)
Definition stored (w : World) (k : string) : option string :=
  if vault_locked (vault w) then None
  else match vault_entries (vault w) !! k with
       | Some s => if str_truthy s then Some s else None
       | None => None
       end.

(** The peer record as [getClientData] reads it. *)
Definition client_data `{Runtime} (w : World) : JsVal :=
  match stored w ENC_KEY_CLIENT_DATA with
  | None => JNull
  | Some text => match JSON_parse text with
                 | Some v => v
                 | None => JNull
                 end
  end.

(** The unprotected cache slot. *)
Definition cache (w : World) : option string :=
  localStorage w !! NM_CLIENT_PUBLIC_KEY.

Definition with_entries (f : gmap string string -> gmap string string) (w : World)
  : World :=
  set_vault (mkVault (vault_status (vault w)) (vault_locked (vault w))
               (vault_wraps (vault w)) (f (vault_entries (vault w)))) w.

(** The world after [ensureEncryptionInitialized]. *)
Definition ensured (w : World) : World :=
  if vault_status (vault w) then w
  else set_vault (mkVault true (vault_locked (vault w)) (vault_wraps (vault w))
                    (vault_entries (vault w))) w.

(** The world after the pairing secret has been looked for: a missing
    secret costs 32 random bytes and, the vault permitting, is stored. *)
Definition with_secret `{Sodium} (w : World) : World :=
  match stored w ENC_KEY_PAIRING_SECRET with
  | Some _ => w
  | None =>
      let w1 := set_entropy (entropy w + 32) w in
      if vault_locked (vault w) then w1
      else with_entries
             (insert ENC_KEY_PAIRING_SECRET (toBase64 (draw (entropy w) 32))) w1
  end.

(** The key pairs [generateAndPersistIdentity] draws in the world [w]. *)
Definition fresh_ed `{Sodium} (w : World) : bytes * bytes :=
  let kp := crypto_sign_seed_keypair (draw (entropy w) 32) in
  (filled crypto_sign_PUBLICKEYBYTES (fst kp),
   filled crypto_sign_SECRETKEYBYTES (snd kp)).
Definition fresh_x `{Sodium} (w : World) : bytes * bytes :=
  let sk := draw (entropy w + 32) 32 in
  (filled crypto_box_PUBLICKEYBYTES (crypto_scalarmult_base sk),
   filled crypto_box_SECRETKEYBYTES sk).

(** The world after [generateAndPersistIdentity]. *)
Definition generated `{Sodium} (w : World) : World :=
  let ed := fresh_ed w in
  let x := fresh_x w in
  let w1 := set_boxKeypairCalls (S (boxKeypairCalls w))
              (set_signKeypairCalls (S (signKeypairCalls w))
                 (set_entropy (entropy w + 32 + 32) w)) in
  if vault_locked (vault w)
  then set_MEMORY_IDENTITY
         (Some (mkMemIdentity (fst ed) (snd ed) (fst x) (snd x) (now w))) w1
  else with_entries
         (fun entries =>
            <[ENC_KEY_CREATION_DATE := now w]>
              (<[ENC_KEY_X25519 := toBase64 (fst x ++ snd x)]>
                 (<[ENC_KEY_ED25519 := toBase64 (fst ed ++ snd ed)]> entries))) w1.

(** The world [resetIdentity] hands to [getOrCreateIdentity]: no session,
    the five vault entries emptied (the vault permitting), the cache slot
    removed, no in-memory identity. *)
Definition cleared (w : World) : World :=
  let w1 := set_sessions ∅ w in
  let w2 :=
    if vault_locked (vault w) then w1
    else with_entries
           (fun entries =>
              <[ENC_KEY_PAIRING_SECRET := ""]>
                (<[ENC_KEY_CLIENT_DATA := ""]>
                   (<[ENC_KEY_CREATION_DATE := ""]>
                      (<[ENC_KEY_X25519 := ""]>
                         (<[ENC_KEY_ED25519 := ""]> entries))))) w1 in
  set_MEMORY_IDENTITY None
    (set_localStorage (delete NM_CLIENT_PUBLIC_KEY (localStorage w)) w2).

(** Whether [getOrCreateIdentity] finds no usable key blobs, and whether it
    therefore generates key pairs. *)
Definition blobs_missing (w : World) : bool :=
  match stored w ENC_KEY_ED25519, stored w ENC_KEY_X25519 with
  | Some _, Some _ => false
  | _, _ => true
  end.
Definition generates (w : World) : bool :=
  blobs_missing w && match MEMORY_IDENTITY w with
                     | Some _ => false
                     | None => true
                     end.

(** The failures of [nmFinishHandshake] that come before the signature
    check. *)
Definition validation_error (e : JsError) : Prop :=
  e = Coded CLIENT_NOT_PAIRED \/ e = Coded INVALID_CLIENT_PUBLIC_KEY
  \/ e = Coded INVALID_CLIENT_SIGNATURE \/ e = Coded INVALID_TRANSCRIPT
  \/ e = TypeError.

(** The stores a cryptographic failure must not touch: the vault (identity
    keys, pairing secret, peer record), the local-storage cache and the
    in-memory identity. *)
Definition same_stores (w w' : World) : Prop :=
  vault w' = vault w /\ localStorage w' = localStorage w
  /\ MEMORY_IDENTITY w' = MEMORY_IDENTITY w.

(** What [getOrCreateIdentity] leaves alone on its way. *)
Record untouched (w w' : World) : Prop := {
  same_localStorage : localStorage w' = localStorage w;
  same_sessions : sessions w' = sessions w;
  same_flag : nativeMessagingEnabled w' = nativeMessagingEnabled w;
  same_locked : vault_locked (vault w') = vault_locked (vault w)
}.

(** What decides the branch [getOrCreateIdentity] takes, and the counters
    of key-pair generation. *)
Record same_identity_inputs (w w' : World) : Prop := {
  same_memory : MEMORY_IDENTITY w' = MEMORY_IDENTITY w;
  same_ed : stored w' ENC_KEY_ED25519 = stored w ENC_KEY_ED25519;
  same_x : stored w' ENC_KEY_X25519 = stored w ENC_KEY_X25519;
  same_signKeypairCalls : signKeypairCalls w' = signKeypairCalls w;
  same_boxKeypairCalls : boxKeypairCalls w' = boxKeypairCalls w
}.

(** The operations of the pairing lifecycle, run with the client [c]. *)
Inductive PairingOp :=
  | PinPeer (publicKey state : string)
  | ConfirmPeer (publicKey : string)
  | ResetIdentity.

Definition pairing_step `{Sodium} `{Runtime} (c : ClientRef) (op : PairingOp)
  : M unit :=
  match op with
  | PinPeer k state => setClientIdentityPublicKey (Some c) k state
  | ConfirmPeer k => confirmClientPairing (Some c) k
  | ResetIdentity => resetIdentity (Some c) ;; ret tt
  end.

Definition run_ops `{Sodium} `{Runtime} (c : ClientRef) (ops : list PairingOp)
    (w : World) : World :=
  fold_left (fun w op => snd (pairing_step c op w)) ops w.

(** Whether a confirmation has been attempted since the last reset. *)
Definition confirmed_since_reset (ops : list PairingOp) (before : bool) : bool :=
  fold_left (fun b op => match op with
                         | PinPeer _ _ => b
                         | ConfirmPeer _ => true
                         | ResetIdentity => false
                         end) ops before.

(** ** Test doubles and sample worlds

    Stand-ins for libsodium and for the JavaScript runtime, in the manner of
    the mocks of [appIdentity.test.js]: deterministic, and good enough to
    run the code on concrete inputs. *)

Module Double.

Fixpoint bytes_eqb (a b : bytes) : bool :=
  match a, b with
  | [], [] => true
  | x :: a', y :: b' => Byte.eqb x y && bytes_eqb a' b'
  | _, _ => false
  end.

Definition tag16 (k nonce m : bytes) : bytes :=
  filled 16 (crypto_hash_sha256 (k ++ nonce ++ m)).

Definition seal (m nonce k : bytes) : bytes := tag16 k nonce m ++ m.

Definition open (c nonce k : bytes) : option bytes :=
  let m := skipn 16 c in
  if bytes_eqb (firstn 16 c) (tag16 k nonce m) then Some m else None.

(** The verification key is the seed; a signature is a keyed digest. *)
Definition sign (msg sk : bytes) : bytes :=
  let d := crypto_hash_sha256 (firstn 32 sk ++ msg) in d ++ d.

Definition verify (sig msg pk : bytes) : bool :=
  bytes_eqb sig (sign msg pk).

Definition xor_bytes (a b : bytes) : bytes :=
  map (fun p => byte_of_N (N.lxor (Byte.to_N (fst p)) (Byte.to_N (snd p))))
    (combine a b).

#[export] Instance sodium : Sodium := {|
  csprng := fun i => byte_of_N (N.of_nat i * 37 + 11);
  crypto_sign_seed_keypair := fun seed => (seed, seed ++ seed);
  crypto_scalarmult_base := fun sk => rev sk;
  crypto_scalarmult := fun n p => Some (xor_bytes n (rev p));
  crypto_sign_detached := sign;
  crypto_sign_verify_detached := verify;
  crypto_secretbox_easy := seal;
  crypto_secretbox_open_easy := open
|}.

(** A fragment of JSON: [null], and objects whose values are strings
    without escapes. *)
Definition dq : ascii := ascii_of_nat 34.

Definition quote (s : string) : string := String dq (s ++ String dq EmptyString).

Definition member (kv : string * JsVal) : string :=
  quote (fst kv) ++ ":" ++
  match snd kv with
  | JStr s => quote s
  | _ => "null"
  end.

Fixpoint members (fields : list (string * JsVal)) : string :=
  match fields with
  | [] => EmptyString
  | [kv] => member kv
  | kv :: rest => member kv ++ "," ++ members rest
  end.

Definition stringify (v : JsVal) : string :=
  match v with
  | JObj fields => "{" ++ members fields ++ "}"
  | JStr s => quote s
  | _ => "null"
  end.

(** Reads up to the closing quote: the text read and what follows. *)
Fixpoint read_quoted (s : string) : option (string * string) :=
  match s with
  | EmptyString => None
  | String c rest =>
      if Ascii.eqb c dq then Some (EmptyString, rest)
      else match read_quoted rest with
           | Some (t, after) => Some (String c t, after)
           | None => None
           end
  end.

Definition read_string (s : string) : option (string * string) :=
  match s with
  | String c rest => if Ascii.eqb c dq then read_quoted rest else None
  | EmptyString => None
  end.

Fixpoint read_members (fuel : nat) (s : string)
  : option (list (string * JsVal)) :=
  match fuel with
  | O => None
  | S fuel' =>
      match read_string s with
      | Some (k, String ":" after) =>
          match read_string after with
          | Some (v, String "," more) =>
              match read_members fuel' more with
              | Some fields => Some ((k, JStr v) :: fields)
              | None => None
              end
          | Some (v, String "}" EmptyString) => Some [(k, JStr v)]
          | _ => None
          end
      | _ => None
      end
  end.

Definition parse (s : string) : option JsVal :=
  match s with
  | String "{" (String "}" EmptyString) => Some (JObj [])
  | String "{" rest =>
      match read_members (String.length rest) rest with
      | Some fields => Some (JObj fields)
      | None => None
      end
  | _ => if String.eqb s "null" then Some JNull else None
  end.

(** The stand-in for [toUpperCase] maps the letters a to z, which is the
    runtime's mapping on the ASCII texts of the sample inputs. *)
#[export] Instance runtime : Runtime := {|
  JSON_stringify := stringify;
  JSON_parse := parse;
  Buffer_from_value := fun _ => None;
  toUpperCase := toUpperCase_ascii
|}.

Definition client : Client := Some TheClient.

Definition date0 : string := "2024-01-01T00:00:00.000Z".

(** First run: an unlocked, empty vault; native messaging enabled. *)
Definition fresh : World :=
  mkWorld (mkVault true false false ∅) ∅ None ∅ true date0 0 0 0.

Definition run {A} (m : M A) (w : World) : World := snd (m w).

Definition from_ok {A} (fallback : A) (r : Result A) : A :=
  match r with
  | Ok a => a
  | Throw _ => fallback
  end.

(** Two extensions. *)
Definition peerE : string := toBase64 (repeat x45 32).
Definition peerF : string := toBase64 (repeat x46 32).

(** The host has created its identity; the pairing code it shows. *)
Definition hosted : World :=
  Eval vm_compute in run (getOrCreateIdentity client) fresh.

Definition hostKey : string :=
  Eval vm_compute in
    ed25519PublicKey
      (from_ok (mkIdentity "" "" "") (fst (getOrCreateIdentity client fresh))).

Definition goodToken : string :=
  Eval vm_compute in from_ok "" (fst (getPairingToken client hostKey hosted)).

(** The pairing lifecycle: E pinned, confirmed, pinned again. *)
Definition pinnedE : World :=
  Eval vm_compute in
  run (setClientIdentityPublicKey client peerE PENDING) hosted.
Definition confirmedE : World :=
  Eval vm_compute in run (confirmClientPairing client peerE) pinnedE.
Definition repinnedE : World :=
  Eval vm_compute in
  run (setClientIdentityPublicKey client peerE PENDING) confirmedE.

(** A handshake begun for E, by the session manager. *)
Definition extEphemeral : string := toBase64 (repeat x58 32).
Definition shaken : Handshake :=
  Eval vm_compute in
    from_ok (mkHandshake "" "" "")
      (fst (beginHandshake client extEphemeral pinnedE)).
Definition sid : string := Eval vm_compute in hs_sessionId shaken.
Definition live : World :=
  Eval vm_compute in run (beginHandshake client extEphemeral) pinnedE.
Definition session0 : Session :=
  Eval vm_compute in default (mkSession [] [] 0 0%Q false) (sessions live !! sid).

(** The signature E owes over the tagged transcript, and a forged one. *)
Definition goodSig : string :=
  Eval vm_compute in
    toBase64 (sign (utf8 CLIENT_FINISH ++ utf8 sid ++ transcript session0)
                (fromBase64 peerE)).
Definition forgedSig : string := toBase64 (repeat x00 64).

(** A frame sealed on the live session. *)
Definition hello : bytes := utf8 "hello".
Definition frame : Sealed :=
  Eval vm_compute in
    from_ok (mkSealed "" "" 0) (fst (encryptWithSession sid hello live)).
Definition sent : World :=
  Eval vm_compute in run (encryptWithSession sid hello) live.

(** The forged signature presented after the pinned key was loaded. *)
Definition dropped : World :=
  Eval vm_compute in
  run (nmFinishHandshake_verify sid forgedSig session0 (JStr peerE)) live.

(** Sequence number 5 has been received. *)
Definition five : JsVal := JNum (Finite 5).
Definition six : JsVal := JNum (Finite 6).
Definition three_halves : JsVal := JNum (Finite (3 # 2)).
Definition received5 : World :=
  Eval vm_compute in run (recordIncomingSeq sid five) live.

(** The sealed frame with its first byte replaced. *)
Definition tampered : bytes :=
  Eval vm_compute in
  match fromBase64 (ciphertextB64 frame) with
  | b :: rest => byte_of_N (Byte.to_N b + 1) :: rest
  | [] => []
  end.

(** A peer record without a [pairingState]. *)
Definition stateless : World :=
  Eval vm_compute in
  with_entries
    (insert ENC_KEY_CLIENT_DATA (stringify (JObj [("publicKey", JStr peerE)])))
    hosted.


(** A store that has both key blobs but neither creation date nor
    pairing secret. *)
Definition dateless : World :=
  Eval vm_compute in
  with_entries (fun entries =>
                  delete ENC_KEY_PAIRING_SECRET
                    (delete ENC_KEY_CREATION_DATE entries)) hosted.

(** The sample arguments of [getPairingCode] in [appIdentity.test.js]. *)
Definition samplePublicKey : string := toBase64 (repeat x2a 32).
Definition sampleSecret : string := toBase64 (repeat x07 32).
Definition otherSecret : string := toBase64 (repeat x07 9 ++ repeat xff 23).

End Double.

(** ** Further vocabulary: the shape of the texts the code returns *)

Definition is_digit (c : ascii) : bool :=
  let n := N_of_ascii c in (48 <=? n) && (n <=? 57).

Definition is_upper_hex (c : ascii) : bool :=
  let n := N_of_ascii c in
  ((48 <=? n) && (n <=? 57)) || ((65 <=? n) && (n <=? 70)).

Definition is_lower_hex (c : ascii) : bool :=
  let n := N_of_ascii c in
  ((48 <=? n) && (n <=? 57)) || ((97 <=? n) && (n <=? 102)).

Fixpoint all_chars (p : ascii -> bool) (s : string) : bool :=
  match s with
  | EmptyString => true
  | String c rest => p c && all_chars p rest
  end.

(** The regular expression of the test suite, [^\d{6}-[0-9A-F]{4}$]. *)
Definition is_pairing_code (s : string) : bool :=
  (String.length s =? 11)%nat
  && all_chars is_digit (substring 0 6 s)
  && String.eqb (substring 6 1 s) "-"
  && all_chars is_upper_hex (substring 7 4 s).

(** The regular expression of the test suite, [^[0-9a-f]{64}$]. *)
Definition is_fingerprint (s : string) : bool :=
  (String.length s =? 64)%nat && all_chars is_lower_hex s.

(** The decimal digit [k] put before the digits [d]. *)
Definition digit (k : N) (d : Decimal.uint) : Decimal.uint :=
  match k with
  | 0 => Decimal.D0 d | 1 => Decimal.D1 d | 2 => Decimal.D2 d
  | 3 => Decimal.D3 d | 4 => Decimal.D4 d | 5 => Decimal.D5 d
  | 6 => Decimal.D6 d | 7 => Decimal.D7 d | 8 => Decimal.D8 d
  | _ => Decimal.D9 d
  end.


(** ** Further vocabulary: what every client leaves alone *)

(** What [getOrCreateIdentity] leaves alone with every client: the local
    storage, the sessions, the flag and the lock, the peer record in the
    vault, and a pairing secret that a load finds. *)
Record undisturbed (w w' : World) : Prop := {
  und_untouched : untouched w w';
  und_record :
    vault_entries (vault w') !! ENC_KEY_CLIENT_DATA
    = vault_entries (vault w) !! ENC_KEY_CLIENT_DATA;
  und_secret :
    stored w ENC_KEY_PAIRING_SECRET <> None ->
    vault_entries (vault w') !! ENC_KEY_PAIRING_SECRET
    = vault_entries (vault w) !! ENC_KEY_PAIRING_SECRET
}.

(** ** Further vocabulary: the runtime *)

(** [toUpperCase] leaves a pairing code -- digits, a hyphen and the letters
    A to F -- as it is. *)
Definition toUpperCase_keeps_codes `{Runtime} : Prop :=
  forall s : string, is_pairing_code s = true -> toUpperCase s = s.

(** [JSON.parse] reads back what [JSON.stringify] wrote of [v], a text
    that is not empty. *)
Definition json_round_trip `{Runtime} (v : JsVal) : Prop :=
  str_truthy (JSON_stringify v) = true
  /\ JSON_parse (JSON_stringify v) = Some v.

(** ** Further sample worlds *)

Module Scenario.
Import Double.

(** The first pairing secret drawn on the fresh host, and the host after
    the draw. *)
Definition firstSecret : string :=
  Eval vm_compute in from_ok "" (fst (getOrCreatePairingSecret client fresh)).
Definition secured : World :=
  Eval vm_compute in run (getOrCreatePairingSecret client) fresh.

(** A stored pairing secret of three bytes. *)
Definition badSecret : World :=
  Eval vm_compute in with_entries (insert ENC_KEY_PAIRING_SECRET "AAAA") hosted.

(** The identity the fresh host creates. *)
Definition hostIdentity : Identity :=
  Eval vm_compute in
    from_ok (mkIdentity "" "" "") (fst (getOrCreateIdentity client fresh)).

(** A host whose vault was locked when the identity was created, and the
    same host with the vault unlocked (and still empty). *)
Definition memHost : World :=
  Eval vm_compute in
    run (getOrCreateIdentity client)
      (mkWorld (mkVault false true false ∅) ∅ None ∅ true date0 0 0 0).
Definition memId : MemIdentity :=
  Eval vm_compute in
    default (mkMemIdentity [] [] [] [] "") (MEMORY_IDENTITY memHost).
Definition memUnlocked : World :=
  Eval vm_compute in set_vault (mkVault true false false ∅) memHost.

(** The host paired with E, its vault locked. *)
Definition lockedPaired : World :=
  Eval vm_compute in
    set_vault (mkVault true true false (vault_entries (vault confirmedE)))
      confirmedE.

(** The client mocked in the test suite: its reads are served, its
    writes are rejected. *)
Definition rejecting : ClientRef := mkClient true false.

(** The live session after E's signature has been verified. *)
Definition verified : World :=
  Eval vm_compute in
    run (nmFinishHandshake_verify sid goodSig session0 (JStr peerE)) live.

End Scenario.

(** * Properties *)

(** ** The primitives on known inputs *)

Example sha256_abc :
  toHex (crypto_hash_sha256 (utf8 "abc"))
  = "ba7816bf8f01cfea414140de5dae2223b00361a396177a9cb410ff61f20015ad".
Proof. vm_compute. reflexivity. Qed.

Example sha256_empty :
  toHex (crypto_hash_sha256 [])
  = "e3b0c44298fc1c149afbf4c8996fb92427ae41e4649b934ca495991b7852b855".
Proof. vm_compute. reflexivity. Qed.

Example sha256_two_blocks :
  toHex (crypto_hash_sha256
    (utf8 "abcdbcdecdefdefgefghfghighijhijkijkljklmklmnlmnomnopnopq"))
  = "248d6a61d20638b8e5c026930c3e6039a33ce45964ff2167f6ecedd419db06c1".
Proof. vm_compute. reflexivity. Qed.

Example base64_sample : toBase64 (utf8 "Man is") = "TWFuIGlz".
Proof. vm_compute. reflexivity. Qed.

Example base64_padded :
  toBase64 (utf8 "Ma") = "TWE=" /\ fromBase64 "TWE=" = utf8 "Ma".
Proof. vm_compute. split; reflexivity. Qed.

(** ** Base64 text decodes to the bytes it was made from *)

Ltac Zify.zify_post_hook ::= Z.to_euclidean_division_equations.

Lemma forall_below (P : N -> bool) (k : nat) :
  forallb P (map N.of_nat (List.seq 0 k)) = true ->
  forall n, n < N.of_nat k -> P n = true.
Proof.
  intros Hall n Hn.
  rewrite forallb_forall in Hall.
  apply Hall.
  rewrite in_map_iff. exists (N.to_nat n). split.
  - apply N2Nat.id.
  - apply in_seq. lia.
Qed.

Lemma b64_char_val (n : N) :
  n < 64 ->
  (N_of_ascii (b64_char n) =? 61) = false /\ b64_val (b64_char n) = Some n.
Proof.
  intros Hn.
  pose (P := fun n => negb (N_of_ascii (b64_char n) =? 61)
                      && match b64_val (b64_char n) with
                         | Some v => v =? n
                         | None => false
                         end).
  assert (HP : P n = true).
  { apply (forall_below P 64); [vm_compute; reflexivity | exact Hn]. }
  unfold P in HP. apply andb_prop in HP as [H1 H2].
  split.
  - now apply negb_true_iff in H1.
  - destruct (b64_val (b64_char n)) as [v|]; [|discriminate].
    apply N.eqb_eq in H2. now subst.
Qed.

Lemma sextets_char (n : N) (s : string) :
  n < 64 -> sextets (String (b64_char n) s) = n :: sextets s.
Proof.
  intros Hn. destruct (b64_char_val n Hn) as [H1 H2].
  cbn [sextets]. now rewrite H1, H2.
Qed.

Lemma byte_of_to_N (b : byte) : byte_of_N (Byte.to_N b) = b.
Proof.
  unfold byte_of_N.
  pose proof (Byte.to_N_bounded b).
  rewrite N.mod_small by lia.
  now rewrite Byte.of_to_N.
Qed.

Lemma byte_of_N_eq (n : N) (b : byte) : n mod 256 = Byte.to_N b -> byte_of_N n = b.
Proof.
  intros Hn. unfold byte_of_N. rewrite Hn. now rewrite Byte.of_to_N.
Qed.

Lemma list_ind3 {A} (P : list A -> Prop) :
  P [] -> (forall a, P [a]) -> (forall a b, P [a; b]) ->
  (forall a b c l, P l -> P (a :: b :: c :: l)) ->
  forall l, P l.
Proof.
  intros H0 H1 H2 H3 l.
  enough (P l /\ (forall a, P (a :: l)) /\ (forall a b, P (a :: b :: l))) by tauto.
  induction l as [|x l (IH0 & IH1 & IH2)]; auto.
Qed.

Theorem fromBase64_toBase64 (bs : bytes) : fromBase64 (toBase64 bs) = bs.
Proof.
  unfold fromBase64.
  induction bs as [|a|a b|a b c l IH] using list_ind3.
  - reflexivity.
  - pose proof (Byte.to_N_bounded a).
    cbn [toBase64]. rewrite !sextets_char by lia. cbn [sextets regroup].
    change (N_of_ascii "=" =? 61) with true. cbn [regroup].
    f_equal. apply byte_of_N_eq. lia.
  - pose proof (Byte.to_N_bounded a). pose proof (Byte.to_N_bounded b).
    cbn [toBase64]. rewrite !sextets_char by lia.
    change (sextets "=") with (@nil N). cbn [regroup].
    f_equal; [|f_equal]; apply byte_of_N_eq; lia.
  - pose proof (Byte.to_N_bounded a). pose proof (Byte.to_N_bounded b).
    pose proof (Byte.to_N_bounded c).
    cbn [toBase64]. rewrite !sextets_char by lia. cbn [regroup].
    rewrite IH.
    f_equal; [|f_equal; [|f_equal]]; apply byte_of_N_eq; lia.
Qed.

Lemma toBase64_truthy (bs : bytes) : bs <> [] -> str_truthy (toBase64 bs) = true.
Proof.
  destruct bs as [|a [|b [|c l]]]; [congruence | reflexivity ..].
Qed.

(** ** C1: the pairing code *)

Tactic Notation "explode_list" ident(l) integer(n) :=
  do n (destruct l as [|? l]; [discriminate|]);
  destruct l; [|discriminate].

(** The four [set] calls of [getPairingCode] never leave the buffer, and the
    last one overwrites bytes 32..63: of the secret only the first nine
    bytes survive, followed by the public key and the tail of the public
    key written by the third call. *)
Lemma pairing_input_layout {A} (k : bytes -> Result A) (tag secret pk : bytes) :
  List.length tag = 23%nat -> List.length secret = 32%nat -> List.length pk = 32%nat ->
  result_bind
    (Uint8Array_set
       (Uint8Array_new (List.length tag + List.length secret + List.length pk)) tag 0)
    (fun input =>
     result_bind (Uint8Array_set input secret (List.length tag)) (fun input =>
     result_bind (Uint8Array_set input pk (List.length tag + List.length secret))
       (fun input =>
     result_bind (Uint8Array_set input pk (List.length secret)) k)))
  = k (tag ++ firstn 9 secret ++ pk ++ skipn 9 pk).
Proof.
  intros Ht Hs Hp.
  explode_list tag 23. explode_list secret 32. explode_list pk 32.
  reflexivity.
Qed.

Lemma PAIRING_CODE_TAG_length : List.length PAIRING_CODE_TAG = 23%nat.
Proof. reflexivity. Qed.

(** What [getPairingCode] hashes, for a 32-byte secret and a 32-byte key. *)
Lemma getPairingCode_preimage (ed25519PublicKeyB64 pairingSecretB64 : string) :
  List.length (fromBase64 pairingSecretB64) = 32%nat ->
  List.length (fromBase64 ed25519PublicKeyB64) = 32%nat ->
  getPairingCode ed25519PublicKeyB64 pairingSecretB64
  = Ok (format_code
          (crypto_hash_sha256
             (PAIRING_CODE_TAG ++ firstn 9 (fromBase64 pairingSecretB64)
                ++ fromBase64 ed25519PublicKeyB64
                ++ skipn 9 (fromBase64 ed25519PublicKeyB64)))).
Proof.
  intros Hs Hp. unfold getPairingCode.
  apply (pairing_input_layout
           (fun input => Ok (format_code (crypto_hash_sha256 input))));
    auto using PAIRING_CODE_TAG_length.
Qed.

(** [getPairingCode] returns a code for every pair of arguments. *)
Lemma getPairingCode_total (ed25519PublicKeyB64 pairingSecretB64 : string) :
  exists code, getPairingCode ed25519PublicKeyB64 pairingSecretB64 = Ok code.
Proof.
  unfold getPairingCode, Uint8Array_set, Uint8Array_new.
  set (tag := PAIRING_CODE_TAG).
  set (secret := fromBase64 pairingSecretB64).
  set (pk := fromBase64 ed25519PublicKeyB64).
  rewrite repeat_length.
  replace (0 + List.length tag <=? List.length tag + List.length secret + List.length pk)%nat
    with true by (symmetry; apply Nat.leb_le; lia).
  cbn [result_bind].
  repeat match goal with
  | |- context [Nat.leb ?a ?b] =>
      replace (Nat.leb a b) with true
        by (symmetry; apply Nat.leb_le;
            repeat (rewrite ?length_app, ?length_firstn, ?length_skipn, ?repeat_length);
            lia);
      cbn [result_bind]
  end.
  eexists. reflexivity.
Qed.

(** ** Reasoning about computations *)

Ltac unfold_M :=
  cbv beta iota zeta delta
    [bind ret throw try_catch gets modify lift client_call
     TheClient rejects_writes rejects_init
     getSession closeSession clearAllSessions update_session
     getNativeMessagingEnabled sodium_check
     localStorage_getItem localStorage_setItem localStorage_removeItem
     toISOString_now or_now].

Lemma bind_ok {A B} (m : M A) (k : A -> M B) (w w' : World) (a : A) :
  m w = (Ok a, w') -> bind m k w = k a w'.
Proof. intros Hm. unfold bind. now rewrite Hm. Qed.

Lemma bind_throw {A B} (m : M A) (k : A -> M B) (w w' : World) (e : JsError) :
  m w = (Throw e, w') -> bind m k w = (Throw e, w').
Proof. intros Hm. unfold bind. now rewrite Hm. Qed.

Section SessionChannel.
Context `{Sodium} `{Runtime}.

(** *** C5: replay protection *)

Lemma recordIncomingSeq_eq (w : World) (sessionId : string) (s : Session)
    (seq : JsVal) :
  sessions w !! sessionId = Some s ->
  recordIncomingSeq sessionId seq w
  = match seq with
    | JNum (Finite q) =>
        if Qle_bool q (lastRecvSeq s) then (Throw (Coded REPLAY_DETECTED), w)
        else (Ok tt, set_sessions (alter (with_lastRecvSeq q) sessionId (sessions w)) w)
    | _ => (Throw (Coded INVALID_SEQ), w)
    end.
Proof.
  intros Hs. unfold recordIncomingSeq. unfold_M. rewrite Hs.
  destruct seq as [| | |[q| | |]| | |]; try reflexivity.
  destruct (Qle_bool q (lastRecvSeq s)); reflexivity.
Qed.

Lemma recordIncomingSeq_no_session (w : World) (sessionId : string) (seq : JsVal) :
  sessions w !! sessionId = None ->
  recordIncomingSeq sessionId seq w = (Throw (Coded SESSION_NOT_FOUND), w).
Proof. intros Hs. unfold recordIncomingSeq. unfold_M. now rewrite Hs. Qed.

Lemma accepted_seqs_increasing (seqs : list JsVal) :
  forall (w : World) (sessionId : string) (s : Session),
    sessions w !! sessionId = Some s ->
    Forall (Qlt (lastRecvSeq s)) (accepted_seqs sessionId seqs w)
    /\ StronglySorted Qlt (accepted_seqs sessionId seqs w).
Proof.
  induction seqs as [|v rest IH]; intros w sessionId s Hs; cbn [accepted_seqs].
  - split; constructor.
  - rewrite (recordIncomingSeq_eq w sessionId s v Hs).
    destruct v as [| | |[q| | |]| | |]; try (apply (IH w sessionId s Hs)).
    destruct (Qle_bool q (lastRecvSeq s)) eqn:Hle.
    + apply (IH w sessionId s Hs).
    + assert (Hlt : (lastRecvSeq s < q)%Q).
      { apply Qnot_le_lt. intros Hq. apply Qle_bool_iff in Hq. congruence. }
      destruct (IH (set_sessions (alter (with_lastRecvSeq q) sessionId (sessions w)) w)
                   sessionId (with_lastRecvSeq q s)) as [Hall Hsorted].
      { cbn. rewrite lookup_alter_eq, Hs. reflexivity. }
      cbn [lastRecvSeq with_lastRecvSeq] in Hall.
      split.
      * constructor; [exact Hlt|].
        eapply Forall_impl; [exact Hall|].
        intros a Ha. eapply Qlt_trans; eassumption.
      * constructor; assumption.
Qed.

(** C5 (amended).  For a live session, [recordIncomingSeq] raises
    [InvalidSeq] for every [seq] that is not a finite number; for a finite
    number it raises [ReplayDetected] exactly when [seq <= lastRecvSeq],
    and otherwise -- integer or not -- succeeds and sets [lastRecvSeq] to
    [seq].  Hence the values a session accepts are strictly increasing. *)
Theorem recordIncomingSeq_replay_protection
    (w : World) (sessionId : string) (s : Session) (seq : JsVal)
    (seqs : list JsVal) :
  sessions w !! sessionId = Some s ->
  ((forall q, seq <> JNum (Finite q)) ->
     recordIncomingSeq sessionId seq w = (Throw (Coded INVALID_SEQ), w))
  /\ (forall q, seq = JNum (Finite q) ->
        (recordIncomingSeq sessionId seq w = (Throw (Coded REPLAY_DETECTED), w)
         <-> (q <= lastRecvSeq s)%Q)
        /\ (~ (q <= lastRecvSeq s)%Q ->
            exists w',
              recordIncomingSeq sessionId seq w = (Ok tt, w')
              /\ sessions w' !! sessionId = Some (with_lastRecvSeq q s)))
  /\ StronglySorted Qlt (accepted_seqs sessionId seqs w).
Proof.
  intros Hs. rewrite (recordIncomingSeq_eq w sessionId s seq Hs).
  split; [|split].
  - intros Hnot. destruct seq as [| | |[q| | |]| | |]; try reflexivity.
    now destruct (Hnot q).
  - intros q ->. destruct (Qle_bool q (lastRecvSeq s)) eqn:Hle.
    + apply Qle_bool_iff in Hle. split; [tauto|]. intros Hn. now destruct Hn.
    + assert (Hn : ~ (q <= lastRecvSeq s)%Q).
      { intros Hq. apply Qle_bool_iff in Hq. congruence. }
      split; [split; [discriminate | tauto]|].
      intros _. eexists. split; [reflexivity|].
      cbn. now rewrite lookup_alter_eq, Hs.
  - apply (accepted_seqs_increasing seqs w sessionId s Hs).
Qed.

(** *** C9: what [encryptWithSession] seals, [decryptWithSession] opens *)

Lemma filled_exact (n : nat) (bs : bytes) : List.length bs = n -> filled n bs = bs.
Proof.
  intros <-. unfold filled.
  rewrite firstn_app, firstn_all, Nat.sub_diag. cbn. apply app_nil_r.
Qed.

Lemma filled_length (n : nat) (bs : bytes) : List.length (filled n bs) = n.
Proof.
  unfold filled. rewrite length_firstn, length_app, repeat_length. lia.
Qed.

Lemma draw_length (pos n : nat) : List.length (draw pos n) = n.
Proof. unfold draw. now rewrite length_map, length_seq. Qed.

(** C9.  For every live session and every plaintext: when
    [encryptWithSession] returns [(nonce, ciphertext, seq)], decrypting
    that nonce and ciphertext on the same session returns the plaintext
    (libsodium's secretbox being correct). *)
Theorem decryptWithSession_encryptWithSession
    (w w' : World) (sessionId : string) (plaintext : bytes) (sealed : Sealed) :
  secretbox_opens -> secretbox_length ->
  encryptWithSession sessionId plaintext w = (Ok sealed, w') ->
  decryptWithSession sessionId (fromBase64 (nonceB64 sealed))
    (fromBase64 (ciphertextB64 sealed)) w'
  = (Ok plaintext, w').
Proof.
  intros Hopens Hlen. unfold encryptWithSession, randomBytes, randombytes_buf.
  unfold_M.
  destruct (sessions w !! sessionId) as [s|] eqn:Hs; [|discriminate].
  destruct (Nat.eqb (List.length (key s)) crypto_secretbox_KEYBYTES) eqn:Hkey;
    [|discriminate].
  apply Nat.eqb_eq in Hkey.
  intros Heq.
  match type of Heq with
  | (Ok ?x, ?y) = _ =>
      assert (Hsealed : sealed = x) by congruence;
      assert (Hw' : w' = y) by congruence
  end.
  subst sealed w'. clear Heq. cbn [nonceB64 ciphertextB64].
  unfold decryptWithSession. unfold_M. cbn [sessions set_sessions].
  rewrite lookup_alter_eq. cbn [sessions set_entropy]. rewrite Hs.
  cbn [fmap option_fmap option_map key with_sendSeq].
  rewrite !fromBase64_toBase64.
  rewrite (filled_exact _ _ (Hlen _ _ _)).
  rewrite (Hlen _ _ _), draw_length, Hkey.
  replace (List.length plaintext + crypto_secretbox_MACBYTES
           <? crypto_secretbox_MACBYTES)%nat with false
    by (symmetry; apply Nat.ltb_ge; lia).
  cbn [Nat.eqb crypto_secretbox_NONCEBYTES crypto_secretbox_KEYBYTES andb].
  rewrite Hopens by (auto using draw_length).
  rewrite filled_exact by lia.
  reflexivity.
Qed.

(** *** C3, C4: which failures close the session *)

Lemma nmFinishHandshake_verify_throws
    (sessionId clientSigB64 : string) (session : Session) (clientPubB64 : JsVal)
    (w w' : World) (e : JsError) :
  nmFinishHandshake_verify sessionId clientSigB64 session clientPubB64 w
    = (Throw e, w') ->
  (e = Coded CLIENT_SIGNATURE_INVALID
   /\ w' = set_sessions (delete sessionId (sessions w)) w)
  \/ (validation_error e /\ w' = w).
Proof.
  unfold nmFinishHandshake_verify, Buffer_from_base64, validation_error.
  destruct (truthy clientPubB64);
    [|unfold_M; intros [= <- <-]; auto 6].
  cbn [negb].
  destruct clientPubB64 as [| | | | k | |];
    try (unfold_M; destruct (Buffer_from_value _);
         [|intros [= <- <-]; auto 7]);
    unfold_M;
    repeat match goal with
           | |- context [if ?c then _ else _] => destruct c
           end;
    intros [= <- <-]; auto 7.
Qed.

Lemma decryptWithSession_throws
    (sessionId : string) (nonce ciphertext : bytes) (w w' : World) (e : JsError) :
  decryptWithSession sessionId nonce ciphertext w = (Throw e, w') ->
  w' = w /\ (e = Coded DECRYPT_FAILED -> is_Some (sessions w !! sessionId)).
Proof.
  unfold decryptWithSession. unfold_M.
  destruct (sessions w !! sessionId) as [s|]; [|intros [= <- <-]; split; [auto|discriminate]].
  repeat match goal with
         | |- context [if ?c then _ else _] => destruct c
         | |- context [match crypto_secretbox_open_easy ?a ?b ?c with _ => _ end] =>
             destruct (crypto_secretbox_open_easy a b c)
         end;
    intros [= <- <-]; split; eauto.
Qed.

Lemma recordIncomingSeq_throws
    (sessionId : string) (seq : JsVal) (w w' : World) (e : JsError) :
  recordIncomingSeq sessionId seq w = (Throw e, w') ->
  w' = w /\ (e = Coded REPLAY_DETECTED -> is_Some (sessions w !! sessionId)).
Proof.
  destruct (sessions w !! sessionId) as [s|] eqn:Hs.
  - rewrite (recordIncomingSeq_eq w sessionId s seq Hs).
    destruct seq as [| | |[q| | |]| | |];
      try destruct (Qle_bool q (lastRecvSeq s));
      intros [= <- <-]; split; eauto.
  - rewrite (recordIncomingSeq_no_session w sessionId seq Hs).
    intros [= <- <-]. split; [auto|discriminate].
Qed.

(** C4 (amended).  Of the three cryptographic failures, only the failing
    signature check of the handshake ([PeerSignatureInvalid]) closes the
    session; [DecryptFailed] and [ReplayDetected] change nothing at all,
    so the session is still found afterwards.  None of them touches the
    host identity or the peer pairing record. *)
Theorem cryptographic_failures
    (sessionId : string) (w w' : World) :
  (forall clientSigB64 session clientPubB64,
      nmFinishHandshake_verify sessionId clientSigB64 session clientPubB64 w
        = (Throw (Coded CLIENT_SIGNATURE_INVALID), w') ->
      sessions w' !! sessionId = None /\ same_stores w w')
  /\ (forall nonce ciphertext,
      decryptWithSession sessionId nonce ciphertext w
        = (Throw (Coded DECRYPT_FAILED), w') ->
      is_Some (sessions w' !! sessionId) /\ w' = w)
  /\ (forall seq,
      recordIncomingSeq sessionId seq w = (Throw (Coded REPLAY_DETECTED), w') ->
      is_Some (sessions w' !! sessionId) /\ w' = w).
Proof.
  split; [|split].
  - intros sig s k Hv.
    destruct (nmFinishHandshake_verify_throws _ _ _ _ _ _ _ Hv) as [[_ ->]|[He _]].
    + split; [cbn; apply lookup_delete_eq | repeat split].
    + unfold validation_error in He. intuition discriminate.
  - intros nonce c Hd.
    destruct (decryptWithSession_throws _ _ _ _ _ _ Hd) as [-> Hs]. auto.
  - intros seq Hr.
    destruct (recordIncomingSeq_throws _ _ _ _ _ Hr) as [-> Hs]. auto.
Qed.

End SessionChannel.

(** ** The identity store and the pairing record *)

#[local] Arguments toBase64 : simpl never.
#[local] Arguments fromBase64 : simpl never.
#[local] Arguments draw : simpl never.
#[local] Arguments filled : simpl never.
#[local] Arguments str_truthy : simpl never.
#[local] Arguments getPairingCode : simpl never.
#[local] Arguments getFingerprint : simpl never.
#[local] Arguments subarray : simpl never.

Ltac world_cases w :=
  let status := fresh "status" in
  let locked := fresh "locked" in
  let wraps := fresh "wraps" in
  let entries := fresh "entries" in
  destruct w as [[status locked wraps entries] ? ? ? ? ? ? ? ?].

Section Pairing.
Context `{Sodium} `{Runtime}.

(** [client] is the client whose promises reject for the state of the vault
    only; the statements that hold with every client take one, [c]. *)
Abbreviation client := (Some TheClient).

Lemma load_entry_eq (w : World) (k : string) :
  load_entry client k w = (Ok (stored w k), w).
Proof.
  unfold load_entry, encryptionGet, stored. unfold_M.
  destruct (vault_locked (vault w)); [reflexivity|].
  destruct (vault_wraps (vault w)); cbn;
    destruct (vault_entries (vault w) !! k); reflexivity.
Qed.

Lemma ensureEncryptionInitialized_eq (w : World) :
  ensureEncryptionInitialized client w = (Ok tt, ensured w).
Proof.
  world_cases w.
  unfold ensureEncryptionInitialized, encryptionGetStatus, encryptionInit, ensured.
  unfold_M. destruct status; reflexivity.
Qed.

Lemma pairing_secret_step_eq (w : World) :
  try_catch (getOrCreatePairingSecret client ;; ret tt) (fun _ => ret tt) w
  = (Ok tt, with_secret w).
Proof.
  unfold getOrCreatePairingSecret, with_secret.
  unfold try_catch at 1. unfold bind at 1. unfold bind at 1.
  rewrite load_entry_eq.
  destruct (stored w ENC_KEY_PAIRING_SECRET) as [s|] eqn:Hs.
  - destruct (negb (Nat.eqb (List.length (fromBase64 s)) 32)); reflexivity.
  - unfold stored in Hs. unfold randombytes_buf, encryptionAdd, with_entries.
    unfold_M. cbn [vault set_entropy entropy].
    destruct (vault_locked (vault w)); reflexivity.
Qed.

Lemma generateAndPersistIdentity_eq (w : World) :
  generateAndPersistIdentity client w
  = (Ok (mkIdentity (toBase64 (fst (fresh_ed w))) (toBase64 (fst (fresh_x w)))
           (now w)),
     generated w).
Proof.
  world_cases w.
  unfold generateAndPersistIdentity, generated, crypto_sign_keypair,
    crypto_box_keypair, randombytes_buf, try_persist, encryptionAdd,
    with_entries, fresh_ed, fresh_x.
  unfold_M. cbn. destruct locked; reflexivity.
Qed.

(** [getOrCreateIdentity]: the world moves to [with_secret (ensured w)]
    and the three branches follow from the two key blobs and the
    in-memory identity found there. *)
Lemma getOrCreateIdentity_eq (w : World) :
  getOrCreateIdentity client w
  = let w2 := with_secret (ensured w) in
    match MEMORY_IDENTITY w2, stored w2 ENC_KEY_ED25519, stored w2 ENC_KEY_X25519 with
    | Some m, None, _ | Some m, _, None =>
        (Ok (mkIdentity (toBase64 (ed25519PublicKeyBytes m))
               (toBase64 (x25519PublicKeyBytes m))
               (if str_truthy (mem_creationDate m) then mem_creationDate m
                else now w2)), w2)
    | None, None, _ | None, _, None => generateAndPersistIdentity client w2
    | _, Some edB64, Some xB64 =>
        (Ok (mkIdentity
               (toBase64 (subarray 0 crypto_sign_PUBLICKEYBYTES (fromBase64 edB64)))
               (toBase64 (subarray 0 crypto_box_PUBLICKEYBYTES (fromBase64 xB64)))
               (default (now w2) (stored w2 ENC_KEY_CREATION_DATE))), w2)
    end.
Proof.
  unfold getOrCreateIdentity.
  rewrite (bind_ok _ _ _ _ _ (ensureEncryptionInitialized_eq w)).
  rewrite (bind_ok _ _ _ _ _ (pairing_secret_step_eq (ensured w))).
  set (w2 := with_secret (ensured w)).
  rewrite (bind_ok _ _ _ _ _ (load_entry_eq w2 ENC_KEY_ED25519)).
  rewrite (bind_ok _ _ _ _ _ (load_entry_eq w2 ENC_KEY_X25519)).
  rewrite (bind_ok _ _ _ _ _ (load_entry_eq w2 ENC_KEY_CREATION_DATE)).
  unfold bind at 1. unfold gets at 1. cbv zeta.
  destruct (MEMORY_IDENTITY w2) as [m|], (stored w2 ENC_KEY_ED25519) as [ed|],
    (stored w2 ENC_KEY_X25519) as [x|];
    try reflexivity;
    try (unfold_M; destruct (str_truthy (mem_creationDate m)); reflexivity);
    unfold_M; destruct (stored w2 ENC_KEY_CREATION_DATE); reflexivity.
Qed.

Lemma bind_ret {A} (m : M A) (w : World) : bind m (fun a => ret a) w = m w.
Proof. unfold bind, ret. destruct (m w) as [[a|e] w']; reflexivity. Qed.

Lemma resetIdentity_eq (w : World) :
  resetIdentity client w = getOrCreateIdentity client (cleared w).
Proof.
  unfold resetIdentity.
  change (let* newIdentity := getOrCreateIdentity client in ret newIdentity)
    with (bind (getOrCreateIdentity client) (fun a => ret a)).
  world_cases w.
  unfold clear_entry, encryptionAdd, cleared, with_entries.
  unfold bind at 1 2 3. unfold_M. cbn.
  destruct locked; cbn; apply bind_ret.
Qed.

Lemma untouched_with_secret_ensured (w : World) :
  untouched w (with_secret (ensured w)).
Proof.
  world_cases w. unfold with_secret, ensured, stored, with_entries. cbn.
  destruct status, locked; cbn;
    repeat match goal with
           | |- context [match ?x with _ => _ end] => destruct x
           end; split; reflexivity.
Qed.

Lemma untouched_generated (w : World) : untouched w (generated w).
Proof.
  world_cases w. unfold generated, with_entries. cbn.
  destruct locked; split; reflexivity.
Qed.

Lemma getOrCreateIdentity_total (w : World) :
  exists id w',
    getOrCreateIdentity client w = (Ok id, w') /\ untouched w w'.
Proof.
  rewrite getOrCreateIdentity_eq. cbv zeta.
  pose proof (untouched_with_secret_ensured w) as Hu.
  set (w2 := with_secret (ensured w)) in *.
  assert (Hg : untouched w (generated w2)).
  { destruct Hu, (untouched_generated w2). split; congruence. }
  destruct (MEMORY_IDENTITY w2), (stored w2 ENC_KEY_ED25519),
    (stored w2 ENC_KEY_X25519);
    rewrite ?generateAndPersistIdentity_eq; eauto.
Qed.

(** *** The peer record *)

Lemma getClientData_eq (w : World) :
  getClientData client w = (Ok (client_data w), w).
Proof.
  unfold getClientData, client_data.
  rewrite (bind_ok _ _ _ _ _ (load_entry_eq w ENC_KEY_CLIENT_DATA)).
  destruct (stored w ENC_KEY_CLIENT_DATA) as [text|]; [|reflexivity].
  destruct (JSON_parse text); reflexivity.
Qed.

(** Called without its argument, [getClientIdentityPublicKey] throws on
    the first member access. *)
Lemma getClientIdentityPublicKey_undefined (w : World) :
  getClientIdentityPublicKey None w = (Throw TypeError, w).
Proof. reflexivity. Qed.

Lemma client_data_unlocked (w : World) :
  truthy (opt_prop (client_data w) "publicKey") = true ->
  vault_locked (vault w) = false.
Proof.
  unfold client_data, stored.
  destruct (vault_locked (vault w)); [discriminate | reflexivity].
Qed.

(** The world after a successful [confirmClientPairing]. *)
Lemma confirmClientPairing_eq (w : World) (k : string) :
  confirmClientPairing client k w
  = if negb (truthy (opt_prop (client_data w) "publicKey"))
    then (Throw (Coded NO_PENDING_PAIRING), w)
    else if strict_ne_str (opt_prop (client_data w) "publicKey") k
    then (Throw (Coded CLIENT_KEY_MISMATCH), w)
    else (Ok tt,
          with_entries
            (insert ENC_KEY_CLIENT_DATA
               (JSON_stringify
                  (spread_with (client_data w) "pairingState" (JStr CONFIRMED))))
            (set_localStorage (<[NM_CLIENT_PUBLIC_KEY := k]> (localStorage w)) w)).
Proof.
  unfold confirmClientPairing.
  rewrite (bind_ok _ _ _ _ _ (getClientData_eq w)).
  destruct (truthy (opt_prop (client_data w) "publicKey")) eqn:Ht; [|reflexivity].
  apply client_data_unlocked in Ht.
  cbn [negb].
  destruct (strict_ne_str (opt_prop (client_data w) "publicKey") k); [reflexivity|].
  world_cases w. cbn in Ht. subst locked.
  unfold encryptionAdd, with_entries. unfold_M. reflexivity.
Qed.

Lemma setClientIdentityPublicKey_eq (w : World) (k state : string) :
  setClientIdentityPublicKey client k state w
  = if negb (str_truthy k) then (Throw (Coded MISSING_CLIENT_PUBLIC_KEY), w)
    else if vault_locked (vault w)
    then (Throw (VaultRejected vault_locked_message), w)
    else (Ok tt,
          with_entries
            (insert ENC_KEY_CLIENT_DATA (JSON_stringify (client_record k state))) w).
Proof.
  unfold setClientIdentityPublicKey, encryptionAdd, with_entries. unfold_M.
  destruct (negb (str_truthy k)); [reflexivity|].
  destruct (vault_locked (vault w)); reflexivity.
Qed.

Lemma strict_ne_str_false (v : JsVal) (k : string) :
  strict_ne_str v k = false <-> v = JStr k.
Proof.
  destruct v; cbn; try (split; congruence).
  rewrite negb_false_iff, String.eqb_eq. split; congruence.
Qed.

(** *** C8: when key pairs are generated *)

Lemma same_inputs_with_secret_ensured (w : World) :
  same_identity_inputs w (with_secret (ensured w)).
Proof.
  world_cases w. unfold with_secret, ensured, stored, with_entries. cbn.
  destruct status, locked; cbn;
    repeat match goal with
           | |- context [match entries !! ?k with _ => _ end] =>
               destruct (entries !! k) eqn:?
           | |- context [if ?c then _ else _] => destruct c eqn:?
           end;
    split; cbn; rewrite ?lookup_insert_ne by discriminate; reflexivity.
Qed.

Lemma fresh_ed_length (w : World) :
  List.length (fst (fresh_ed w)) = crypto_sign_PUBLICKEYBYTES.
Proof. apply filled_length. Qed.

Lemma fresh_x_length (w : World) :
  List.length (fst (fresh_x w)) = crypto_box_PUBLICKEYBYTES.
Proof. apply filled_length. Qed.

Lemma blob_truthy_app (pk sk : bytes) :
  List.length pk = 32%nat -> str_truthy (toBase64 (pk ++ sk)) = true.
Proof.
  intros Hpk. apply toBase64_truthy. destruct pk; [discriminate | discriminate].
Qed.

Lemma generated_unlocked (w : World) :
  vault_locked (vault w) = false ->
  stored (generated w) ENC_KEY_ED25519
    = Some (toBase64 (fst (fresh_ed w) ++ snd (fresh_ed w)))
  /\ stored (generated w) ENC_KEY_X25519
    = Some (toBase64 (fst (fresh_x w) ++ snd (fresh_x w)))
  /\ MEMORY_IDENTITY (generated w) = MEMORY_IDENTITY w.
Proof.
  intros Hl.
  pose proof (blob_truthy_app _ (snd (fresh_ed w)) (fresh_ed_length w)) as Hed.
  pose proof (blob_truthy_app _ (snd (fresh_x w)) (fresh_x_length w)) as Hx.
  world_cases w. cbn in Hl. subst locked.
  unfold generated, stored, with_entries. cbn.
  rewrite !lookup_insert_ne by discriminate.
  rewrite lookup_insert_eq.
  rewrite (lookup_insert_ne _ ENC_KEY_CREATION_DATE ENC_KEY_X25519) by discriminate.
  rewrite lookup_insert_eq.
  cbn in Hed, Hx. rewrite Hed, Hx. auto.
Qed.

Lemma generated_locked (w : World) :
  vault_locked (vault w) = true ->
  (forall k, stored (generated w) k = None)
  /\ MEMORY_IDENTITY (generated w)
     = Some (mkMemIdentity (fst (fresh_ed w)) (snd (fresh_ed w))
               (fst (fresh_x w)) (snd (fresh_x w)) (now w)).
Proof.
  intros Hl. world_cases w. cbn in Hl. subst locked.
  unfold generated, stored. cbn. auto.
Qed.

Lemma generated_counters (w : World) :
  signKeypairCalls (generated w) = S (signKeypairCalls w)
  /\ boxKeypairCalls (generated w) = S (boxKeypairCalls w).
Proof.
  world_cases w. unfold generated, with_entries. cbn. destruct locked; auto.
Qed.

Lemma public_part (n : nat) (pk sk : bytes) :
  List.length pk = n ->
  subarray 0 n (fromBase64 (toBase64 (pk ++ sk))) = pk.
Proof.
  intros <-. rewrite fromBase64_toBase64. unfold subarray.
  rewrite Nat.sub_0_r, skipn_O.
  rewrite firstn_app, Nat.sub_diag, firstn_all. cbn [firstn].
  apply app_nil_r.
Qed.

(** How many key pairs one call generates. *)
Lemma getOrCreateIdentity_counters (w : World) :
  let w' := snd (getOrCreateIdentity client w) in
  signKeypairCalls w' = (signKeypairCalls w + if generates w then 1 else 0)%nat
  /\ boxKeypairCalls w' = (boxKeypairCalls w + if generates w then 1 else 0)%nat.
Proof.
  cbv zeta. rewrite getOrCreateIdentity_eq. cbv zeta.
  destruct (same_inputs_with_secret_ensured w) as [Hm Hed Hx Hs Hb].
  set (w2 := with_secret (ensured w)) in *.
  unfold generates, blobs_missing. rewrite Hm, Hed, Hx.
  destruct (generated_counters w2) as [Hgs Hgb].
  destruct (MEMORY_IDENTITY w), (stored w ENC_KEY_ED25519), (stored w ENC_KEY_X25519);
    rewrite ?generateAndPersistIdentity_eq; cbn [snd andb];
    rewrite ?Hgs, ?Hgb, Hs, Hb; lia.
Qed.

(** A second call finds what the first one left and generates nothing. *)
Lemma getOrCreateIdentity_again (w w' : World) (id : Identity) :
  getOrCreateIdentity client w = (Ok id, w') ->
  exists id2 w'',
    getOrCreateIdentity client w' = (Ok id2, w'')
    /\ ed25519PublicKey id2 = ed25519PublicKey id
    /\ x25519PublicKey id2 = x25519PublicKey id
    /\ signKeypairCalls w'' = signKeypairCalls w'
    /\ boxKeypairCalls w'' = boxKeypairCalls w'.
Proof.
  rewrite getOrCreateIdentity_eq. cbv zeta.
  set (w2 := with_secret (ensured w)).
  assert (Hstay :
    forall u id0,
      generates u = false ->
      (match MEMORY_IDENTITY u, stored u ENC_KEY_ED25519, stored u ENC_KEY_X25519 with
       | Some m, None, _ | Some m, _, None =>
           ed25519PublicKey id0 = toBase64 (ed25519PublicKeyBytes m)
           /\ x25519PublicKey id0 = toBase64 (x25519PublicKeyBytes m)
       | None, None, _ | None, _, None => False
       | _, Some edB64, Some xB64 =>
           ed25519PublicKey id0
             = toBase64 (subarray 0 crypto_sign_PUBLICKEYBYTES (fromBase64 edB64))
           /\ x25519PublicKey id0
             = toBase64 (subarray 0 crypto_box_PUBLICKEYBYTES (fromBase64 xB64))
       end) ->
      exists id2 w'',
        getOrCreateIdentity client u = (Ok id2, w'')
        /\ ed25519PublicKey id2 = ed25519PublicKey id0
        /\ x25519PublicKey id2 = x25519PublicKey id0
        /\ signKeypairCalls w'' = signKeypairCalls u
        /\ boxKeypairCalls w'' = boxKeypairCalls u).
  { intros u id0 Hgen Hid.
    pose proof (getOrCreateIdentity_counters u) as Hc. cbv zeta in Hc.
    rewrite Hgen, !Nat.add_0_r in Hc.
    revert Hc. rewrite getOrCreateIdentity_eq. cbv zeta.
    destruct (same_inputs_with_secret_ensured u) as [Hm Hed Hx _ _].
    rewrite Hm, Hed, Hx.
    unfold generates, blobs_missing in Hgen.
    destruct (MEMORY_IDENTITY u), (stored u ENC_KEY_ED25519),
      (stored u ENC_KEY_X25519); try discriminate Hgen; try contradiction;
      cbn [snd]; intros [Hs Hb]; destruct Hid as [-> ->];
      eexists _, _; repeat split; eauto. }
  destruct (MEMORY_IDENTITY w2) as [m|] eqn:Hm,
    (stored w2 ENC_KEY_ED25519) as [ed|] eqn:Hed,
    (stored w2 ENC_KEY_X25519) as [x|] eqn:Hx;
    try (intros [= <- <-]; apply Hstay;
         [unfold generates, blobs_missing; rewrite Hm, ?Hed, ?Hx; reflexivity
         |rewrite Hm, ?Hed, ?Hx; auto]).
  all: rewrite generateAndPersistIdentity_eq; intros [= <- <-]; apply Hstay.
  all: destruct (vault_locked (vault w2)) eqn:Hl;
    [destruct (generated_locked w2 Hl) as [Hnone Hmem];
     unfold generates, blobs_missing; rewrite Hmem, !Hnone; cbn; auto
    |destruct (generated_unlocked w2 Hl) as (Hged & Hgx & Hgm);
     unfold generates, blobs_missing; rewrite Hged, Hgx, ?Hgm, ?Hm; cbn;
     rewrite ?public_part by (apply filled_length); auto].
Qed.

(** C8 (amended).  [getOrCreateIdentity] generates fresh Ed25519 and
    X25519 key pairs if and only if the Ed25519 blob or the X25519 blob
    cannot be loaded from the store and no identity is cached in memory;
    a missing creation date or pairing secret does not make it generate.
    Consequently two consecutive calls on the same store return the same
    public keys and the second call generates no key pair. *)
Theorem getOrCreateIdentity_generation (w : World) :
  let first := getOrCreateIdentity client w in
  let second := getOrCreateIdentity client (snd first) in
  signKeypairCalls (snd first)
    = (signKeypairCalls w + if generates w then 1 else 0)%nat
  /\ boxKeypairCalls (snd first)
    = (boxKeypairCalls w + if generates w then 1 else 0)%nat
  /\ exists id1 id2,
      fst first = Ok id1 /\ fst second = Ok id2
      /\ ed25519PublicKey id2 = ed25519PublicKey id1
      /\ x25519PublicKey id2 = x25519PublicKey id1
      /\ signKeypairCalls (snd second) = signKeypairCalls (snd first)
      /\ boxKeypairCalls (snd second) = boxKeypairCalls (snd first).
Proof.
  cbv zeta.
  destruct (getOrCreateIdentity_counters w) as [Hs Hb].
  split; [exact Hs | split; [exact Hb|]].
  destruct (getOrCreateIdentity_total w) as (id1 & w1 & H1 & _).
  destruct (getOrCreateIdentity_again w w1 id1 H1)
    as (id2 & w2 & H2 & Hed & Hx & Hcs & Hcb).
  rewrite H1. cbn [fst snd]. rewrite H2. cbn [fst snd].
  exists id1, id2. auto 10.
Qed.

(** *** Clients whose promises reject *)

(** The reads do not depend on the client. *)
Lemma load_entry_any (c : ClientRef) (w : World) (k : string) :
  load_entry (Some c) k w = (Ok (stored w k), w).
Proof.
  unfold load_entry, encryptionGet, stored. unfold_M.
  destruct (vault_locked (vault w)); [reflexivity|].
  destruct (vault_wraps (vault w)); cbn;
    destruct (vault_entries (vault w) !! k); reflexivity.
Qed.

Lemma getClientData_any (c : ClientRef) (w : World) :
  getClientData (Some c) w = (Ok (client_data w), w).
Proof.
  unfold getClientData, client_data.
  rewrite (bind_ok _ _ _ _ _ (load_entry_any c w ENC_KEY_CLIENT_DATA)).
  destruct (stored w ENC_KEY_CLIENT_DATA) as [text|]; [|reflexivity].
  destruct (JSON_parse text); reflexivity.
Qed.

(** [confirmClientPairing] with any client: the slot is written before the
    record, and the write of the record is where a client can still
    reject. *)
Lemma confirmClientPairing_any (c : ClientRef) (w : World) (k : string) :
  confirmClientPairing (Some c) k w
  = if negb (truthy (opt_prop (client_data w) "publicKey"))
    then (Throw (Coded NO_PENDING_PAIRING), w)
    else if strict_ne_str (opt_prop (client_data w) "publicKey") k
    then (Throw (Coded CLIENT_KEY_MISMATCH), w)
    else if rejects_writes c
    then (Throw (VaultRejected vault_locked_message),
          set_localStorage (<[NM_CLIENT_PUBLIC_KEY := k]> (localStorage w)) w)
    else (Ok tt,
          with_entries
            (insert ENC_KEY_CLIENT_DATA
               (JSON_stringify
                  (spread_with (client_data w) "pairingState" (JStr CONFIRMED))))
            (set_localStorage (<[NM_CLIENT_PUBLIC_KEY := k]> (localStorage w)) w)).
Proof.
  unfold confirmClientPairing.
  rewrite (bind_ok _ _ _ _ _ (getClientData_any c w)).
  destruct (truthy (opt_prop (client_data w) "publicKey")) eqn:Ht; [|reflexivity].
  apply client_data_unlocked in Ht.
  cbn [negb].
  destruct (strict_ne_str (opt_prop (client_data w) "publicKey") k); [reflexivity|].
  destruct c as [rw ri]. world_cases w. cbn in Ht. subst locked.
  unfold encryptionAdd, with_entries. unfold_M. cbn [rejects_writes].
  destruct rw; reflexivity.
Qed.

Lemma setClientIdentityPublicKey_any (c : ClientRef) (w : World) (k state : string) :
  setClientIdentityPublicKey (Some c) k state w
  = if negb (str_truthy k) then (Throw (Coded MISSING_CLIENT_PUBLIC_KEY), w)
    else if rejects_writes c || vault_locked (vault w)
    then (Throw (VaultRejected vault_locked_message), w)
    else (Ok tt,
          with_entries
            (insert ENC_KEY_CLIENT_DATA (JSON_stringify (client_record k state))) w).
Proof.
  destruct c as [rw ri].
  unfold setClientIdentityPublicKey, encryptionAdd, with_entries. unfold_M.
  cbn [rejects_writes].
  destruct (negb (str_truthy k)); [reflexivity|].
  destruct rw; [reflexivity|].
  destruct (vault_locked (vault w)); reflexivity.
Qed.

Lemma stored_same (w w' : World) (k : string) :
  vault_locked (vault w') = vault_locked (vault w) ->
  vault_entries (vault w') !! k = vault_entries (vault w) !! k ->
  stored w' k = stored w k.
Proof. intros Hl He. unfold stored. now rewrite Hl, He. Qed.

Lemma undisturbed_refl (w : World) : undisturbed w w.
Proof. repeat split. Qed.

Lemma undisturbed_trans (w1 w2 w3 : World) :
  undisturbed w1 w2 -> undisturbed w2 w3 -> undisturbed w1 w3.
Proof.
  intros [[Hl1 Hs1 Hf1 Hk1] Hr1 Hp1] [[Hl2 Hs2 Hf2 Hk2] Hr2 Hp2].
  split; [split; congruence | congruence|].
  intros Hsome. rewrite Hp2, Hp1; [reflexivity | exact Hsome|].
  rewrite (stored_same w1 w2 _ Hk1 (Hp1 Hsome)). exact Hsome.
Qed.

Lemma ensureEncryptionInitialized_any (c : ClientRef) (w : World) :
  exists w', ensureEncryptionInitialized (Some c) w = (Ok tt, w') /\ undisturbed w w'.
Proof.
  destruct c as [rw ri]. world_cases w.
  unfold ensureEncryptionInitialized, encryptionGetStatus, encryptionInit.
  unfold_M. cbn [rejects_init]. destruct ri, status; cbn;
    eexists; (split; [reflexivity|]); repeat split.
Qed.

Lemma pairing_secret_step_any (c : ClientRef) (w : World) :
  exists w',
    try_catch (getOrCreatePairingSecret (Some c) ;; ret tt) (fun _ => ret tt) w
    = (Ok tt, w')
    /\ undisturbed w w'.
Proof.
  unfold getOrCreatePairingSecret.
  unfold try_catch at 1. unfold bind at 1. unfold bind at 1.
  rewrite load_entry_any.
  destruct (stored w ENC_KEY_PAIRING_SECRET) as [s|] eqn:Hs.
  - destruct (negb (Nat.eqb (List.length (fromBase64 s)) 32));
      eexists; (split; [reflexivity | apply undisturbed_refl]).
  - destruct c as [[|] ri];
      unfold randombytes_buf, encryptionAdd; unfold_M;
      cbn [vault set_entropy entropy].
    + eexists; split; [reflexivity|].
      split; [repeat split | reflexivity | reflexivity].
    + destruct (vault_locked (vault w)) eqn:Hl;
        (eexists; split; [reflexivity|]).
      * split; [repeat split | reflexivity | reflexivity].
      * split; [repeat split; cbn; auto | |].
        -- cbn. rewrite lookup_insert_ne by discriminate. reflexivity.
        -- intros Hsome. now rewrite Hs in Hsome.
Qed.

Lemma generateAndPersistIdentity_any (c : ClientRef) (w : World) :
  exists id w',
    generateAndPersistIdentity (Some c) w = (Ok id, w') /\ undisturbed w w'.
Proof.
  destruct c as [rw ri]. world_cases w.
  unfold generateAndPersistIdentity, crypto_sign_keypair, crypto_box_keypair,
    randombytes_buf, try_persist, encryptionAdd.
  unfold_M. cbn. destruct rw, locked; cbn;
    eexists _, _; (split; [reflexivity|]);
    (split; [repeat split | |]); cbn;
    rewrite ?lookup_insert_ne by discriminate; reflexivity.
Qed.

(** [getOrCreateIdentity] with any client. *)
Lemma getOrCreateIdentity_any (c : ClientRef) (w : World) :
  exists id w',
    getOrCreateIdentity (Some c) w = (Ok id, w') /\ undisturbed w w'.
Proof.
  unfold getOrCreateIdentity.
  destruct (ensureEncryptionInitialized_any c w) as (w1 & H1 & U1).
  rewrite (bind_ok _ _ _ _ _ H1).
  destruct (pairing_secret_step_any c w1) as (w2 & H2 & U2).
  rewrite (bind_ok _ _ _ _ _ H2).
  pose proof (undisturbed_trans _ _ _ U1 U2) as U.
  rewrite (bind_ok _ _ _ _ _ (load_entry_any c w2 ENC_KEY_ED25519)).
  rewrite (bind_ok _ _ _ _ _ (load_entry_any c w2 ENC_KEY_X25519)).
  rewrite (bind_ok _ _ _ _ _ (load_entry_any c w2 ENC_KEY_CREATION_DATE)).
  unfold bind at 1. unfold gets at 1. cbv zeta.
  destruct (generateAndPersistIdentity_any c w2) as (idg & wg & Hg & Ug).
  pose proof (undisturbed_trans _ _ _ U Ug) as Ugen.
  destruct (MEMORY_IDENTITY w2) as [m|], (stored w2 ENC_KEY_ED25519) as [ed|],
    (stored w2 ENC_KEY_X25519) as [x|];
    try (rewrite Hg; eauto);
    try (unfold_M; destruct (str_truthy (mem_creationDate m)); eauto);
    unfold_M; destruct (stored w2 ENC_KEY_CREATION_DATE); eauto.
Qed.

(** [resetIdentity] with any client: the sessions and the slot are emptied
    whatever the vault does with the writes. *)
Lemma resetIdentity_any (c : ClientRef) (w : World) :
  exists id w',
    resetIdentity (Some c) w = (Ok id, w')
    /\ sessions w' = ∅ /\ cache w' = None.
Proof.
  assert (Hstep : exists u,
    resetIdentity (Some c) w = getOrCreateIdentity (Some c) u
    /\ sessions u = ∅ /\ cache u = None).
  { unfold resetIdentity.
    change (let* newIdentity := getOrCreateIdentity (Some c) in ret newIdentity)
      with (bind (getOrCreateIdentity (Some c)) (fun a => ret a)).
    destruct c as [rw ri]. world_cases w.
    unfold clear_entry, encryptionAdd, cache.
    unfold bind at 1 2 3. unfold_M. cbn.
    destruct rw, locked; cbn; eexists;
      (split; [apply bind_ret|]); cbn; rewrite lookup_delete_eq; auto. }
  destruct Hstep as (u & -> & Hs & Hc).
  destruct (getOrCreateIdentity_any c u) as (id & w' & Hid & [[Hl Hss _ _] _ _]).
  exists id, w'. split; [exact Hid|].
  unfold cache in *. split; congruence.
Qed.

(** *** C10: what [confirmClientPairing] looks at *)

(** C10 (amended).  [confirmClientPairing] never inspects the stored
    [pairingState].  It decides on the [publicKey] of the peer record as
    [getClientData] reads it -- null when the vault holds no record, when
    the record does not parse or has no key, and when the vault rejects
    the read: it raises [NoPendingPairing] exactly when that key is
    missing and [ClientKeyMismatch] exactly when that key differs from the
    argument.  Otherwise it writes the argument into the cache slot and
    then the record back with [pairingState] CONFIRMED -- whatever
    [pairingState] the record had, CONFIRMED or none at all included -- and
    succeeds exactly when the client accepts that write: when the write is
    rejected the call fails with the client's error, the slot already
    written and the vault as it was. *)
Theorem confirmClientPairing_outcome (c : ClientRef) (w : World) (k : string) :
  let publicKey := opt_prop (client_data w) "publicKey" in
  let outcome := confirmClientPairing (Some c) k w in
  (fst outcome = Throw (Coded NO_PENDING_PAIRING) <-> truthy publicKey = false)
  /\ (fst outcome = Throw (Coded CLIENT_KEY_MISMATCH)
      <-> truthy publicKey = true /\ publicKey <> JStr k)
  /\ (fst outcome = Ok tt
      <-> truthy publicKey = true /\ publicKey = JStr k /\ rejects_writes c = false)
  /\ (fst outcome = Throw (VaultRejected vault_locked_message)
      <-> truthy publicKey = true /\ publicKey = JStr k /\ rejects_writes c = true)
  /\ (truthy publicKey = true -> publicKey = JStr k ->
      cache (snd outcome) = Some k)
  /\ (fst outcome = Ok tt ->
      stored (snd outcome) ENC_KEY_CLIENT_DATA
      = (let text := JSON_stringify
                       (spread_with (client_data w) "pairingState" (JStr CONFIRMED)) in
         if str_truthy text then Some text else None))
  /\ (fst outcome <> Ok tt -> vault (snd outcome) = vault w)
  /\ (forall w2 : World,
        opt_prop (client_data w2) "publicKey" = publicKey ->
        fst (confirmClientPairing (Some c) k w2) = fst outcome)
  /\ (vault_locked (vault w) = true ->
      fst outcome = Throw (Coded NO_PENDING_PAIRING)).
Proof.
  cbv zeta.
  assert (Hdep : forall u,
    fst (confirmClientPairing (Some c) k u)
    = if negb (truthy (opt_prop (client_data u) "publicKey"))
      then Throw (Coded NO_PENDING_PAIRING)
      else if strict_ne_str (opt_prop (client_data u) "publicKey") k
      then Throw (Coded CLIENT_KEY_MISMATCH)
      else if rejects_writes c then Throw (VaultRejected vault_locked_message)
      else Ok tt).
  { intros u. rewrite confirmClientPairing_any.
    destruct (negb _); [reflexivity|]. destruct (strict_ne_str _ _); [reflexivity|].
    destruct (rejects_writes c); reflexivity. }
  pose proof (strict_ne_str_false (opt_prop (client_data w) "publicKey") k) as Hne.
  assert (Hcases :
    (truthy (opt_prop (client_data w) "publicKey") = false)
    \/ (truthy (opt_prop (client_data w) "publicKey") = true
        /\ strict_ne_str (opt_prop (client_data w) "publicKey") k = true
        /\ opt_prop (client_data w) "publicKey" <> JStr k)
    \/ (truthy (opt_prop (client_data w) "publicKey") = true
        /\ strict_ne_str (opt_prop (client_data w) "publicKey") k = false
        /\ opt_prop (client_data w) "publicKey" = JStr k)).
  { destruct (truthy _); [|auto].
    destruct (strict_ne_str _ _) eqn:Hs; [right; left | right; right].
    - repeat split. intros Heq. apply Hne in Heq. congruence.
    - repeat split. now apply Hne. }
  split; [|split; [|split; [|split; [|split; [|split; [|split; [|split]]]]]]].
  - rewrite Hdep.
    destruct Hcases as [Ht|[(Ht & Hs & Hk)|(Ht & Hs & Hk)]]; rewrite Ht; cbn [negb];
      rewrite ?Hs; try destruct (rejects_writes c); split; congruence.
  - rewrite Hdep.
    destruct Hcases as [Ht|[(Ht & Hs & Hk)|(Ht & Hs & Hk)]]; rewrite Ht; cbn [negb];
      rewrite ?Hs; try destruct (rejects_writes c);
      (split; [try discriminate; auto | try reflexivity; intros [? ?]; congruence]).
  - rewrite Hdep.
    destruct Hcases as [Ht|[(Ht & Hs & Hk)|(Ht & Hs & Hk)]]; rewrite Ht; cbn [negb];
      rewrite ?Hs; try destruct (rejects_writes c);
      (split; [try discriminate; auto | try reflexivity; intros (? & ? & ?); congruence]).
  - rewrite Hdep.
    destruct Hcases as [Ht|[(Ht & Hs & Hk)|(Ht & Hs & Hk)]]; rewrite Ht; cbn [negb];
      rewrite ?Hs; try destruct (rejects_writes c);
      (split; [try discriminate; auto | try reflexivity; intros (? & ? & ?); congruence]).
  - intros Ht Hk. rewrite confirmClientPairing_any, Ht. cbn [negb].
    apply Hne in Hk. rewrite Hk.
    destruct (rejects_writes c); unfold cache; cbn; apply lookup_insert_eq.
  - rewrite confirmClientPairing_any.
    destruct (truthy (opt_prop (client_data w) "publicKey")) eqn:Ht;
      cbn [negb]; [|discriminate].
    apply client_data_unlocked in Ht.
    destruct (strict_ne_str _ _); [discriminate|].
    destruct (rejects_writes c); [discriminate|]. intros _.
    world_cases w. cbn in Ht. subst locked.
    unfold stored, with_entries. cbn.
    rewrite !lookup_insert_eq. reflexivity.
  - rewrite confirmClientPairing_any.
    destruct (negb _); [reflexivity|]. destruct (strict_ne_str _ _); [reflexivity|].
    destruct (rejects_writes c); [reflexivity|]. intros Hno. now destruct Hno.
  - intros w2 Hpk. rewrite !Hdep, Hpk. reflexivity.
  - intros Hl. rewrite Hdep.
    destruct (truthy (opt_prop (client_data w) "publicKey")) eqn:Ht; [|reflexivity].
    apply client_data_unlocked in Ht. congruence.
Qed.

(** *** C7: who writes the cache slot *)

Lemma pin_keeps_cache (c : ClientRef) (w : World) (k state : string) :
  cache (snd (setClientIdentityPublicKey (Some c) k state w)) = cache w.
Proof.
  rewrite setClientIdentityPublicKey_any.
  destruct (negb _); [reflexivity|].
  destruct (_ || _); reflexivity.
Qed.

(** A confirmation either stops before the slot, changing nothing, or finds
    its key in the record read and writes it into the slot. *)
Lemma confirm_cache (c : ClientRef) (w : World) (k : string) :
  (opt_prop (client_data w) "publicKey" = JStr k
   /\ cache (snd (confirmClientPairing (Some c) k w)) = Some k
   /\ (fst (confirmClientPairing (Some c) k w) = Ok tt <-> rejects_writes c = false))
  \/ (fst (confirmClientPairing (Some c) k w) <> Ok tt
      /\ snd (confirmClientPairing (Some c) k w) = w).
Proof.
  rewrite confirmClientPairing_any.
  destruct (negb _); [right; split; [discriminate | reflexivity]|].
  destruct (strict_ne_str _ _) eqn:Hs; [right; split; [discriminate | reflexivity]|].
  left. split; [now apply strict_ne_str_false|].
  destruct (rejects_writes c); (split; [unfold cache; cbn; apply lookup_insert_eq|]);
    cbn [fst]; split; congruence.
Qed.

Lemma reset_empties_cache (c : ClientRef) (w : World) :
  cache (snd (pairing_step c ResetIdentity w)) = None.
Proof.
  cbn [pairing_step]. unfold bind at 1.
  destruct (resetIdentity_any c w) as (id & w' & -> & _ & Hc). exact Hc.
Qed.

Lemma unconfirmed_cache_empty (c : ClientRef) (ops : list PairingOp) :
  forall (w : World) (before : bool),
    (before = false -> cache w = None) ->
    confirmed_since_reset ops before = false ->
    cache (run_ops c ops w) = None.
Proof.
  unfold run_ops, confirmed_since_reset.
  induction ops as [|op ops IH]; intros w before Hw Hops; cbn [fold_left] in *.
  - auto.
  - eapply IH; [|exact Hops].
    destruct op as [k state|k|].
    + cbn [pairing_step]. intros Hb. rewrite pin_keeps_cache. auto.
    + discriminate.
    + intros _. apply reset_empties_cache.
Qed.

(** C7 (amended).  The cache slot is written by [confirmClientPairing]
    alone and emptied by [resetIdentity] alone, with every client.  A
    confirmation of [K] writes [K] into the slot as soon as the record it
    reads holds the key [K] -- before its write to the vault and whether or
    not the client accepts that write: it succeeds exactly when the write is
    accepted, and when the write is rejected it fails with the slot filled
    and the record as it was (PENDING, after a first pin).  A reset empties
    the slot; pinning a peer ([setClientIdentityPublicKey]) never touches
    it.  So from an empty slot the slot stays empty until a confirmation is
    attempted -- a first pairing that is PENDING and has seen no
    confirmation has nothing in the cache.  (Nothing is promised for a
    record pinned again after a confirmation: the slot then still holds the
    confirmed key.) *)
Theorem cache_slot_lifecycle (c : ClientRef) :
  (forall (op : PairingOp) (w : World),
      cache (snd (pairing_step c op w)) <> cache w ->
      (exists k, op = ConfirmPeer k
                 /\ opt_prop (client_data w) "publicKey" = JStr k
                 /\ cache (snd (pairing_step c op w)) = Some k)
      \/ (op = ResetIdentity /\ cache (snd (pairing_step c op w)) = None))
  /\ (forall (k : string) (w : World),
      opt_prop (client_data w) "publicKey" = JStr k -> str_truthy k = true ->
      cache (snd (pairing_step c (ConfirmPeer k) w)) = Some k
      /\ (fst (pairing_step c (ConfirmPeer k) w) = Ok tt <-> rejects_writes c = false)
      /\ (rejects_writes c = true ->
          fst (pairing_step c (ConfirmPeer k) w)
          = Throw (VaultRejected vault_locked_message)
          /\ client_data (snd (pairing_step c (ConfirmPeer k) w)) = client_data w))
  /\ (forall (k : string) (w : World),
      fst (pairing_step c (ConfirmPeer k) w) = Ok tt ->
      cache (snd (pairing_step c (ConfirmPeer k) w)) = Some k)
  /\ (forall w : World, cache (snd (pairing_step c ResetIdentity w)) = None)
  /\ (forall (ops : list PairingOp) (w : World),
      cache w = None ->
      confirmed_since_reset ops false = false ->
      cache (run_ops c ops w) = None).
Proof.
  split; [|split; [|split; [|split]]].
  - intros [k state|k|] w Hchanged.
    + cbn [pairing_step] in Hchanged. now rewrite pin_keeps_cache in Hchanged.
    + left. exists k. cbn [pairing_step] in *.
      destruct (confirm_cache c w k) as [(Hk & Hc & _)|[_ Hsame]]; [auto|].
      now rewrite Hsame in Hchanged.
    + right. split; [reflexivity | apply reset_empties_cache].
  - intros k w Hk Ht. cbn [pairing_step].
    rewrite confirmClientPairing_any, Hk. cbn [truthy strict_ne_str].
    rewrite Ht, String.eqb_refl. cbn [negb].
    destruct (rejects_writes c).
    + split; [unfold cache; cbn; apply lookup_insert_eq|].
      split; [split; discriminate|]. intros _. split; reflexivity.
    + split; [unfold cache; cbn; apply lookup_insert_eq|].
      split; [split; reflexivity | discriminate].
  - intros k w Hok. cbn [pairing_step] in *.
    destruct (confirm_cache c w k) as [(_ & Hc & _)|[Hno _]];
      [exact Hc | contradiction].
  - apply reset_empties_cache.
  - intros ops w Hw Hops. apply (unconfirmed_cache_empty c ops w false); auto.
Qed.

(** ** The facade *)

(** *** C2: [nmGetAppIdentity] *)

(** Once the token has been verified, [nmGetAppIdentity] loads the pinned
    key without passing the client, and that load throws: the handler
    neither answers [PeerAlreadyPaired] nor pins the peer. *)
Lemma nmGetAppIdentity_verified_token
    (w w1 w2 : World) (token peer : string) (id : Identity) :
  str_truthy token = true -> str_truthy peer = true ->
  getOrCreateIdentity client w = (Ok id, w1) ->
  verifyPairingToken client (ed25519PublicKey id) token w1 = (Ok true, w2) ->
  nmGetAppIdentity client (Some token) (Some peer) w = (Throw TypeError, w2).
Proof.
  intros Ht Hp Hid Hv. unfold nmGetAppIdentity, param_falsy, param_text.
  rewrite Ht, Hp. cbn [negb default].
  rewrite (bind_ok _ _ _ _ _ Hid), (bind_ok _ _ _ _ _ Hv).
  reflexivity.
Qed.


(** *** C6: the native-messaging flag *)

Lemma nmFinishHandshake_outcomes (sessionId clientSigB64 : option string)
    (w : World) :
  nmFinishHandshake sessionId clientSigB64 w
  = if param_falsy sessionId then (Throw (Coded MISSING_SESSION_ID), w)
    else if param_falsy clientSigB64
    then (Throw (Coded MISSING_CLIENT_SIGNATURE), w)
    else match sessions w !! param_text sessionId with
         | None => (Throw (Coded SESSION_NOT_FOUND), w)
         | Some session =>
             if clientVerified session then (Ok ok_true, w)
             else (Throw TypeError, w)
         end.
Proof.
  unfold nmFinishHandshake.
  destruct (param_falsy sessionId); [reflexivity|].
  destruct (param_falsy clientSigB64); [reflexivity|].
  unfold_M.
  destruct (sessions w !! param_text sessionId) as [s|]; [|reflexivity].
  destruct (clientVerified s); reflexivity.
Qed.

(** *** What a reset leaves *)

Lemma cleared_stored (w : World) :
  stored (cleared w) ENC_KEY_ED25519 = None
  /\ stored (cleared w) ENC_KEY_X25519 = None
  /\ stored (cleared w) ENC_KEY_CLIENT_DATA = None
  /\ stored (cleared w) ENC_KEY_PAIRING_SECRET = None
  /\ MEMORY_IDENTITY (cleared w) = None.
Proof.
  world_cases w. unfold cleared, stored, with_entries. cbn.
  destruct locked; cbn; [auto 10|].
  rewrite lookup_insert_eq.
  rewrite !(lookup_insert_ne _ ENC_KEY_PAIRING_SECRET) by discriminate.
  rewrite lookup_insert_eq.
  rewrite !(lookup_insert_ne _ ENC_KEY_CLIENT_DATA) by discriminate.
  rewrite !(lookup_insert_ne _ ENC_KEY_CREATION_DATE) by discriminate.
  rewrite !lookup_insert_eq.
  rewrite !(lookup_insert_ne _ ENC_KEY_X25519) by discriminate.
  rewrite lookup_insert_eq.
  auto 10.
Qed.

Lemma cleared_frame (w : World) :
  sessions (cleared w) = ∅
  /\ cache (cleared w) = None
  /\ signKeypairCalls (cleared w) = signKeypairCalls w
  /\ boxKeypairCalls (cleared w) = boxKeypairCalls w
  /\ vault_locked (vault (cleared w)) = vault_locked (vault w).
Proof.
  world_cases w. unfold cleared, cache, with_entries. cbn.
  destruct locked; cbn; rewrite lookup_delete_eq; auto 10.
Qed.

(** The outcome of [resetIdentity]: a new identity, drawn in the world
    the clearing left. *)
Lemma resetIdentity_outcome (w : World) :
  let w2 := with_secret (ensured (cleared w)) in
  resetIdentity client w
  = (Ok (mkIdentity (toBase64 (fst (fresh_ed w2))) (toBase64 (fst (fresh_x w2)))
           (now w2)),
     generated w2).
Proof.
  cbv zeta. rewrite resetIdentity_eq, getOrCreateIdentity_eq. cbv zeta.
  destruct (same_inputs_with_secret_ensured (cleared w)) as [Hm Hed Hx _ _].
  destruct (cleared_stored w) as (Hed0 & _ & _ & _ & Hm0).
  rewrite Hm, Hed, Hm0, Hed0. apply generateAndPersistIdentity_eq.
Qed.



End Pairing.

(** * Further properties of the code *)

(** ** The texts the code prints *)

Lemma compress_length (h block : list N) :
  List.length (SHA256.compress h block) = 8%nat.
Proof. reflexivity. Qed.

Lemma sha256_length (msg : bytes) : List.length (crypto_hash_sha256 msg) = 32%nat.
Proof.
  unfold crypto_hash_sha256, SHA256.hash.
  set (blocks := SHA256.blocks _ _).
  assert (Hh : List.length (fold_left SHA256.compress blocks SHA256.H0) = 8%nat).
  { generalize SHA256.H0 (eq_refl : List.length SHA256.H0 = 8%nat).
    induction blocks as [|b blocks IH]; intros h Hh; cbn [fold_left]; [exact Hh|].
    apply IH, compress_length. }
  destruct (fold_left SHA256.compress blocks SHA256.H0)
    as [|a [|b [|c [|d [|e [|f [|g [|h [|]]]]]]]]]; try discriminate Hh.
  reflexivity.
Qed.

Lemma nibble_chars (x : N) :
  x < 256 ->
  is_lower_hex (nth_char hex_lower (x / 16)) = true
  /\ is_lower_hex (nth_char hex_lower (x mod 16)) = true
  /\ is_upper_hex (upper_char (nth_char hex_lower (x / 16))) = true
  /\ is_upper_hex (upper_char (nth_char hex_lower (x mod 16))) = true.
Proof.
  intros Hx.
  pose (P := fun x => is_lower_hex (nth_char hex_lower (x / 16))
                      && is_lower_hex (nth_char hex_lower (x mod 16))
                      && is_upper_hex (upper_char (nth_char hex_lower (x / 16)))
                      && is_upper_hex (upper_char (nth_char hex_lower (x mod 16)))).
  assert (HP : P x = true).
  { apply (forall_below P 256); [vm_compute; reflexivity | exact Hx]. }
  unfold P in HP. rewrite !andb_true_iff in HP. tauto.
Qed.

Lemma toHex_lower (bs : bytes) :
  all_chars is_lower_hex (toHex bs) = true
  /\ String.length (toHex bs) = (2 * List.length bs)%nat.
Proof.
  induction bs as [|b bs [IHc IHl]]; [split; reflexivity|].
  pose proof (Byte.to_N_bounded b) as Hb.
  destruct (nibble_chars (Byte.to_N b)) as (H1 & H2 & _); [lia|].
  cbn [toHex all_chars String.length List.length]. rewrite H1, H2, IHc, IHl.
  split; [reflexivity | lia].
Qed.

Lemma toHex_upper (bs : bytes) :
  all_chars is_upper_hex (toUpperCase_ascii (toHex bs)) = true
  /\ String.length (toUpperCase_ascii (toHex bs)) = (2 * List.length bs)%nat.
Proof.
  induction bs as [|b bs [IHc IHl]]; [split; reflexivity|].
  pose proof (Byte.to_N_bounded b) as Hb.
  destruct (nibble_chars (Byte.to_N b)) as (_ & _ & H1 & H2); [lia|].
  cbn [toHex toUpperCase_ascii all_chars String.length List.length].
  rewrite H1, H2, IHc, IHl. split; [reflexivity | lia].
Qed.

(** *** Upper-casing a pairing code *)

Lemma upper_char_fixes (c : ascii) :
  is_digit c || is_upper_hex c || Ascii.eqb c "-" = true -> upper_char c = c.
Proof.
  destruct c as [[] [] [] [] [] [] [] []]; vm_compute;
    first [reflexivity | discriminate].
Qed.

Lemma toUpperCase_ascii_fixes (s : string) :
  all_chars (fun c => is_digit c || is_upper_hex c || Ascii.eqb c "-") s = true ->
  toUpperCase_ascii s = s.
Proof.
  induction s as [|c s IH]; [reflexivity|].
  cbn [all_chars toUpperCase_ascii]. intros Hall.
  apply andb_prop in Hall. destruct Hall as [Hc Hs].
  now rewrite (upper_char_fixes c Hc), IH.
Qed.

Lemma pairing_code_chars (s : string) :
  is_pairing_code s = true ->
  all_chars (fun c => is_digit c || is_upper_hex c || Ascii.eqb c "-") s = true.
Proof.
  unfold is_pairing_code. intros Hs.
  apply andb_prop in Hs. destruct Hs as [Hs Hhex].
  apply andb_prop in Hs. destruct Hs as [Hs Hhyphen].
  apply andb_prop in Hs. destruct Hs as [Hlen Hdigits].
  apply Nat.eqb_eq in Hlen.
  do 11 (destruct s as [|? s]; [discriminate Hlen|]).
  destruct s; [|discriminate Hlen]. clear Hlen.
  cbv beta iota delta [substring all_chars String.eqb] in Hdigits, Hhyphen, Hhex.
  repeat match goal with
         | H : (_ && _)%bool = true |- _ => apply andb_prop in H; destruct H
         end.
  cbv beta iota delta [all_chars].
  repeat match goal with
         | H : ?x = true |- context [?x] => rewrite H
         end.
  match type of Hhyphen with
  | context [Ascii.eqb ?c "-"] => destruct (Ascii.eqb c "-")
  end; [|discriminate Hhyphen].
  cbn. rewrite !orb_true_r. reflexivity.
Qed.

(** *** Decimal digits *)

Lemma digit_cases (k : N) (d : Decimal.uint) :
  k < 10 ->
  DecimalPos.Unsigned.of_lu (digit k d) = k + 10 * DecimalPos.Unsigned.of_lu d
  /\ Decimal.nb_digits (digit k d) = S (Decimal.nb_digits d).
Proof.
  intros Hk.
  assert (Hc : k = 0 \/ k = 1 \/ k = 2 \/ k = 3 \/ k = 4 \/ k = 5 \/ k = 6
               \/ k = 7 \/ k = 8 \/ k = 9) by lia.
  repeat (destruct Hc as [->|Hc]; [split; reflexivity|]).
  subst k. split; reflexivity.
Qed.

Lemma decimal_text_digits (d : Decimal.uint) :
  all_chars is_digit (NilEmpty.string_of_uint d) = true
  /\ String.length (NilEmpty.string_of_uint d) = Decimal.nb_digits d.
Proof.
  induction d as [|d [IHc IHl]|d [IHc IHl]|d [IHc IHl]|d [IHc IHl]|d [IHc IHl]
                  |d [IHc IHl]|d [IHc IHl]|d [IHc IHl]|d [IHc IHl]|d [IHc IHl]];
    cbn [NilEmpty.string_of_uint all_chars String.length Decimal.nb_digits];
    rewrite ?IHc, ?IHl; split; reflexivity.
Qed.

Lemma six_digits (n : N) :
  n < 1000000 ->
  let q1 := n / 10 in let q2 := q1 / 10 in let q3 := q2 / 10 in
  let q4 := q3 / 10 in let q5 := q4 / 10 in
  n mod 10 + 10 * (q1 mod 10 + 10 * (q2 mod 10 + 10 * (q3 mod 10
    + 10 * (q4 mod 10 + 10 * (q5 mod 10 + 10 * 0))))) = n.
Proof.
  intros Hn q1 q2 q3 q4 q5.
  assert (Hstep : forall x, x = 10 * (x / 10) + x mod 10 /\ x mod 10 < 10).
  { intros x. split; [apply N.div_mod' | now apply N.mod_lt]. }
  destruct (Hstep n) as [E0 B0]. fold q1 in E0.
  destruct (Hstep q1) as [E1 B1]. fold q2 in E1.
  destruct (Hstep q2) as [E2 B2]. fold q3 in E2.
  destruct (Hstep q3) as [E3 B3]. fold q4 in E3.
  destruct (Hstep q4) as [E4 B4]. fold q5 in E4.
  destruct (Hstep q5) as [E5 B5].
  clear Hstep.
  set (r0 := n mod 10) in *. set (r1 := q1 mod 10) in *.
  set (r2 := q2 mod 10) in *. set (r3 := q3 mod 10) in *.
  set (r4 := q4 mod 10) in *. set (r5 := q5 mod 10) in *.
  set (q6 := q5 / 10) in *.
  clearbody r5 q6. clearbody q5 r4. clearbody q4 r3. clearbody q3 r2.
  clearbody q2 r1. clearbody q1 r0.
  lia.
Qed.

(** The decimal text of a number below a million: one to six digits. *)
Lemma toString_below_million (n : N) :
  n < 1000000 ->
  all_chars is_digit (toString n) = true
  /\ (1 <= String.length (toString n) <= 6)%nat.
Proof.
  intros Hn. unfold toString.
  pose proof (six_digits n Hn) as Hsix. cbv zeta in Hsix.
  set (lu := digit (n mod 10) (digit (n / 10 mod 10) (digit (n / 10 / 10 mod 10)
             (digit (n / 10 / 10 / 10 mod 10) (digit (n / 10 / 10 / 10 / 10 mod 10)
             (digit (n / 10 / 10 / 10 / 10 / 10 mod 10) Decimal.Nil)))))).
  assert (Hval : DecimalPos.Unsigned.of_lu lu = n
                 /\ Decimal.nb_digits lu = 6%nat).
  { unfold lu. split.
    - rewrite !(fun k d Hk => proj1 (digit_cases k d Hk)) by (now apply N.mod_lt).
      cbn [DecimalPos.Unsigned.of_lu]. exact Hsix.
    - rewrite !(fun k d Hk => proj2 (digit_cases k d Hk)) by (now apply N.mod_lt).
      reflexivity. }
  destruct Hval as [Hval Hlen].
  assert (Hto : N.to_uint n = Decimal.unorm (Decimal.rev lu)).
  { rewrite <- DecimalN.Unsigned.to_of. f_equal.
    change (N.of_uint (Decimal.rev lu)) with (Pos.of_uint (Decimal.rev lu)).
    rewrite DecimalPos.Unsigned.of_lu_rev. now symmetry. }
  rewrite Hto.
  assert (Hnil : Decimal.rev lu <> Decimal.Nil).
  { apply DecimalFacts.nb_digits_n0. rewrite DecimalFacts.nb_digits_rev, Hlen.
    discriminate. }
  pose proof (DecimalFacts.nb_digits_unorm _ Hnil) as Hle.
  rewrite DecimalFacts.nb_digits_rev, Hlen in Hle.
  assert (Hun : Decimal.unorm (Decimal.rev lu) <> Decimal.Nil).
  { unfold Decimal.unorm. destruct (Decimal.nzhead _); discriminate. }
  destruct (decimal_text_digits (Decimal.unorm (Decimal.rev lu))) as [Hc Hl].
  assert (Hsame : NilZero.string_of_uint (Decimal.unorm (Decimal.rev lu))
                  = NilEmpty.string_of_uint (Decimal.unorm (Decimal.rev lu))).
  { destruct (Decimal.unorm (Decimal.rev lu)); [contradiction | reflexivity ..]. }
  rewrite Hsame, Hc, Hl. split; [reflexivity|].
  assert (Hpos : Decimal.nb_digits (Decimal.unorm (Decimal.rev lu)) <> 0%nat).
  { intros Hz. apply DecimalFacts.nb_digits_0 in Hz. contradiction. }
  revert Hpos Hle.
  generalize (Decimal.nb_digits (Decimal.unorm (Decimal.rev lu))).
  clear. intros m Hpos Hle. lia.
Qed.

Lemma pairing_code_shape (a b : string) :
  String.length a = 6%nat -> all_chars is_digit a = true ->
  String.length b = 4%nat -> all_chars is_upper_hex b = true ->
  is_pairing_code (a ++ "-" ++ b)%string = true.
Proof.
  intros Ha Hda Hb Hhb.
  do 6 (destruct a as [|? a]; [discriminate Ha|]).
  destruct a; [|discriminate Ha].
  do 4 (destruct b as [|? b]; [discriminate Hb|]).
  destruct b; [|discriminate Hb].
  cbv beta iota delta [all_chars] in Hda, Hhb.
  repeat match goal with
         | H : (_ && _)%bool = true |- _ => apply andb_prop in H; destruct H
         end.
  cbv beta iota delta [is_pairing_code String.append String.length substring
                       all_chars Nat.eqb String.eqb Ascii.eqb Bool.eqb].
  repeat match goal with
         | H : ?x = true |- context [?x] => rewrite H
         end.
  reflexivity.
Qed.

Lemma padStart0_digits (s : string) :
  (String.length s <= 6)%nat -> all_chars is_digit s = true ->
  String.length (padStart0 6 s) = 6%nat
  /\ all_chars is_digit (padStart0 6 s) = true.
Proof.
  intros Hlen Hd. unfold padStart0.
  remember (6 - String.length s)%nat as pad eqn:Hpad.
  assert (Hsum : (pad + String.length s = 6)%nat) by (clear Hd; lia).
  clear Hpad Hlen. revert Hsum.
  generalize 6%nat as total. induction pad as [|pad IH]; intros total Hsum.
  - change (string_of_list_ascii (repeat "0"%char 0) +:+ s) with s.
    split; [exact Hsum | exact Hd].
  - destruct total as [|total]; [discriminate|].
    destruct (IH total) as [Hl Hc]; [lia|].
    change (string_of_list_ascii (repeat "0"%char (S pad)) +:+ s)
      with (String "0"%char (string_of_list_ascii (repeat "0"%char pad) +:+ s)).
    cbn [String.length all_chars].
    rewrite Hl, Hc. split; reflexivity.
Qed.

Lemma format_code_shape (out : bytes) :
  List.length out = 32%nat -> is_pairing_code (format_code out) = true.
Proof.
  intros Hout. unfold format_code.
  set (num := readUInt32BE (subarray 0 4 out)).
  destruct (toString_below_million (num mod 1000000)) as [Hd [_ Hl]];
    [now apply N.mod_lt|].
  destruct (padStart0_digits _ Hl Hd) as [Hpl Hpd].
  destruct (toHex_upper (subarray 4 6 out)) as [Hh Hhl].
  assert (Hsub : List.length (subarray 4 6 out) = 2%nat).
  { unfold subarray. rewrite length_firstn, length_skipn, Hout. reflexivity. }
  rewrite Hsub in Hhl.
  apply pairing_code_shape; assumption.
Qed.

Lemma getPairingCode_digest (ed25519PublicKeyB64 pairingSecretB64 : string) :
  exists input,
    getPairingCode ed25519PublicKeyB64 pairingSecretB64
    = Ok (format_code (crypto_hash_sha256 input)).
Proof.
  unfold getPairingCode, Uint8Array_set, Uint8Array_new.
  set (tag := PAIRING_CODE_TAG).
  set (secret := fromBase64 pairingSecretB64).
  set (pk := fromBase64 ed25519PublicKeyB64).
  rewrite repeat_length.
  replace (0 + List.length tag <=? List.length tag + List.length secret + List.length pk)%nat
    with true by (symmetry; apply Nat.leb_le; lia).
  cbn [result_bind].
  repeat match goal with
  | |- context [Nat.leb ?a ?b] =>
      replace (Nat.leb a b) with true
        by (symmetry; apply Nat.leb_le;
            repeat (rewrite ?length_app, ?length_firstn, ?length_skipn, ?repeat_length);
            lia);
      cbn [result_bind]
  end.
  eexists. reflexivity.
Qed.

(** X1.  Whatever its two arguments decode to -- of any length, empty
    included -- [getPairingCode] throws nothing (none of its four [set]
    calls leaves the buffer) and returns a text of the form the test suite
    expects: six decimal digits, a hyphen, four upper-case hexadecimal
    digits. *)
Theorem getPairingCode_well_formed (ed25519PublicKeyB64 pairingSecretB64 : string) :
  exists code,
    getPairingCode ed25519PublicKeyB64 pairingSecretB64 = Ok code
    /\ is_pairing_code code = true.
Proof.
  destruct (getPairingCode_digest ed25519PublicKeyB64 pairingSecretB64)
    as [input Hcode].
  exists (format_code (crypto_hash_sha256 input)).
  split; [exact Hcode | apply format_code_shape, sha256_length].
Qed.

(** X2.  [getFingerprint] returns 64 lower-case hexadecimal digits for
    every argument. *)
Theorem getFingerprint_well_formed (ed25519PublicKeyB64 : string) :
  is_fingerprint (getFingerprint ed25519PublicKeyB64) = true.
Proof.
  unfold is_fingerprint, getFingerprint.
  destruct (toHex_lower (crypto_hash_sha256 (fromBase64 ed25519PublicKeyB64)))
    as [Hc Hl].
  rewrite Hc, Hl, sha256_length. reflexivity.
Qed.

(** X3.  The base64 text made by [toBase64] decodes, with [fromBase64], to
    the bytes it was made from; so two byte strings with the same text are
    equal. *)
Theorem base64_round_trip (bs : bytes) :
  fromBase64 (toBase64 bs) = bs
  /\ (forall bs' : bytes, toBase64 bs = toBase64 bs' -> bs = bs').
Proof.
  split; [apply fromBase64_toBase64|].
  intros bs' Heq.
  rewrite <- (fromBase64_toBase64 bs), <- (fromBase64_toBase64 bs'), Heq.
  reflexivity.
Qed.

(** ** The pairing secret and the pairing token *)

Section Further.
Context `{Sodium} `{Runtime}.

Abbreviation client := (Some TheClient).

Lemma getOrCreatePairingSecret_eq (w : World) :
  getOrCreatePairingSecret client w
  = match stored w ENC_KEY_PAIRING_SECRET with
    | Some s =>
        if Nat.eqb (List.length (fromBase64 s)) 32 then (Ok s, w)
        else (Throw (Coded INVALID_PAIRING_SECRET), w)
    | None =>
        if vault_locked (vault w)
        then (Throw (PairingSecretPersistenceFailed
                       (VaultRejected vault_locked_message)),
              set_entropy (entropy w + 32) w)
        else (Ok (toBase64 (draw (entropy w) 32)),
              with_entries
                (insert ENC_KEY_PAIRING_SECRET (toBase64 (draw (entropy w) 32)))
                (set_entropy (entropy w + 32) w))
    end.
Proof.
  unfold getOrCreatePairingSecret.
  rewrite (bind_ok _ _ _ _ _ (load_entry_eq w ENC_KEY_PAIRING_SECRET)).
  destruct (stored w ENC_KEY_PAIRING_SECRET) as [s|] eqn:Hs.
  - destruct (Nat.eqb (List.length (fromBase64 s)) 32); reflexivity.
  - unfold randombytes_buf, encryptionAdd, with_entries.
    unfold_M. cbn [vault set_entropy entropy].
    destruct (vault_locked (vault w)); reflexivity.
Qed.

Lemma draw_truthy (pos : nat) : str_truthy (toBase64 (draw pos 32)) = true.
Proof.
  apply toBase64_truthy. intros Hnil.
  pose proof (draw_length pos 32) as Hl. rewrite Hnil in Hl. discriminate.
Qed.

Lemma stored_inserted (w : World) (k v : string) :
  vault_locked (vault w) = false -> str_truthy v = true ->
  stored (with_entries (insert k v) w) k = Some v.
Proof.
  intros Hl Hv. unfold stored, with_entries. cbn.
  rewrite Hl, lookup_insert_eq, Hv. reflexivity.
Qed.

Lemma stored_inserted_ne (w : World) (k k' v : string) :
  k <> k' -> stored (with_entries (insert k v) w) k' = stored w k'.
Proof.
  intros Hk. unfold stored, with_entries. cbn.
  now rewrite lookup_insert_ne.
Qed.

Lemma pairing_secret_kept (w w' : World) (secret : string) :
  getOrCreatePairingSecret client w = (Ok secret, w') ->
  List.length (fromBase64 secret) = 32%nat
  /\ stored w' ENC_KEY_PAIRING_SECRET = Some secret.
Proof.
  rewrite getOrCreatePairingSecret_eq.
  destruct (stored w ENC_KEY_PAIRING_SECRET) as [s|] eqn:Hs.
  - destruct (Nat.eqb (List.length (fromBase64 s)) 32) eqn:Hlen; [|discriminate].
    intros Heq. assert (s = secret) by congruence. assert (w = w') by congruence.
    subst secret w'. apply Nat.eqb_eq in Hlen. auto.
  - destruct (vault_locked (vault w)) eqn:Hl; [discriminate|].
    intros Heq.
    assert (Hsecret : toBase64 (draw (entropy w) 32) = secret) by congruence.
    assert (Hw' : with_entries (insert ENC_KEY_PAIRING_SECRET secret)
                    (set_entropy (entropy w + 32) w) = w') by congruence.
    clear Heq. split.
    + rewrite <- Hsecret, fromBase64_toBase64. apply draw_length.
    + rewrite <- Hw'. apply stored_inserted; [exact Hl|].
      rewrite <- Hsecret. apply draw_truthy.
Qed.

Lemma pairing_secret_found (w : World) (secret : string) :
  List.length (fromBase64 secret) = 32%nat ->
  stored w ENC_KEY_PAIRING_SECRET = Some secret ->
  getOrCreatePairingSecret client w = (Ok secret, w).
Proof.
  intros Hlen Hst. rewrite getOrCreatePairingSecret_eq, Hst.
  apply Nat.eqb_eq in Hlen. now rewrite Hlen.
Qed.

(** X4.  A pairing secret that [getOrCreatePairingSecret] returns decodes
    to 32 bytes, is in the vault afterwards, and is what the next call
    returns, which changes nothing: the secret is drawn once. *)
Theorem getOrCreatePairingSecret_stable (w w' : World) (secret : string) :
  getOrCreatePairingSecret client w = (Ok secret, w') ->
  List.length (fromBase64 secret) = 32%nat
  /\ stored w' ENC_KEY_PAIRING_SECRET = Some secret
  /\ getOrCreatePairingSecret client w' = (Ok secret, w').
Proof.
  intros Hcall. destruct (pairing_secret_kept w w' secret Hcall) as [Hlen Hst].
  auto using pairing_secret_found.
Qed.

(** X5.  [getOrCreatePairingSecret] fails in two cases only.  A stored
    secret that does not decode to 32 bytes is refused with
    [INVALID_PAIRING_SECRET] and is not replaced, so that every later
    call, and with it [getPairingToken] and [verifyPairingToken] of a
    non-empty token, fails in the same way.  A secret that cannot be
    written (the vault rejects the write) is not returned either: the
    call fails with [PairingSecretPersistenceFailed] and the vault is as
    before. *)
Theorem getOrCreatePairingSecret_failures (w w' : World) (e : JsError) :
  getOrCreatePairingSecret client w = (Throw e, w') ->
  vault w' = vault w
  /\ ((e = Coded INVALID_PAIRING_SECRET /\ w' = w
       /\ (exists s, stored w ENC_KEY_PAIRING_SECRET = Some s
                     /\ List.length (fromBase64 s) <> 32%nat)
       /\ (forall publicKey,
             getPairingToken client publicKey w = (Throw e, w))
       /\ (forall publicKey token, str_truthy token = true ->
             verifyPairingToken client publicKey token w = (Throw e, w)))
      \/ ((exists cause, e = PairingSecretPersistenceFailed cause)
          /\ vault_locked (vault w) = true
          /\ stored w ENC_KEY_PAIRING_SECRET = None)).
Proof.
  intros Hthrow. pose proof Hthrow as Hcase. revert Hcase.
  rewrite getOrCreatePairingSecret_eq.
  destruct (stored w ENC_KEY_PAIRING_SECRET) as [s|] eqn:Hs.
  - destruct (Nat.eqb (List.length (fromBase64 s)) 32) eqn:Hlen; [discriminate|].
    intros Heq. assert (e = Coded INVALID_PAIRING_SECRET) by congruence.
    assert (w' = w) by congruence. subst e w'. clear Heq.
    split; [reflexivity|]. left.
    assert (Htoken : forall publicKey,
               getPairingToken client publicKey w
               = (Throw (Coded INVALID_PAIRING_SECRET), w)).
    { intros publicKey. unfold getPairingToken.
      apply (bind_throw _ _ _ _ _ Hthrow). }
    repeat split; auto.
    + exists s. split; [reflexivity|]. now apply Nat.eqb_neq.
    + intros publicKey token Ht. unfold verifyPairingToken. rewrite Ht.
      cbn [negb]. apply (bind_throw _ _ _ _ _ (Htoken publicKey)).
  - destruct (vault_locked (vault w)) eqn:Hl; [|discriminate].
    intros Heq.
    assert (e = PairingSecretPersistenceFailed (VaultRejected vault_locked_message))
      by congruence.
    assert (w' = set_entropy (entropy w + 32) w) by congruence. subst e w'.
    split; [reflexivity|]. right. eauto.
Qed.

Lemma pairing_code_truthy (code : string) :
  is_pairing_code code = true -> str_truthy code = true.
Proof. destruct code; [discriminate | reflexivity]. Qed.

(** X6.  After [getPairingToken] has shown a token, [verifyPairingToken]
    accepts that token, and accepts a non-empty token exactly when the
    runtime's [toUpperCase] turns it into the shown token -- be it by the
    case of its letters or by another case mapping of Unicode; neither
    check changes anything.  An empty token is refused without a look at
    the vault.  (Of the runtime it is assumed that [toUpperCase] leaves a
    pairing code, made of digits, a hyphen and the letters A to F, as it
    is.) *)
Theorem verifyPairingToken_getPairingToken
    (w w' : World) (publicKey shown : string) :
  toUpperCase_keeps_codes ->
  getPairingToken client publicKey w = (Ok shown, w') ->
  verifyPairingToken client publicKey shown w' = (Ok true, w')
  /\ (forall token, str_truthy token = true ->
        verifyPairingToken client publicKey token w'
        = (Ok (String.eqb (toUpperCase token) shown), w'))
  /\ (forall u, verifyPairingToken client publicKey "" u = (Ok false, u)).
Proof.
  intros Hupper. unfold getPairingToken. unfold bind at 1.
  destruct (getOrCreatePairingSecret client w) as [[secret|e] w1] eqn:Hsecret;
    [|discriminate].
  destruct (pairing_secret_kept w w1 secret Hsecret) as [Hlen Hst].
  pose proof (pairing_secret_found w1 secret Hlen Hst) as Hagain.
  destruct (getPairingCode_digest publicKey secret) as [input Hcode].
  unfold lift. rewrite Hcode. intros Heq.
  assert (Hshown : format_code (crypto_hash_sha256 input) = shown) by congruence.
  assert (w1 = w') by congruence. subst w1. clear Heq.
  assert (Hshape : is_pairing_code shown = true).
  { rewrite <- Hshown. apply format_code_shape, sha256_length. }
  assert (Hany : forall token, str_truthy token = true ->
            verifyPairingToken client publicKey token w'
            = (Ok (String.eqb (toUpperCase token) shown), w')).
  { intros token Ht. unfold verifyPairingToken, getPairingToken. rewrite Ht.
    cbn [negb]. unfold bind at 1. unfold bind at 1.
    rewrite Hagain. unfold lift. rewrite Hcode, Hshown.
    unfold ret. now rewrite (Hupper shown Hshape). }
  split; [|split; [exact Hany | reflexivity]].
  rewrite Hany by (now apply pairing_code_truthy).
  now rewrite (Hupper shown Hshape), String.eqb_refl.
Qed.

(** ** The peer record *)

Lemma stored_client_record (w : World) (v : JsVal) :
  vault_locked (vault w) = false -> json_round_trip v ->
  client_data (with_entries (insert ENC_KEY_CLIENT_DATA (JSON_stringify v)) w) = v.
Proof.
  intros Hl [Ht Hp]. unfold client_data.
  rewrite (stored_inserted w _ _ Hl Ht), Hp. reflexivity.
Qed.

Lemma getClientIdentityPublicKey_eq (w : World) :
  getClientIdentityPublicKey client w
  = (Ok (js_or (opt_prop (client_data w) "publicKey") JNull), w).
Proof.
  unfold getClientIdentityPublicKey.
  rewrite (bind_ok _ _ _ _ _ (getClientData_eq w)). reflexivity.
Qed.

Lemma getClientPairingState_eq (w : World) :
  getClientPairingState client w
  = (Ok (js_or (opt_prop (client_data w) "pairingState") JNull), w).
Proof.
  unfold getClientPairingState.
  rewrite (bind_ok _ _ _ _ _ (getClientData_eq w)). reflexivity.
Qed.

(** X7.  On an unlocked vault, [setClientIdentityPublicKey] of a
    non-empty key succeeds, and afterwards
    [getClientIdentityPublicKey] returns that key and
    [getClientPairingState] the state given (null for an empty state);
    the cache slot, the sessions and the other vault entries are as
    before.  [JSON.parse] is assumed to read back the record
    [JSON.stringify] wrote. *)
Theorem setClientIdentityPublicKey_read_back (w : World) (publicKey state : string) :
  str_truthy publicKey = true ->
  vault_locked (vault w) = false ->
  json_round_trip (client_record publicKey state) ->
  exists w',
    setClientIdentityPublicKey client publicKey state w = (Ok tt, w')
    /\ getClientIdentityPublicKey client w' = (Ok (JStr publicKey), w')
    /\ getClientPairingState client w'
       = (Ok (if str_truthy state then JStr state else JNull), w')
    /\ cache w' = cache w
    /\ sessions w' = sessions w
    /\ (forall k, k <> ENC_KEY_CLIENT_DATA -> stored w' k = stored w k).
Proof.
  intros Hk Hl Hjson.
  eexists. rewrite setClientIdentityPublicKey_eq, Hk, Hl. cbn [negb].
  split; [reflexivity|].
  rewrite getClientIdentityPublicKey_eq, getClientPairingState_eq.
  rewrite (stored_client_record w _ Hl Hjson).
  cbn [client_record opt_prop assoc_get String.eqb Ascii.eqb Bool.eqb].
  unfold js_or. cbn [truthy]. rewrite Hk.
  split; [reflexivity|].
  split; [destruct (str_truthy state); reflexivity|].
  split; [reflexivity|]. split; [reflexivity|].
  intros k Hne. apply stored_inserted_ne. congruence.
Qed.

(** X8.  The pairing lifecycle of one peer: once a key is pinned as
    PENDING, [confirmClientPairing] of that key succeeds, the record
    then reads CONFIRMED with the same key and the cache slot holds the
    key; a confirmation for any other key fails with
    [CLIENT_KEY_MISMATCH] and changes nothing. *)
Theorem pin_then_confirm (w : World) (publicKey : string) :
  str_truthy publicKey = true ->
  vault_locked (vault w) = false ->
  json_round_trip (client_record publicKey PENDING) ->
  json_round_trip (client_record publicKey CONFIRMED) ->
  exists w1 w2,
    setClientIdentityPublicKey client publicKey PENDING w = (Ok tt, w1)
    /\ confirmClientPairing client publicKey w1 = (Ok tt, w2)
    /\ getClientPairingState client w2 = (Ok (JStr CONFIRMED), w2)
    /\ getClientIdentityPublicKey client w2 = (Ok (JStr publicKey), w2)
    /\ getCachedClientIdentityPublicKey w2 = (Ok (Some publicKey), w2)
    /\ (forall other, other <> publicKey ->
          confirmClientPairing client other w1
          = (Throw (Coded CLIENT_KEY_MISMATCH), w1)).
Proof.
  intros Hk Hl Hpending Hconfirmed.
  pose (w1 := with_entries
                (insert ENC_KEY_CLIENT_DATA
                   (JSON_stringify (client_record publicKey PENDING))) w).
  pose (w2 := with_entries
                (insert ENC_KEY_CLIENT_DATA
                   (JSON_stringify (client_record publicKey CONFIRMED)))
                (set_localStorage
                   (<[NM_CLIENT_PUBLIC_KEY := publicKey]> (localStorage w1)) w1)).
  exists w1, w2.
  rewrite setClientIdentityPublicKey_eq, Hk, Hl. cbn [negb].
  split; [reflexivity|].
  assert (Hdata : client_data w1 = client_record publicKey PENDING)
    by (apply stored_client_record; assumption).
  assert (Hl1 : vault_locked (vault w1) = false) by exact Hl.
  assert (Hdata2 : client_data w2 = client_record publicKey CONFIRMED).
  { unfold w2. apply stored_client_record; assumption. }
  rewrite !confirmClientPairing_eq, Hdata.
  cbn [client_record opt_prop assoc_get String.eqb Ascii.eqb Bool.eqb
       truthy strict_ne_str spread_with assoc_set].
  rewrite Hk, String.eqb_refl. cbn [negb].
  split; [reflexivity|].
  rewrite getClientIdentityPublicKey_eq, getClientPairingState_eq, Hdata2.
  cbn [client_record opt_prop assoc_get String.eqb Ascii.eqb Bool.eqb].
  unfold js_or. cbn [truthy]. rewrite Hk.
  split; [reflexivity|]. split; [reflexivity|]. split.
  - unfold getCachedClientIdentityPublicKey. unfold_M.
    unfold w2 at 1. cbn. rewrite lookup_insert_eq, Hk. reflexivity.
  - intros other Hne. rewrite confirmClientPairing_eq, Hdata.
    cbn [client_record opt_prop assoc_get String.eqb Ascii.eqb Bool.eqb
         truthy strict_ne_str].
    rewrite Hk. cbn [negb].
    destruct (String.eqb_spec publicKey other) as [->|_]; [contradiction|].
    reflexivity.
Qed.

(** ** The identity store *)

Lemma stored_ensured (w : World) (k : string) : stored (ensured w) k = stored w k.
Proof. unfold ensured. destruct (vault_status (vault w)); reflexivity. Qed.

Lemma stored_with_secret (w : World) (k : string) :
  k <> ENC_KEY_PAIRING_SECRET -> stored (with_secret w) k = stored w k.
Proof.
  intros Hk. unfold with_secret.
  destruct (stored w ENC_KEY_PAIRING_SECRET); [reflexivity|].
  destruct (vault_locked (vault w)); [reflexivity|].
  rewrite stored_inserted_ne by congruence. reflexivity.
Qed.

Lemma stored_generated (w : World) (k : string) :
  k <> ENC_KEY_ED25519 -> k <> ENC_KEY_X25519 -> k <> ENC_KEY_CREATION_DATE ->
  stored (generated w) k = stored w k.
Proof.
  intros H1 H2 H3. world_cases w. unfold generated, stored, with_entries. cbn.
  destruct locked; cbn; [reflexivity|].
  rewrite !lookup_insert_ne by congruence. reflexivity.
Qed.

Lemma status_with_secret_ensured (w : World) :
  vault_status (vault (with_secret (ensured w))) = true.
Proof.
  world_cases w. unfold with_secret, ensured, stored, with_entries. cbn.
  destruct status, locked; cbn;
    repeat match goal with
           | |- context [match ?x with _ => _ end] => destruct x
           end; reflexivity.
Qed.

Lemma status_generated (w : World) :
  vault_status (vault (generated w)) = vault_status (vault w).
Proof.
  world_cases w. unfold generated, with_entries. cbn. destruct locked; reflexivity.
Qed.

(** The world [getOrCreateIdentity] leaves. *)
Lemma getOrCreateIdentity_world (w : World) :
  snd (getOrCreateIdentity client w)
  = if generates w then generated (with_secret (ensured w))
    else with_secret (ensured w).
Proof.
  rewrite getOrCreateIdentity_eq. cbv zeta.
  destruct (same_inputs_with_secret_ensured w) as [Hm Hed Hx _ _].
  unfold generates, blobs_missing. rewrite <- Hm, <- Hed, <- Hx.
  destruct (MEMORY_IDENTITY (with_secret (ensured w))),
    (stored (with_secret (ensured w)) ENC_KEY_ED25519),
    (stored (with_secret (ensured w)) ENC_KEY_X25519);
    rewrite ?generateAndPersistIdentity_eq; reflexivity.
Qed.

Lemma getOrCreateIdentity_keeps (w : World) (k : string) :
  k = ENC_KEY_CLIENT_DATA
  \/ (k = ENC_KEY_PAIRING_SECRET /\ stored w k <> None) ->
  stored (snd (getOrCreateIdentity client w)) k = stored w k.
Proof.
  intros Hk. rewrite getOrCreateIdentity_world.
  assert (Hsecret : stored (with_secret (ensured w)) k = stored w k).
  { destruct Hk as [->|[-> Hsome]].
    - rewrite stored_with_secret by discriminate. apply stored_ensured.
    - rewrite <- stored_ensured in Hsome. unfold with_secret.
      destruct (stored (ensured w) ENC_KEY_PAIRING_SECRET) eqn:Hs;
        [|contradiction].
      rewrite Hs. rewrite stored_ensured in Hs. now rewrite Hs. }
  destruct (generates w); [|exact Hsecret].
  rewrite <- Hsecret.
  destruct Hk as [->|[-> _]]; apply stored_generated; discriminate.
Qed.

(** X9.  [getOrCreateIdentity] throws nothing: with any client -- one
    whose writes are rejected or whose initialisation fails included --
    and in any state of the vault, locked, not initialised, or holding an
    unusable pairing secret.  It leaves alone the sessions, the local
    storage, the native-messaging flag, the peer record and a pairing
    secret that is already stored. *)
Theorem getOrCreateIdentity_never_throws (c : ClientRef) (w : World) :
  exists id w',
    getOrCreateIdentity (Some c) w = (Ok id, w')
    /\ untouched w w'
    /\ client_data w' = client_data w
    /\ (stored w ENC_KEY_PAIRING_SECRET <> None ->
        stored w' ENC_KEY_PAIRING_SECRET = stored w ENC_KEY_PAIRING_SECRET).
Proof.
  destruct (getOrCreateIdentity_any c w) as (id & w' & Hcall & [Hun Hrec Hsec]).
  exists id, w'. split; [exact Hcall|]. split; [exact Hun|].
  destruct Hun as [_ _ _ Hl]. split.
  - unfold client_data. now rewrite (stored_same w w' _ Hl Hrec).
  - intros Hsome. apply (stored_same w w' _ Hl (Hsec Hsome)).
Qed.

(** X10.  An identity that is only in memory stays there: when a key
    blob cannot be loaded and an identity is cached in memory,
    [getOrCreateIdentity] returns the public keys of the cached identity
    and writes neither key blob to the vault, unlocked or not; the
    cached identity is kept. *)
Theorem memory_identity_not_persisted (w : World) (m : MemIdentity) :
  MEMORY_IDENTITY w = Some m ->
  blobs_missing w = true ->
  exists id w',
    getOrCreateIdentity client w = (Ok id, w')
    /\ ed25519PublicKey id = toBase64 (ed25519PublicKeyBytes m)
    /\ x25519PublicKey id = toBase64 (x25519PublicKeyBytes m)
    /\ MEMORY_IDENTITY w' = Some m
    /\ stored w' ENC_KEY_ED25519 = stored w ENC_KEY_ED25519
    /\ stored w' ENC_KEY_X25519 = stored w ENC_KEY_X25519.
Proof.
  intros Hm Hmissing. rewrite getOrCreateIdentity_eq. cbv zeta.
  destruct (same_inputs_with_secret_ensured w) as [Hm2 Hed Hx _ _].
  unfold blobs_missing in Hmissing. rewrite <- Hed, <- Hx in Hmissing.
  rewrite Hm in Hm2. rewrite Hm2.
  destruct (stored (with_secret (ensured w)) ENC_KEY_ED25519) eqn:E1,
    (stored (with_secret (ensured w)) ENC_KEY_X25519) eqn:E2;
    try discriminate Hmissing; eexists _, _;
    (split; [reflexivity|]); cbn [ed25519PublicKey x25519PublicKey];
    repeat (split; [first [reflexivity | assumption | congruence]|]);
    congruence.
Qed.

(** What a reset leaves in a vault that takes the writes: the peer record
    and the old key blobs are overwritten, the new blobs are stored. *)
Lemma reset_overwrites (w : World) :
  vault_locked (vault w) = false ->
  let w2 := with_secret (ensured (cleared w)) in
  vault_locked (vault w2) = false
  /\ vault_entries (vault (generated w2)) !! ENC_KEY_CLIENT_DATA = Some ""
  /\ client_data (generated w2) = JNull
  /\ MEMORY_IDENTITY (generated w2) = None.
Proof.
  intros Hl. cbv zeta.
  destruct (cleared_frame w) as (_ & _ & _ & _ & Hlc).
  destruct (cleared_stored w) as (_ & _ & Hdata & _ & Hm).
  destruct (untouched_with_secret_ensured (cleared w)) as [_ _ _ Hl2].
  destruct (same_inputs_with_secret_ensured (cleared w)) as [Hm2 _ _ _ _].
  set (w2 := with_secret (ensured (cleared w))) in *.
  assert (Hunlocked : vault_locked (vault w2) = false) by congruence.
  destruct (generated_unlocked w2 Hunlocked) as (_ & _ & Hgm).
  split; [exact Hunlocked|]. split; [|split; [|congruence]].
  - assert (Hg : vault_entries (vault (generated w2)) !! ENC_KEY_CLIENT_DATA
                 = vault_entries (vault w2) !! ENC_KEY_CLIENT_DATA).
    { clear. generalize w2 as u. intros u. world_cases u.
      unfold generated, with_entries. cbn.
      destruct locked; cbn; rewrite ?lookup_insert_ne by discriminate;
        reflexivity. }
    assert (Hw : forall u, vault_entries (vault (with_secret u)) !! ENC_KEY_CLIENT_DATA
                           = vault_entries (vault u) !! ENC_KEY_CLIENT_DATA).
    { intros u. unfold with_secret.
      destruct (stored u ENC_KEY_PAIRING_SECRET); [reflexivity|].
      destruct (vault_locked (vault u)); [reflexivity|].
      unfold with_entries. cbn. now rewrite lookup_insert_ne by discriminate. }
    assert (He : forall u, vault_entries (vault (ensured u)) = vault_entries (vault u)).
    { intros u. unfold ensured. destruct (vault_status (vault u)); reflexivity. }
    rewrite Hg. unfold w2. rewrite Hw, He.
    clear -Hl. world_cases w. cbn in Hl. subst locked.
    unfold cleared, with_entries. cbn.
    rewrite lookup_insert_ne by discriminate. apply lookup_insert_eq.
  - unfold client_data.
    rewrite stored_generated by discriminate. unfold w2.
    rewrite stored_with_secret by discriminate.
    now rewrite stored_ensured, Hdata.
Qed.

(** X11.  On a vault that takes the writes, [resetIdentity] unpairs.  It
    throws nothing; afterwards no session is left, the cache slot is empty
    and the peer record in the vault is overwritten with the empty text,
    so that no peer is pinned ([getClientIdentityPublicKey] returns null,
    every confirmation fails with [NO_PENDING_PAIRING]); exactly one
    Ed25519 and one X25519 key pair have been generated, whose public keys
    -- 32 bytes each -- are the ones returned, and their blobs are what
    the vault now holds, nothing being kept in memory. *)
Theorem resetIdentity_unpairs (w : World) :
  vault_locked (vault w) = false ->
  exists id w',
    resetIdentity client w = (Ok id, w')
    /\ sessions w' = ∅
    /\ cache w' = None
    /\ vault_entries (vault w') !! ENC_KEY_CLIENT_DATA = Some ""
    /\ getClientIdentityPublicKey client w' = (Ok JNull, w')
    /\ (forall k, confirmClientPairing client k w'
                  = (Throw (Coded NO_PENDING_PAIRING), w'))
    /\ signKeypairCalls w' = S (signKeypairCalls w)
    /\ boxKeypairCalls w' = S (boxKeypairCalls w)
    /\ List.length (fromBase64 (ed25519PublicKey id)) = 32%nat
    /\ List.length (fromBase64 (x25519PublicKey id)) = 32%nat
    /\ MEMORY_IDENTITY w' = None
    /\ (exists blob, stored w' ENC_KEY_ED25519 = Some blob
          /\ toBase64 (subarray 0 crypto_sign_PUBLICKEYBYTES (fromBase64 blob))
             = ed25519PublicKey id)
    /\ (exists blob, stored w' ENC_KEY_X25519 = Some blob
          /\ toBase64 (subarray 0 crypto_box_PUBLICKEYBYTES (fromBase64 blob))
             = x25519PublicKey id).
Proof.
  intros Hunlocked.
  pose proof (resetIdentity_outcome w) as Hreset. cbv zeta in Hreset.
  pose proof (reset_overwrites w Hunlocked) as Hover. cbv zeta in Hover.
  set (w2 := with_secret (ensured (cleared w))) in *.
  destruct Hover as (Hl2 & Hentry & Hnull & Hmem).
  eexists _, _. split; [exact Hreset|].
  destruct (cleared_frame w) as (Hs & Hc & Hsk & Hbk & _).
  destruct (untouched_with_secret_ensured (cleared w)) as [Hls2 Hs2 _ _].
  destruct (untouched_generated w2) as [Hls3 Hs3 _ _].
  destruct (same_inputs_with_secret_ensured (cleared w)) as [_ _ _ Hsk2 Hbk2].
  destruct (generated_counters w2) as [Hsk3 Hbk3].
  destruct (generated_unlocked w2 Hl2) as (Hged & Hgx & _).
  fold w2 in Hls2, Hs2, Hsk2, Hbk2.
  split; [congruence|].
  split; [unfold cache in *; congruence|].
  split; [exact Hentry|].
  split; [rewrite getClientIdentityPublicKey_eq, Hnull; reflexivity|].
  split; [intros k; rewrite confirmClientPairing_eq, Hnull; reflexivity|].
  split; [congruence|].
  split; [congruence|].
  cbn [ed25519PublicKey x25519PublicKey]. rewrite !fromBase64_toBase64.
  split; [apply fresh_ed_length|]. split; [apply fresh_x_length|].
  split; [exact Hmem|].
  split; eexists; (split; [eassumption|]);
    rewrite public_part by (apply filled_length); reflexivity.
Qed.

(** X12.  While the vault rejects writes (it is locked),
    [resetIdentity] cannot clear it: every vault entry -- the old key
    blobs, the pairing secret and the peer record -- is as before, and
    the new identity exists in memory only. *)
Theorem resetIdentity_locked_vault (w : World) :
  vault_locked (vault w) = true ->
  exists id w' m,
    resetIdentity client w = (Ok id, w')
    /\ vault_entries (vault w') = vault_entries (vault w)
    /\ MEMORY_IDENTITY w' = Some m
    /\ ed25519PublicKey id = toBase64 (ed25519PublicKeyBytes m)
    /\ x25519PublicKey id = toBase64 (x25519PublicKeyBytes m).
Proof.
  intros Hl.
  pose proof (resetIdentity_outcome w) as Hreset. cbv zeta in Hreset.
  set (w2 := with_secret (ensured (cleared w))) in *.
  assert (Hl2 : vault_locked (vault w2) = true).
  { destruct (untouched_with_secret_ensured (cleared w)) as [_ _ _ Hsame].
    destruct (cleared_frame w) as (_ & _ & _ & _ & Hc). fold w2 in Hsame.
    congruence. }
  destruct (generated_locked w2 Hl2) as [_ Hmem].
  eexists _, _, _. split; [exact Hreset|].
  split; [|split; [exact Hmem | split; reflexivity]].
  clear Hreset Hmem Hl2. subst w2. world_cases w. cbn in Hl. subst locked.
  unfold generated, with_secret, ensured, cleared, stored. cbn.
  destruct status; reflexivity.
Qed.

(** X13.  What [generateAndPersistIdentity] generates can be loaded
    again.  The public keys it returns are 32 bytes each; on an unlocked
    vault both key blobs are stored and the in-memory identity is not
    touched, on a locked vault the key pairs are kept in memory and the
    vault is as before; and in both cases the next
    [getOrCreateIdentity] returns the same public keys and generates
    nothing. *)
Theorem generateAndPersistIdentity_loads_again (w : World) :
  exists id w' id2 w'',
    generateAndPersistIdentity client w = (Ok id, w')
    /\ List.length (fromBase64 (ed25519PublicKey id)) = 32%nat
    /\ List.length (fromBase64 (x25519PublicKey id)) = 32%nat
    /\ (if vault_locked (vault w)
        then vault w' = vault w /\ MEMORY_IDENTITY w' <> None
        else stored w' ENC_KEY_ED25519 <> None
             /\ stored w' ENC_KEY_X25519 <> None
             /\ MEMORY_IDENTITY w' = MEMORY_IDENTITY w)
    /\ getOrCreateIdentity client w' = (Ok id2, w'')
    /\ ed25519PublicKey id2 = ed25519PublicKey id
    /\ x25519PublicKey id2 = x25519PublicKey id
    /\ signKeypairCalls w'' = signKeypairCalls w'
    /\ boxKeypairCalls w'' = boxKeypairCalls w'.
Proof.
  rewrite generateAndPersistIdentity_eq.
  assert (Hagain : exists id2 w'',
    getOrCreateIdentity client (generated w) = (Ok id2, w'')
    /\ ed25519PublicKey id2 = toBase64 (fst (fresh_ed w))
    /\ x25519PublicKey id2 = toBase64 (fst (fresh_x w))
    /\ signKeypairCalls w'' = signKeypairCalls (generated w)
    /\ boxKeypairCalls w'' = boxKeypairCalls (generated w)).
  { rewrite getOrCreateIdentity_eq. cbv zeta.
    destruct (same_inputs_with_secret_ensured (generated w)) as [Hm Hed Hx Hs Hb].
    rewrite Hm, Hed, Hx.
    destruct (vault_locked (vault w)) eqn:Hl.
    - destruct (generated_locked w Hl) as [Hnone Hmem].
      rewrite Hmem, !Hnone. eexists _, _. split; [reflexivity|]. auto.
    - destruct (generated_unlocked w Hl) as (Hged & Hgx & _).
      rewrite Hged, Hgx.
      destruct (MEMORY_IDENTITY (generated w));
        eexists _, _; (split; [reflexivity|]);
        cbn [ed25519PublicKey x25519PublicKey];
        rewrite !public_part by (apply filled_length); auto. }
  destruct Hagain as (id2 & w'' & Hcall & Hid1 & Hid2 & Hs & Hb).
  eexists _, _, id2, w''. split; [reflexivity|].
  cbn [ed25519PublicKey x25519PublicKey]. rewrite !fromBase64_toBase64.
  split; [apply fresh_ed_length|]. split; [apply fresh_x_length|].
  split; [|auto].
  destruct (vault_locked (vault w)) eqn:Hl.
  - destruct (generated_locked w Hl) as [_ Hmem]. rewrite Hmem.
    split; [|discriminate].
    world_cases w. cbn in Hl. subst locked. reflexivity.
  - destruct (generated_unlocked w Hl) as (Hged & Hgx & Hgm).
    rewrite Hged, Hgx. auto.
Qed.

(** ** The secure channel *)

Lemma encryptWithSession_eq (w : World) (sessionId : string) (s : Session)
    (plaintext : bytes) :
  sessions w !! sessionId = Some s ->
  List.length (key s) = crypto_secretbox_KEYBYTES ->
  encryptWithSession sessionId plaintext w
  = (Ok (mkSealed (toBase64 (draw (entropy w) crypto_secretbox_NONCEBYTES))
           (toBase64 (filled (List.length plaintext + crypto_secretbox_MACBYTES)
                        (crypto_secretbox_easy plaintext
                           (draw (entropy w) crypto_secretbox_NONCEBYTES) (key s))))
           (js_incr (sendSeq s))),
     set_sessions
       (alter (with_sendSeq (js_incr (sendSeq s))) sessionId (sessions w))
       (set_entropy (entropy w + crypto_secretbox_NONCEBYTES) w)).
Proof.
  intros Hs Hkey. unfold encryptWithSession, randomBytes, randombytes_buf.
  unfold_M. rewrite Hs.
  apply Nat.eqb_eq in Hkey. rewrite Hkey. reflexivity.
Qed.

(** X14.  On a live session with a 32-byte key, [encryptWithSession]
    succeeds; the frame carries the send counter after its increment
    (one more than before, below 2^53), which is also what the session
    records; the nonce is the next 24 bytes of the random stream and the
    ciphertext is 16 bytes longer than the plaintext.  Nothing else
    changes: not the other fields of the session, not the other
    sessions, not the stores. *)
Theorem encryptWithSession_sequence (w : World) (sessionId : string)
    (s : Session) (plaintext : bytes) :
  sessions w !! sessionId = Some s ->
  List.length (key s) = crypto_secretbox_KEYBYTES ->
  exists sealed w',
    encryptWithSession sessionId plaintext w = (Ok sealed, w')
    /\ seq sealed = js_incr (sendSeq s)
    /\ (sendSeq s < 2 ^ 53 -> seq sealed = sendSeq s + 1)
    /\ sessions w' !! sessionId = Some (with_sendSeq (seq sealed) s)
    /\ (forall other, other <> sessionId ->
          sessions w' !! other = sessions w !! other)
    /\ fromBase64 (nonceB64 sealed) = draw (entropy w) crypto_secretbox_NONCEBYTES
    /\ entropy w' = (entropy w + crypto_secretbox_NONCEBYTES)%nat
    /\ List.length (fromBase64 (ciphertextB64 sealed))
       = (List.length plaintext + crypto_secretbox_MACBYTES)%nat
    /\ same_stores w w'.
Proof.
  intros Hs Hkey. eexists _, _.
  split; [apply (encryptWithSession_eq w sessionId s plaintext Hs Hkey)|].
  cbn [seq nonceB64 ciphertextB64 sessions set_sessions entropy set_entropy].
  split; [reflexivity|].
  split.
  { intros Hlt. unfold js_incr. apply N.ltb_lt in Hlt. now rewrite Hlt. }
  split; [now rewrite lookup_alter_eq, Hs|].
  split; [intros other Hne; apply lookup_alter_ne; congruence|].
  rewrite !fromBase64_toBase64.
  split; [reflexivity|]. split; [reflexivity|].
  split; [apply filled_length|].
  repeat split.
Qed.

Lemma unknown_session (w : World) (sessionId : string) :
  sessions w !! sessionId = None ->
  (forall plaintext,
      encryptWithSession sessionId plaintext w
      = (Throw (Coded SESSION_NOT_FOUND), w))
  /\ (forall nonce ciphertext,
        decryptWithSession sessionId nonce ciphertext w
        = (Throw (Coded SESSION_NOT_FOUND), w))
  /\ (forall seq,
        recordIncomingSeq sessionId seq w = (Throw (Coded SESSION_NOT_FOUND), w))
  /\ (forall clientSigB64,
        str_truthy sessionId = true -> str_truthy clientSigB64 = true ->
        nmFinishHandshake (Some sessionId) (Some clientSigB64) w
        = (Throw (Coded SESSION_NOT_FOUND), w)).
Proof.
  intros Hs. split; [|split; [|split]].
  - intros plaintext. unfold encryptWithSession. unfold_M. now rewrite Hs.
  - intros nonce ciphertext. unfold decryptWithSession. unfold_M. now rewrite Hs.
  - intros seq. apply recordIncomingSeq_no_session, Hs.
  - intros sig Hid Hsig. rewrite nmFinishHandshake_outcomes.
    unfold param_falsy, param_text. rewrite Hid, Hsig. cbn [negb].
    change (default "" (Some sessionId)) with sessionId.
    now rewrite Hs.
Qed.

(** X15.  [nmCloseSession] of a non-empty id answers ok whether or not
    the session exists.  Afterwards the id is refused with
    [SESSION_NOT_FOUND] by [encryptWithSession] (before any random byte
    is drawn), [decryptWithSession], [recordIncomingSeq] and
    [nmFinishHandshake], which change nothing; the other sessions and
    the stores are as before the close. *)
Theorem nmCloseSession_closes (w : World) (sessionId : string) :
  str_truthy sessionId = true ->
  exists w',
    nmCloseSession (Some sessionId) w = (Ok ok_true, w')
    /\ (forall plaintext,
          encryptWithSession sessionId plaintext w'
          = (Throw (Coded SESSION_NOT_FOUND), w'))
    /\ (forall nonce ciphertext,
          decryptWithSession sessionId nonce ciphertext w'
          = (Throw (Coded SESSION_NOT_FOUND), w'))
    /\ (forall seq,
          recordIncomingSeq sessionId seq w'
          = (Throw (Coded SESSION_NOT_FOUND), w'))
    /\ (forall clientSigB64,
          str_truthy clientSigB64 = true ->
          nmFinishHandshake (Some sessionId) (Some clientSigB64) w'
          = (Throw (Coded SESSION_NOT_FOUND), w'))
    /\ (forall other, other <> sessionId ->
          sessions w' !! other = sessions w !! other)
    /\ same_stores w w'.
Proof.
  intros Hid. exists (set_sessions (delete sessionId (sessions w)) w).
  split.
  { unfold nmCloseSession, param_falsy, param_text. rewrite Hid.
    cbn [negb]. unfold_M. reflexivity. }
  assert (Hgone : sessions (set_sessions (delete sessionId (sessions w)) w)
                  !! sessionId = None) by apply lookup_delete_eq.
  destruct (unknown_session _ _ Hgone) as (He & Hd & Hr & Hf).
  split; [exact He|]. split; [exact Hd|]. split; [exact Hr|].
  split; [intros sig Hsig; now apply Hf|].
  split; [intros other Hne; apply lookup_delete_ne; congruence|].
  repeat split.
Qed.

(** X16.  [decryptWithSession] changes nothing, whatever it returns or
    throws.  A plaintext it returns is one libsodium opened from the
    ciphertext with the nonce given and the key of the session, the
    nonce being 24 bytes long; and a ciphertext shorter than the 16 bytes
    of the authentication tag is refused on a live session before
    libsodium is called. *)
Theorem decryptWithSession_reads_only
    (w : World) (sessionId : string) (nonce ciphertext : bytes) :
  snd (decryptWithSession sessionId nonce ciphertext w) = w
  /\ (forall plaintext,
        fst (decryptWithSession sessionId nonce ciphertext w) = Ok plaintext ->
        exists s opened,
          sessions w !! sessionId = Some s
          /\ crypto_secretbox_open_easy ciphertext nonce (key s) = Some opened
          /\ plaintext
             = filled (List.length ciphertext - crypto_secretbox_MACBYTES) opened
          /\ List.length nonce = crypto_secretbox_NONCEBYTES)
  /\ (is_Some (sessions w !! sessionId) ->
      (List.length ciphertext < crypto_secretbox_MACBYTES)%nat ->
      fst (decryptWithSession sessionId nonce ciphertext w) = Throw RangeError).
Proof.
  unfold decryptWithSession. unfold_M.
  destruct (sessions w !! sessionId) as [s|] eqn:Hs.
  - destruct (List.length ciphertext <? crypto_secretbox_MACBYTES)%nat eqn:Hshort.
    + split; [reflexivity|]. split; [discriminate | reflexivity].
    + apply Nat.ltb_ge in Hshort.
      destruct (Nat.eqb (List.length nonce) crypto_secretbox_NONCEBYTES) eqn:Hn;
        cbn [andb].
      * destruct (Nat.eqb (List.length (key s)) crypto_secretbox_KEYBYTES);
          [|split; [reflexivity|]; split; [discriminate | intros _ Hlt; lia]].
        destruct (crypto_secretbox_open_easy ciphertext nonce (key s))
          as [opened|] eqn:Hopen.
        -- split; [reflexivity|]. split; [|intros _ Hlt; lia].
           intros plaintext Heq. exists s, opened.
           apply Nat.eqb_eq in Hn. cbn [fst] in Heq.
           repeat split; congruence.
        -- split; [reflexivity|]. split; [discriminate | intros _ Hlt; lia].
      * split; [reflexivity|]. split; [discriminate | intros _ Hlt; lia].
  - split; [reflexivity|]. split; [discriminate|].
    intros [x Hx]. discriminate.
Qed.

(** ** The handshake *)

Lemma Buffer_from_base64_world (v : JsVal) (u u' : World) (r : Result bytes) :
  Buffer_from_base64 v u = (r, u') -> u' = u.
Proof.
  unfold Buffer_from_base64.
  destruct v; try (destruct (Buffer_from_value _)); unfold_M; congruence.
Qed.

Lemma Buffer_from_base64_any (v : JsVal) (u u' : World) (bs : bytes) :
  Buffer_from_base64 v u = (Ok bs, u) -> Buffer_from_base64 v u' = (Ok bs, u').
Proof.
  unfold Buffer_from_base64.
  destruct v; try (destruct (Buffer_from_value _)); unfold_M; congruence.
Qed.

Lemma raw_get_eq (u : World) (k : string) :
  exists r,
    client_call client
      (fun c => try_catch (encryptionGet k c) (fun _ => ret RNull)) u
    = (Ok r, u).
Proof.
  unfold encryptionGet. unfold_M.
  destruct (vault_locked (vault u)); [eexists; reflexivity|].
  destruct (vault_wraps (vault u)); eexists; reflexivity.
Qed.

(** What a handshake that succeeds has done. *)
Lemma handshake_with_key_ok (sk : bytes) (ext : string) (peer : bytes)
    (u u' : World) (hs : Handshake) :
  handshake_with_key sk ext peer u = (Ok hs, u') ->
  exists hostEph shared,
    List.length hostEph = 32%nat
    /\ List.length (fromBase64 ext) = 32%nat
    /\ hostEphemeralPubB64 hs = toBase64 hostEph
    /\ fromBase64 (signatureB64 hs)
       = filled crypto_sign_BYTES
           (crypto_sign_detached ((hostEph ++ fromBase64 ext) ++ peer) sk)
    /\ hs_sessionId hs = toHex (draw (entropy u + 32) 16)
    /\ sessions u'
       = <[hs_sessionId hs :=
             mkSession (filled 32 shared) ((hostEph ++ fromBase64 ext) ++ peer)
               0 0%Q false]> (sessions u)
    /\ same_stores u u'
    /\ signKeypairCalls u' = signKeypairCalls u
    /\ boxKeypairCalls u' = S (boxKeypairCalls u).
Proof.
  unfold handshake_with_key, crypto_box_keypair, createSession, randomBytes,
    randombytes_buf, concatBytes.
  unfold_M.
  cbn [fst snd entropy set_entropy set_boxKeypairCalls sessions set_sessions].
  destruct (Nat.eqb (List.length (fromBase64 ext)) 32) eqn:Hext; [|discriminate].
  destruct (crypto_scalarmult _ (fromBase64 ext)) as [shared|]; [|discriminate].
  destruct (Nat.eqb (List.length sk) crypto_sign_SECRETKEYBYTES); [|discriminate].
  intros Heq.
  match type of Heq with
  | (Ok ?x, ?y) = _ =>
      assert (Hhs : hs = x) by congruence;
      assert (Hu' : u' = y) by congruence
  end.
  clear Heq. subst hs u'.
  exists (filled crypto_box_PUBLICKEYBYTES
            (crypto_scalarmult_base (draw (entropy u) 32))), shared.
  cbn [hostEphemeralPubB64 signatureB64 hs_sessionId sessions set_sessions
       signKeypairCalls boxKeypairCalls set_entropy set_boxKeypairCalls].
  rewrite fromBase64_toBase64. apply Nat.eqb_eq in Hext.
  split; [apply filled_length|].
  repeat (split; [first [exact Hext | reflexivity]|]).
  split; [repeat split|]. split; reflexivity.
Qed.

Lemma beginHandshake_inv (w w' : World) (ext : string) (hs : Handshake) :
  beginHandshake client ext w = (Ok hs, w') ->
  exists sk peer,
    let u := snd (getOrCreateIdentity client w) in
    handshake_with_key sk ext peer u = (Ok hs, w')
    /\ truthy (opt_prop (client_data u) "publicKey") = true
    /\ Buffer_from_base64 (opt_prop (client_data u) "publicKey") u = (Ok peer, u).
Proof.
  unfold beginHandshake.
  destruct (getOrCreateIdentity_total w) as (id & u & Hid & _).
  rewrite (bind_ok _ _ _ _ _ Hid), Hid. cbn [snd].
  rewrite (bind_ok _ _ _ _ _ (getClientIdentityPublicKey_eq u)).
  unfold js_or.
  destruct (truthy (opt_prop (client_data u) "publicKey")) eqn:Ht;
    [|discriminate].
  rewrite Ht. cbn [negb].
  unfold bind at 1.
  destruct (Buffer_from_base64 (opt_prop (client_data u) "publicKey") u)
    as [[peer|e] u1] eqn:Hbuf; [|discriminate].
  pose proof (Buffer_from_base64_world _ _ _ _ Hbuf) as ->.
  destruct (raw_get_eq u "nm.identity.ed25519") as [r1 Hr1].
  destruct (raw_get_eq u "nm.identity.x25519") as [r2 Hr2].
  rewrite (bind_ok _ _ _ _ _ Hr1), (bind_ok _ _ _ _ _ Hr2).
  destruct (negb (blob_truthy (blob_of r1)) || negb (blob_truthy (blob_of r2))).
  - unfold bind at 1. unfold try_catch. unfold bind at 1.
    unfold __getMemIdentity, gets.
    destruct (MEMORY_IDENTITY u) as [m|]; [|discriminate].
    unfold bind at 1. unfold finalizeHandshakeWithMemoryIdentity.
    destruct (handshake_with_key (ed25519PrivateKeyBytes m) ext peer u)
      as [[r|e] u2] eqn:Hfin; [|discriminate].
    unfold ret. intros Heq.
    assert (r = hs) by congruence. assert (u2 = w') by congruence. subst r u2.
    exists (ed25519PrivateKeyBytes m), peer. auto.
  - intros Hmain. eexists _, peer. eauto.
Qed.

Lemma client_data_kept (w : World) :
  client_data (snd (getOrCreateIdentity client w)) = client_data w.
Proof. unfold client_data. rewrite getOrCreateIdentity_keeps; auto. Qed.

(** X17.  A [beginHandshake] that returns has registered a session under
    the id it returns: its key is 32 bytes long and its transcript
    is the host's ephemeral public key (32 bytes, the one returned),
    then the extension's ephemeral key (32 bytes, as given), then the
    key decoded from the peer record, which was pinned; both counters
    are 0 and the session is not verified.  The signature returned is 64
    bytes long; the other sessions, the peer record and the local
    storage are as before. *)
Theorem beginHandshake_registers_session
    (w w' : World) (ext : string) (hs : Handshake) :
  beginHandshake client ext w = (Ok hs, w') ->
  exists hostEph peer k,
    sessions w' !! hs_sessionId hs
    = Some (mkSession k ((hostEph ++ fromBase64 ext) ++ peer) 0 0%Q false)
    /\ List.length k = 32%nat
    /\ hostEphemeralPubB64 hs = toBase64 hostEph
    /\ List.length hostEph = 32%nat
    /\ List.length (fromBase64 ext) = 32%nat
    /\ truthy (opt_prop (client_data w) "publicKey") = true
    /\ Buffer_from_base64 (opt_prop (client_data w) "publicKey") w = (Ok peer, w)
    /\ List.length (fromBase64 (signatureB64 hs)) = 64%nat
    /\ (forall other, other <> hs_sessionId hs ->
          sessions w' !! other = sessions w !! other)
    /\ client_data w' = client_data w
    /\ localStorage w' = localStorage w.
Proof.
  intros Hcall.
  destruct (beginHandshake_inv w w' ext hs Hcall) as (sk & peer & Hinv).
  cbv zeta in Hinv. destruct Hinv as (Hhs & Ht & Hbuf).
  destruct (getOrCreateIdentity_total w) as (id & u & Hid & [Hls Hss _ _]).
  rewrite Hid in Hhs, Ht, Hbuf. cbn [snd] in Hhs, Ht, Hbuf.
  pose proof (client_data_kept w) as Hdata. rewrite Hid in Hdata. cbn [snd] in Hdata.
  rewrite Hdata in Ht, Hbuf.
  destruct (handshake_with_key_ok sk ext peer u w' hs Hhs)
    as (hostEph & shared & Hhost & Hext & Hpub & Hsig & Hsid & Hsess
        & (Hv & Hl & Hm) & _ & _).
  exists hostEph, peer, (filled 32 shared).
  split; [rewrite Hsess; apply lookup_insert_eq|].
  split; [apply filled_length|].
  split; [exact Hpub|]. split; [exact Hhost|]. split; [exact Hext|].
  split; [exact Ht|].
  split.
  { apply (Buffer_from_base64_any _ u), Hbuf. }
  split; [rewrite Hsig; apply filled_length|].
  split.
  { intros other Hne. rewrite Hsess, lookup_insert_ne by congruence.
    now rewrite Hss. }
  split; [|congruence].
  rewrite <- Hdata. unfold client_data, stored. now rewrite Hv.
Qed.

Lemma beginHandshake_unpaired (w : World) (ext : string) :
  truthy (opt_prop (client_data w) "publicKey") = false ->
  beginHandshake client ext w
  = (Throw (Coded CLIENT_NOT_PAIRED), snd (getOrCreateIdentity client w)).
Proof.
  intros Ht. unfold beginHandshake.
  pose proof (client_data_kept w) as Hdata.
  destruct (getOrCreateIdentity_total w) as (id & u & Hid & _).
  rewrite Hid in *. cbn [snd] in *.
  rewrite (bind_ok _ _ _ _ _ Hid).
  rewrite (bind_ok _ _ _ _ _ (getClientIdentityPublicKey_eq u)).
  rewrite Hdata. unfold js_or. rewrite Ht. reflexivity.
Qed.

(** X18.  Without a pinned peer -- no peer record, a record that does
    not parse, a record without a key, or a vault that rejects the read
    -- [beginHandshake] fails with [CLIENT_NOT_PAIRED]; no session is
    created, and the local storage, the flag and the peer record are as
    before. *)
Theorem beginHandshake_requires_pinned_peer (w : World) (ext : string) :
  truthy (opt_prop (client_data w) "publicKey") = false ->
  exists w',
    beginHandshake client ext w = (Throw (Coded CLIENT_NOT_PAIRED), w')
    /\ sessions w' = sessions w
    /\ localStorage w' = localStorage w
    /\ nativeMessagingEnabled w' = nativeMessagingEnabled w
    /\ client_data w' = client_data w.
Proof.
  intros Ht. eexists. split; [apply beginHandshake_unpaired, Ht|].
  pose proof (client_data_kept w) as Hdata.
  destruct (getOrCreateIdentity_total w) as (id & u & Hid & [Hl Hs Hf _]).
  rewrite Hid in *. cbn [snd] in *. auto.
Qed.

(** X19.  On a vault that takes the writes, [nmResetPairing] disconnects
    the extension.  It throws nothing and reports how many sessions there
    were; afterwards there is none, so that the channel refuses every
    session id, and the peer record in the vault is overwritten with the
    empty text, so that [beginHandshake] fails with [CLIENT_NOT_PAIRED];
    the identity it returns is the one the next [getOrCreateIdentity]
    returns, without generating another. *)
Theorem nmResetPairing_disconnects (w : World) :
  vault_locked (vault w) = false ->
  exists r w',
    nmResetPairing client w = (Ok r, w')
    /\ clearedSessions r = size (sessions w)
    /\ sessions w' = ∅
    /\ (forall sessionId plaintext,
          encryptWithSession sessionId plaintext w'
          = (Throw (Coded SESSION_NOT_FOUND), w'))
    /\ vault_entries (vault w') !! ENC_KEY_CLIENT_DATA = Some ""
    /\ (forall ext,
          fst (beginHandshake client ext w') = Throw (Coded CLIENT_NOT_PAIRED))
    /\ (exists id w'',
          getOrCreateIdentity client w' = (Ok id, w'')
          /\ ed25519PublicKey id = ed25519PublicKey (newIdentity r)
          /\ x25519PublicKey id = x25519PublicKey (newIdentity r)
          /\ signKeypairCalls w'' = signKeypairCalls w'
          /\ boxKeypairCalls w'' = boxKeypairCalls w').
Proof.
  intros Hunlocked.
  unfold nmResetPairing, clearAllSessions.
  unfold bind at 1 2 3. unfold gets, modify. cbv beta iota zeta. unfold ret at 1.
  unfold bind at 1.
  set (u := set_sessions ∅ w).
  assert (Hu : vault_locked (vault u) = false) by exact Hunlocked.
  pose proof (resetIdentity_outcome u) as Hreset. cbv zeta in Hreset.
  pose proof (resetIdentity_eq u) as Hsame.
  pose proof (reset_overwrites u Hu) as Hover. cbv zeta in Hover.
  rewrite Hreset in Hsame. rewrite Hreset.
  set (w2 := with_secret (ensured (cleared u))) in *.
  destruct Hover as (_ & Hentry & Hnull & _).
  eexists _, _. split; [reflexivity|].
  cbn [clearedSessions newIdentity].
  destruct (cleared_frame u) as (Hs & _).
  destruct (untouched_with_secret_ensured (cleared u)) as [_ Hs2 _ _].
  destruct (untouched_generated w2) as [_ Hs3 _ _].
  fold w2 in Hs2.
  assert (Hnone : sessions (generated w2) = ∅) by congruence.
  split; [reflexivity|]. split; [exact Hnone|].
  split.
  { intros sessionId plaintext. unfold encryptWithSession. unfold_M.
    rewrite Hnone, lookup_empty. reflexivity. }
  split; [exact Hentry|].
  split.
  { intros ext. rewrite beginHandshake_unpaired; [reflexivity|].
    now rewrite Hnull. }
  destruct (getOrCreateIdentity_again _ _ _ (eq_sym Hsame))
    as (id2 & w'' & Hcall & Hrest).
  exists id2, w''. split; [exact Hcall | exact Hrest].
Qed.

Lemma nmFinishHandshake_verify_ok
    (sessionId clientSigB64 : string) (session : Session) (pinned : JsVal)
    (w w' : World) (r : OkResponse) :
  nmFinishHandshake_verify sessionId clientSigB64 session pinned w = (Ok r, w') ->
  exists pub,
    truthy pinned = true
    /\ Buffer_from_base64 pinned w = (Ok pub, w)
    /\ List.length pub = crypto_sign_PUBLICKEYBYTES
    /\ List.length (fromBase64 clientSigB64) = crypto_sign_BYTES
    /\ transcript session <> []
    /\ crypto_sign_verify_detached (fromBase64 clientSigB64)
         ((utf8 CLIENT_FINISH ++ utf8 sessionId) ++ transcript session) pub
       = true
    /\ w' = set_sessions
              (alter (with_clientVerified true) sessionId (sessions w)) w.
Proof.
  unfold nmFinishHandshake_verify.
  destruct (truthy pinned) eqn:Ht; [|discriminate]. cbn [negb].
  unfold bind at 1.
  destruct (Buffer_from_base64 pinned w) as [[pub|e] u] eqn:Hbuf; [|discriminate].
  pose proof (Buffer_from_base64_world _ _ _ _ Hbuf) as ->.
  destruct (Nat.eqb (List.length pub) crypto_sign_PUBLICKEYBYTES) eqn:Hpub;
    [|discriminate].
  destruct (Nat.eqb (List.length (fromBase64 clientSigB64)) crypto_sign_BYTES)
    eqn:Hsig; [|discriminate].
  destruct (Nat.eqb (List.length (transcript session)) 0) eqn:Htr; [discriminate|].
  cbn [negb]. unfold concatBytes.
  destruct (crypto_sign_verify_detached _ _ pub) eqn:Hverify;
    cbn [negb]; unfold_M; [|discriminate].
  intros Heq. exists pub.
  apply Nat.eqb_eq in Hpub, Hsig. apply Nat.eqb_neq in Htr.
  repeat (split; [first [assumption | reflexivity]|]).
  split; [intros Hnil; now rewrite Hnil in Htr|].
  split; [exact Hverify | congruence].
Qed.

(** X20.  [nmFinishHandshake] marks a session as verified only for a
    signature that verifies: when the check of the pinned key returns,
    the key decodes to 32 bytes, the signature to 64 bytes, and
    libsodium has accepted the signature over the client-finish tag,
    then the session id, then the transcript of the session, under that
    key.  The only change is the flag of that session. *)
Theorem nmFinishHandshake_verify_sound
    (sessionId clientSigB64 : string) (session : Session) (pinned : JsVal)
    (w w' : World) (r : OkResponse) :
  nmFinishHandshake_verify sessionId clientSigB64 session pinned w = (Ok r, w') ->
  exists pub,
    truthy pinned = true
    /\ Buffer_from_base64 pinned w = (Ok pub, w)
    /\ List.length pub = 32%nat
    /\ List.length (fromBase64 clientSigB64) = 64%nat
    /\ crypto_sign_verify_detached (fromBase64 clientSigB64)
         ((utf8 CLIENT_FINISH ++ utf8 sessionId) ++ transcript session) pub
       = true
    /\ (forall s, sessions w !! sessionId = Some s ->
          sessions w' !! sessionId = Some (with_clientVerified true s))
    /\ (forall other, other <> sessionId ->
          sessions w' !! other = sessions w !! other)
    /\ same_stores w w'.
Proof.
  intros Hcall.
  destruct (nmFinishHandshake_verify_ok _ _ _ _ _ _ _ Hcall)
    as (pub & Ht & Hbuf & Hpub & Hsig & _ & Hverify & ->).
  exists pub. repeat (split; [assumption|]).
  split; [intros s Hs; cbn; now rewrite lookup_alter_eq, Hs|].
  split; [intros other Hne; cbn; apply lookup_alter_ne; congruence|].
  repeat split.
Qed.

(** X21.  Once the signature check has marked a live session as
    verified, [nmFinishHandshake] for that session answers ok for any
    non-empty signature, without checking it and without changing
    anything. *)
Theorem nmFinishHandshake_verified_once
    (sessionId clientSigB64 : string) (session : Session) (pinned : JsVal)
    (w w' : World) (r : OkResponse) :
  str_truthy sessionId = true ->
  sessions w !! sessionId = Some session ->
  nmFinishHandshake_verify sessionId clientSigB64 session pinned w = (Ok r, w') ->
  forall anySigB64,
    str_truthy anySigB64 = true ->
    nmFinishHandshake (Some sessionId) (Some anySigB64) w' = (Ok ok_true, w').
Proof.
  intros Hid Hs Hcall sig Hsig.
  destruct (nmFinishHandshake_verify_ok _ _ _ _ _ _ _ Hcall)
    as (_ & _ & _ & _ & _ & _ & _ & ->).
  rewrite nmFinishHandshake_outcomes.
  unfold param_falsy, param_text. rewrite Hid, Hsig. cbn [negb].
  change (default "" (Some sessionId)) with sessionId.
  cbn [sessions set_sessions]. rewrite lookup_alter_eq, Hs. reflexivity.
Qed.

(** ** Pinning a peer *)


Lemma getOrCreatePairingSecret_frame (w w' : World) (r : Result string) :
  getOrCreatePairingSecret client w = (r, w') ->
  client_data w' = client_data w /\ cache w' = cache w
  /\ sessions w' = sessions w.
Proof.
  rewrite getOrCreatePairingSecret_eq.
  destruct (stored w ENC_KEY_PAIRING_SECRET) as [s|].
  - destruct (Nat.eqb _ 32); intros [= <- <-]; auto.
  - destruct (vault_locked (vault w)); intros [= <- <-]; auto.
    repeat split. unfold client_data.
    rewrite stored_inserted_ne by discriminate. reflexivity.
Qed.

(** X23.  [nmGetAppIdentity] refuses a non-empty token whose upper-casing
    by the runtime differs from that of the pairing token of the host's
    identity: it fails with [INVALID_PAIRING_TOKEN], and the peer record,
    the cache slot and the sessions are as before. *)
Theorem nmGetAppIdentity_refuses_wrong_token
    (w w1 w2 : World) (id : Identity) (shown token peer : string) :
  getOrCreateIdentity client w = (Ok id, w1) ->
  getPairingToken client (ed25519PublicKey id) w1 = (Ok shown, w2) ->
  str_truthy token = true ->
  str_truthy peer = true ->
  String.eqb (toUpperCase token) (toUpperCase shown) = false ->
  nmGetAppIdentity client (Some token) (Some peer) w
  = (Throw (Coded INVALID_PAIRING_TOKEN), w2)
  /\ client_data w2 = client_data w
  /\ cache w2 = cache w
  /\ sessions w2 = sessions w.
Proof.
  intros Hid Htoken Ht Hp Hdiff.
  assert (Hverify : verifyPairingToken client (ed25519PublicKey id) token w1
                    = (Ok false, w2)).
  { unfold verifyPairingToken. rewrite Ht. cbn [negb].
    rewrite (bind_ok _ _ _ _ _ Htoken). unfold ret. now rewrite Hdiff. }
  split.
  { unfold nmGetAppIdentity, param_falsy, param_text. rewrite Ht, Hp.
    cbn [negb].
    change (default "" (Some token)) with token.
    rewrite (bind_ok _ _ _ _ _ Hid), (bind_ok _ _ _ _ _ Hverify).
    reflexivity. }
  pose proof (client_data_kept w) as Hdata.
  destruct (getOrCreateIdentity_total w) as (id' & u & Hid' & [Hl Hs _ _]).
  rewrite Hid' in Hdata. cbn [snd] in Hdata.
  assert (u = w1) by congruence. subst u.
  unfold getPairingToken in Htoken. unfold bind at 1 in Htoken.
  destruct (getOrCreatePairingSecret client w1) as [[secret|e] u] eqn:Hsecret;
    [|discriminate].
  destruct (getOrCreatePairingSecret_frame _ _ _ Hsecret) as (Hd & Hc & Hss).
  unfold lift in Htoken. assert (u = w2) by congruence. subst u.
  unfold cache in *. repeat split; congruence.
Qed.

(** X24.  A vault that rejects reads is read as a vault without a peer:
    while the vault is locked, [getClientIdentityPublicKey] and
    [getClientPairingState] return null, every confirmation fails with
    [NO_PENDING_PAIRING], [beginHandshake] fails with
    [CLIENT_NOT_PAIRED], and no peer can be pinned; only the cache slot
    still tells the confirmed key. *)
Theorem locked_vault_reads_as_unpaired (w : World) :
  vault_locked (vault w) = true ->
  getClientIdentityPublicKey client w = (Ok JNull, w)
  /\ getClientPairingState client w = (Ok JNull, w)
  /\ (forall k, confirmClientPairing client k w
                = (Throw (Coded NO_PENDING_PAIRING), w))
  /\ (forall ext,
        fst (beginHandshake client ext w) = Throw (Coded CLIENT_NOT_PAIRED))
  /\ (forall k state, exists e,
        setClientIdentityPublicKey client k state w = (Throw e, w))
  /\ (forall k, cache w = Some k -> str_truthy k = true ->
        getCachedClientIdentityPublicKey w = (Ok (Some k), w)).
Proof.
  intros Hl.
  assert (Hnull : client_data w = JNull).
  { unfold client_data, stored. now rewrite Hl. }
  split; [rewrite getClientIdentityPublicKey_eq, Hnull; reflexivity|].
  split; [rewrite getClientPairingState_eq, Hnull; reflexivity|].
  split; [intros k; rewrite confirmClientPairing_eq, Hnull; reflexivity|].
  split.
  { intros ext. rewrite beginHandshake_unpaired; [reflexivity|].
    now rewrite Hnull. }
  split.
  { intros k state. rewrite setClientIdentityPublicKey_eq, Hl.
    destruct (negb (str_truthy k)); eexists; reflexivity. }
  intros k Hc Hk. unfold getCachedClientIdentityPublicKey. unfold_M.
  unfold cache in Hc. now rewrite Hc, Hk.
Qed.

End Further.

(** ** The code on concrete inputs *)

Import Double.
Import Scenario.

(** Closes a conjunction of facts that hold by running the code. *)
Ltac by_evaluation :=
  repeat match goal with
         | |- _ /\ _ => split
         end;
  first [reflexivity | eexists; reflexivity | vm_compute; reflexivity].

Lemma bytes_eqb_refl (bs : bytes) : bytes_eqb bs bs = true.
Proof.
  induction bs as [|b bs IH]; [reflexivity|].
  cbn. rewrite IH, Byte.byte_dec_lb; reflexivity.
Qed.

Lemma firstn_exact {A} (l m : list A) (n : nat) :
  List.length l = n -> firstn n (l ++ m) = l.
Proof.
  intros <-. rewrite firstn_app, Nat.sub_diag, firstn_all. cbn [firstn].
  apply app_nil_r.
Qed.

Lemma skipn_exact {A} (l m : list A) (n : nat) :
  List.length l = n -> skipn n (l ++ m) = m.
Proof.
  intros <-. rewrite skipn_app, Nat.sub_diag, skipn_all. reflexivity.
Qed.

Lemma seal_opens : secretbox_opens.
Proof.
  intros m nonce k _ _. cbn. unfold open, seal.
  rewrite skipn_exact, firstn_exact by apply filled_length.
  rewrite bytes_eqb_refl. reflexivity.
Qed.

Lemma seal_length : secretbox_length.
Proof.
  intros m nonce k. cbn. unfold seal.
  rewrite length_app. unfold tag16. rewrite filled_length.
  unfold crypto_secretbox_MACBYTES. lia.
Qed.

(** The stand-in for [toUpperCase] leaves pairing codes as they are, as the
    runtime's does. *)
Lemma ascii_toUpperCase_keeps_codes : toUpperCase_keeps_codes.
Proof.
  intros s Hs. apply toUpperCase_ascii_fixes, pairing_code_chars, Hs.
Qed.

(** The happy path of the specification's first scenario, on the session
    manager's own begin-handshake: the peer's signature over the tagged
    transcript marks the session verified. *)
Example handshake_verified :
  fst (nmFinishHandshake_verify sid goodSig session0 (JStr peerE) live) = Ok ok_true
  /\ (clientVerified
        <$> sessions (run (nmFinishHandshake_verify sid goodSig session0 (JStr peerE)) live)
            !! sid) = Some true.
Proof. by_evaluation. Qed.

(** The second scenario: a wrong pairing token is refused and no peer is
    pinned. *)
Example wrong_token_rejected :
  fst (nmGetAppIdentity client (Some "000000-0000") (Some peerE) fresh)
  = Throw (Coded INVALID_PAIRING_TOKEN)
  /\ client_data (run (nmGetAppIdentity client (Some "000000-0000") (Some peerE)) fresh)
     = JNull.
Proof. by_evaluation. Qed.

(** *** C1 *)

(** C1 (the code departs from the documented derivation).  For the 32-byte
    secret and key of the test suite, [getPairingCode] returns
    [483352-8830], whereas the code formatted from
    [sha256(tag ‖ secret ‖ pk)] is [934011-B240]; and a secret that differs
    from the first one in its last 23 bytes gets the same code, whereas the
    documented derivation tells the two apart. *)
Theorem getPairingCode_departs_from_documented :
  List.length (fromBase64 sampleSecret) = 32%nat
  /\ List.length (fromBase64 samplePublicKey) = 32%nat
  /\ getPairingCode samplePublicKey sampleSecret = Ok "483352-8830"
  /\ documented_pairing_code (fromBase64 sampleSecret) (fromBase64 samplePublicKey)
     = "934011-B240"
  /\ getPairingCode samplePublicKey otherSecret = Ok "483352-8830"
  /\ documented_pairing_code (fromBase64 otherSecret) (fromBase64 samplePublicKey)
     = "937103-6A6F".
Proof. by_evaluation. Qed.

(** *** C2 *)

(** C2 (the code throws before it pins).  With the pairing code the host
    shows, [nmGetAppIdentity] for a first extension E ends in the
    [TypeError] of the argument-less [getClientIdentityPublicKey()] and
    stores no peer record; with E pinned, the call for another extension F
    ends in the same [TypeError], not in [PeerAlreadyPaired]. *)
Theorem nmGetAppIdentity_throws_before_pinning :
  fst (verifyPairingToken client hostKey goodToken hosted) = Ok true
  /\ fst (nmGetAppIdentity client (Some goodToken) (Some peerE) fresh)
     = Throw TypeError
  /\ client_data (run (nmGetAppIdentity client (Some goodToken) (Some peerE)) fresh)
     = JNull
  /\ opt_prop (client_data pinnedE) "publicKey" = JStr peerE
  /\ fst (nmGetAppIdentity client (Some goodToken) (Some peerF) pinnedE)
     = Throw TypeError.
Proof. by_evaluation. Qed.

(** *** C3 *)

(** C3 (the code throws before it verifies).  On a live session that is not
    verified, [nmFinishHandshake] ends in the [TypeError] of the
    argument-less [getClientIdentityPublicKey()] -- for a forged signature
    and for the signature the peer owes alike -- and the session is still
    found afterwards: the handler reaches neither its checks nor its
    [closeSession].  The statements that follow the load do close the
    session for a forged signature, as the claim says, once they are given
    the pinned key. *)
Theorem nmFinishHandshake_throws_before_verifying :
  sessions live !! sid = Some session0
  /\ clientVerified session0 = false
  /\ nmFinishHandshake (Some sid) (Some forgedSig) live = (Throw TypeError, live)
  /\ getSession sid live = (Ok (Some session0), live)
  /\ nmFinishHandshake (Some sid) (Some goodSig) live = (Throw TypeError, live)
  /\ nmFinishHandshake_verify sid forgedSig session0 (JStr peerE) live
     = (Throw (Coded CLIENT_SIGNATURE_INVALID), dropped)
  /\ getSession sid dropped = (Ok None, dropped).
Proof. by_evaluation. Qed.

(** *** C4 *)

(** C4, counterexample.  The fourth scenario of the specification: after
    sequence number 5, a replay of 5 fails with [ReplayDetected] and the
    session is still found -- number 6 is accepted next; and a tampered
    frame fails with [DecryptFailed] and the session is still found. *)
Lemma cryptographic_failure_keeps_session :
  fst (recordIncomingSeq sid five live) = Ok tt
  /\ recordIncomingSeq sid five received5 = (Throw (Coded REPLAY_DETECTED), received5)
  /\ is_Some (sessions received5 !! sid)
  /\ fst (recordIncomingSeq sid six received5) = Ok tt
  /\ decryptWithSession sid (fromBase64 (nonceB64 frame)) tampered sent
     = (Throw (Coded DECRYPT_FAILED), sent)
  /\ is_Some (sessions sent !! sid).
Proof. by_evaluation. Qed.

(** C4, witness: the forged signature, the tampered frame and the replay
    above. *)
Lemma cryptographic_failures_witness :
  (sessions dropped !! sid = None /\ same_stores live dropped)
  /\ (is_Some (sessions sent !! sid) /\ sent = sent)
  /\ (is_Some (sessions received5 !! sid) /\ received5 = received5).
Proof.
  split; [|split].
  - apply (proj1 (cryptographic_failures sid live dropped) forgedSig session0 (JStr peerE)).
    reflexivity.
  - apply (proj1 (proj2 (cryptographic_failures sid sent sent))
             (fromBase64 (nonceB64 frame)) tampered).
    reflexivity.
  - apply (proj2 (proj2 (cryptographic_failures sid received5 received5)) five).
    reflexivity.
Defined.

(** *** C5 *)

(** C5, counterexample.  On a fresh session [recordIncomingSeq] accepts
    1.5, which is not an integer, and records it. *)
Lemma recordIncomingSeq_accepts_fraction :
  sessions live !! sid = Some session0
  /\ fst (recordIncomingSeq sid three_halves live) = Ok tt
  /\ (lastRecvSeq <$> sessions (run (recordIncomingSeq sid three_halves) live) !! sid)
     = Some (3 # 2)%Q
  /\ ~ (exists z : Z, (3 # 2 == inject_Z z)%Q).
Proof.
  split; [|split; [|split]]; try reflexivity.
  intros [z Hz]. unfold Qeq, inject_Z in Hz. cbn in Hz. lia.
Qed.

(** C5, witness: the live session, presented with 5, 5, 1.5 and 6. *)
Lemma recordIncomingSeq_replay_protection_witness :
  sessions live !! sid = Some session0
  /\ (recordIncomingSeq sid three_halves live
        = (Throw (Coded REPLAY_DETECTED), live)
      <-> (3 # 2 <= lastRecvSeq session0)%Q)
  /\ StronglySorted Qlt (accepted_seqs sid [five; five; three_halves; six] live).
Proof.
  assert (Hlive : sessions live !! sid = Some session0) by reflexivity.
  pose proof (recordIncomingSeq_replay_protection live sid session0 three_halves
                [five; five; three_halves; six] Hlive) as (_ & Hfinite & Hsorted).
  split; [exact Hlive|].
  split; [exact (proj1 (Hfinite (3 # 2)%Q eq_refl)) | exact Hsorted].
Defined.

(** *** C6 *)



(** *** C7 *)

(** C7, counterexample.  Pin E, confirm E, pin E again: the stored record
    is PENDING and the cache slot holds E.  And with the client of the test
    suite, whose writes are rejected: the confirmation of the pinned E
    fails, the record is still PENDING, and the cache slot holds E. *)
Lemma pending_record_with_cached_key :
  cache hosted = None
  /\ run_ops TheClient [PinPeer peerE PENDING; ConfirmPeer peerE; PinPeer peerE PENDING]
       hosted = repinnedE
  /\ opt_prop (client_data repinnedE) "pairingState" = JStr PENDING
  /\ cache repinnedE = Some peerE
  /\ cache pinnedE = None
  /\ fst (confirmClientPairing (Some rejecting) peerE pinnedE)
     = Throw (VaultRejected vault_locked_message)
  /\ opt_prop (client_data (run (confirmClientPairing (Some rejecting) peerE) pinnedE))
       "pairingState" = JStr PENDING
  /\ cache (run (confirmClientPairing (Some rejecting) peerE) pinnedE) = Some peerE.
Proof. by_evaluation. Qed.

(** C7, witness: confirming the pinned E fills the slot with E, also when
    the write is rejected; pins and a reset leave it empty. *)
Lemma cache_slot_lifecycle_witness :
  cache (snd (pairing_step TheClient (ConfirmPeer peerE) pinnedE)) = Some peerE
  /\ (cache (snd (pairing_step rejecting (ConfirmPeer peerE) pinnedE)) = Some peerE
      /\ (fst (pairing_step rejecting (ConfirmPeer peerE) pinnedE) = Ok tt
          <-> rejects_writes rejecting = false)
      /\ (rejects_writes rejecting = true ->
          fst (pairing_step rejecting (ConfirmPeer peerE) pinnedE)
          = Throw (VaultRejected vault_locked_message)
          /\ client_data (snd (pairing_step rejecting (ConfirmPeer peerE) pinnedE))
             = client_data pinnedE))
  /\ cache (run_ops TheClient
              [PinPeer peerE PENDING; PinPeer peerF PENDING; ResetIdentity;
               PinPeer peerF PENDING]
              hosted) = None.
Proof.
  split; [|split].
  - apply (proj1 (proj2 (proj2 (cache_slot_lifecycle TheClient)))). reflexivity.
  - apply (proj1 (proj2 (cache_slot_lifecycle rejecting))); reflexivity.
  - apply (proj2 (proj2 (proj2 (proj2 (cache_slot_lifecycle TheClient)))));
      reflexivity.
Defined.

(** *** C8 *)

(** C8, counterexample.  A store that holds both key blobs but neither
    the creation date nor the pairing secret: [getOrCreateIdentity] loads
    the keys and generates no key pair. *)
Lemma missing_creation_date_generates_nothing :
  stored dateless ENC_KEY_CREATION_DATE = None
  /\ stored dateless ENC_KEY_PAIRING_SECRET = None
  /\ signKeypairCalls (run (getOrCreateIdentity client) dateless)
     = signKeypairCalls dateless
  /\ boxKeypairCalls (run (getOrCreateIdentity client) dateless)
     = boxKeypairCalls dateless
  /\ fst (getOrCreateIdentity client dateless)
     = Ok (mkIdentity hostKey
             (x25519PublicKey
                (from_ok (mkIdentity "" "" "") (fst (getOrCreateIdentity client fresh))))
             date0).
Proof. by_evaluation. Qed.

(** *** C9 *)

(** C9, witness: the frame sealed on the live session opens to the
    plaintext. *)
Lemma decryptWithSession_encryptWithSession_witness :
  decryptWithSession sid (fromBase64 (nonceB64 frame))
    (fromBase64 (ciphertextB64 frame)) sent
  = (Ok hello, sent).
Proof.
  apply (decryptWithSession_encryptWithSession live sent sid hello frame
           seal_opens seal_length).
  reflexivity.
Defined.

(** *** C10 *)

(** C10, counterexample.  The vault holds the record of E, CONFIRMED, and
    is locked: [confirmClientPairing] raises [NoPendingPairing] for E,
    though a record with a key exists, and for F, though the stored key
    differs from F.  And with the client of the test suite, whose writes
    are rejected, the confirmation of the pinned E does not succeed. *)
Lemma confirmClientPairing_record_not_read :
  vault_entries (vault lockedPaired) !! ENC_KEY_CLIENT_DATA
  = vault_entries (vault confirmedE) !! ENC_KEY_CLIENT_DATA
  /\ opt_prop (client_data confirmedE) "publicKey" = JStr peerE
  /\ confirmClientPairing client peerE lockedPaired
     = (Throw (Coded NO_PENDING_PAIRING), lockedPaired)
  /\ confirmClientPairing client peerF lockedPaired
     = (Throw (Coded NO_PENDING_PAIRING), lockedPaired)
  /\ opt_prop (client_data pinnedE) "publicKey" = JStr peerE
  /\ fst (confirmClientPairing (Some rejecting) peerE pinnedE)
     = Throw (VaultRejected vault_locked_message).
Proof. by_evaluation. Qed.

(** C10, witness: a record that is already CONFIRMED and a record without
    [pairingState] are both confirmed; another key is a mismatch; no record
    is no pending pairing, and so is a record in a locked vault; a rejected
    write is the client's error. *)
Lemma confirmClientPairing_outcome_witness :
  opt_prop (client_data confirmedE) "pairingState" = JStr CONFIRMED
  /\ fst (confirmClientPairing client peerE confirmedE) = Ok tt
  /\ opt_prop (client_data stateless) "pairingState" = JUndefined
  /\ fst (confirmClientPairing client peerE stateless) = Ok tt
  /\ fst (confirmClientPairing client peerF confirmedE)
     = Throw (Coded CLIENT_KEY_MISMATCH)
  /\ fst (confirmClientPairing client peerE hosted)
     = Throw (Coded NO_PENDING_PAIRING)
  /\ fst (confirmClientPairing client peerE lockedPaired)
     = Throw (Coded NO_PENDING_PAIRING)
  /\ fst (confirmClientPairing (Some rejecting) peerE pinnedE)
     = Throw (VaultRejected vault_locked_message).
Proof.
  destruct (confirmClientPairing_outcome TheClient confirmedE peerE)
    as (_ & _ & Hok & _ & _ & _ & _ & Hsame & _).
  assert (Hconfirmed : fst (confirmClientPairing client peerE confirmedE) = Ok tt).
  { apply Hok. repeat split. }
  split; [reflexivity|].
  split; [exact Hconfirmed|].
  split; [reflexivity|].
  split; [refine (eq_trans (Hsame stateless _) Hconfirmed); reflexivity|].
  split.
  { apply (proj1 (proj2 (confirmClientPairing_outcome TheClient confirmedE peerF))).
    split; [reflexivity | vm_compute; discriminate]. }
  split.
  { apply (proj1 (confirmClientPairing_outcome TheClient hosted peerE)).
    reflexivity. }
  split.
  { apply (confirmClientPairing_outcome TheClient lockedPaired peerE). reflexivity. }
  apply (proj1 (proj2 (proj2 (proj2
           (confirmClientPairing_outcome rejecting pinnedE peerE))))).
  repeat split.
Defined.

(** ** The further properties on concrete inputs *)

(** X4, witness: the first secret of the fresh host. *)
Lemma getOrCreatePairingSecret_stable_witness :
  List.length (fromBase64 firstSecret) = 32%nat
  /\ stored secured ENC_KEY_PAIRING_SECRET = Some firstSecret
  /\ getOrCreatePairingSecret client secured = (Ok firstSecret, secured).
Proof.
  apply (getOrCreatePairingSecret_stable fresh secured firstSecret).
  reflexivity.
Defined.

(** X5, witness: a stored secret of three bytes. *)
Lemma getOrCreatePairingSecret_failures_witness :
  vault badSecret = vault badSecret
  /\ ((Coded INVALID_PAIRING_SECRET = Coded INVALID_PAIRING_SECRET
       /\ badSecret = badSecret
       /\ (exists s, stored badSecret ENC_KEY_PAIRING_SECRET = Some s
                     /\ List.length (fromBase64 s) <> 32%nat)
       /\ (forall publicKey,
             getPairingToken client publicKey badSecret
             = (Throw (Coded INVALID_PAIRING_SECRET), badSecret))
       /\ (forall publicKey token, str_truthy token = true ->
             verifyPairingToken client publicKey token badSecret
             = (Throw (Coded INVALID_PAIRING_SECRET), badSecret)))
      \/ ((exists cause,
             Coded INVALID_PAIRING_SECRET = PairingSecretPersistenceFailed cause)
          /\ vault_locked (vault badSecret) = true
          /\ stored badSecret ENC_KEY_PAIRING_SECRET = None)).
Proof.
  apply (getOrCreatePairingSecret_failures badSecret badSecret
           (Coded INVALID_PAIRING_SECRET)).
  reflexivity.
Defined.

(** X6, witness: the token the host shows. *)
Lemma verifyPairingToken_getPairingToken_witness :
  verifyPairingToken client hostKey goodToken hosted = (Ok true, hosted)
  /\ (forall token, str_truthy token = true ->
        verifyPairingToken client hostKey token hosted
        = (Ok (String.eqb (toUpperCase token) goodToken), hosted))
  /\ (forall u, verifyPairingToken client hostKey "" u = (Ok false, u)).
Proof.
  apply (verifyPairingToken_getPairingToken hosted hosted hostKey goodToken
           ascii_toUpperCase_keeps_codes).
  reflexivity.
Defined.

(** X7, witness: E pinned on the host. *)
Lemma setClientIdentityPublicKey_read_back_witness :
  exists w',
    setClientIdentityPublicKey client peerE PENDING hosted = (Ok tt, w')
    /\ getClientIdentityPublicKey client w' = (Ok (JStr peerE), w')
    /\ getClientPairingState client w'
       = (Ok (if str_truthy PENDING then JStr PENDING else JNull), w')
    /\ cache w' = cache hosted
    /\ sessions w' = sessions hosted
    /\ (forall k, k <> ENC_KEY_CLIENT_DATA -> stored w' k = stored hosted k).
Proof.
  apply (setClientIdentityPublicKey_read_back hosted peerE PENDING);
    [reflexivity | reflexivity | split; reflexivity].
Defined.

(** X8, witness: E pinned and confirmed. *)
Lemma pin_then_confirm_witness :
  exists w1 w2,
    setClientIdentityPublicKey client peerE PENDING hosted = (Ok tt, w1)
    /\ confirmClientPairing client peerE w1 = (Ok tt, w2)
    /\ getClientPairingState client w2 = (Ok (JStr CONFIRMED), w2)
    /\ getClientIdentityPublicKey client w2 = (Ok (JStr peerE), w2)
    /\ getCachedClientIdentityPublicKey w2 = (Ok (Some peerE), w2)
    /\ (forall other, other <> peerE ->
          confirmClientPairing client other w1
          = (Throw (Coded CLIENT_KEY_MISMATCH), w1)).
Proof.
  apply (pin_then_confirm hosted peerE);
    [reflexivity | reflexivity | split; reflexivity | split; reflexivity].
Defined.

(** X10, witness: an identity created under a locked vault, the vault
    unlocked since. *)
Lemma memory_identity_not_persisted_witness :
  exists id w',
    getOrCreateIdentity client memUnlocked = (Ok id, w')
    /\ ed25519PublicKey id = toBase64 (ed25519PublicKeyBytes memId)
    /\ x25519PublicKey id = toBase64 (x25519PublicKeyBytes memId)
    /\ MEMORY_IDENTITY w' = Some memId
    /\ stored w' ENC_KEY_ED25519 = stored memUnlocked ENC_KEY_ED25519
    /\ stored w' ENC_KEY_X25519 = stored memUnlocked ENC_KEY_X25519.
Proof.
  apply (memory_identity_not_persisted memUnlocked memId); reflexivity.
Defined.

(** X11, witness: a reset of the host paired with E. *)
Lemma resetIdentity_unpairs_witness :
  exists id w',
    resetIdentity client confirmedE = (Ok id, w')
    /\ sessions w' = ∅
    /\ cache w' = None
    /\ vault_entries (vault w') !! ENC_KEY_CLIENT_DATA = Some ""
    /\ getClientIdentityPublicKey client w' = (Ok JNull, w')
    /\ (forall k, confirmClientPairing client k w'
                  = (Throw (Coded NO_PENDING_PAIRING), w'))
    /\ signKeypairCalls w' = S (signKeypairCalls confirmedE)
    /\ boxKeypairCalls w' = S (boxKeypairCalls confirmedE)
    /\ List.length (fromBase64 (ed25519PublicKey id)) = 32%nat
    /\ List.length (fromBase64 (x25519PublicKey id)) = 32%nat
    /\ MEMORY_IDENTITY w' = None
    /\ (exists blob, stored w' ENC_KEY_ED25519 = Some blob
          /\ toBase64 (subarray 0 crypto_sign_PUBLICKEYBYTES (fromBase64 blob))
             = ed25519PublicKey id)
    /\ (exists blob, stored w' ENC_KEY_X25519 = Some blob
          /\ toBase64 (subarray 0 crypto_box_PUBLICKEYBYTES (fromBase64 blob))
             = x25519PublicKey id).
Proof.
  apply (resetIdentity_unpairs confirmedE). reflexivity.
Defined.

(** X12, witness: a reset while the vault that holds E's record is
    locked. *)
Lemma resetIdentity_locked_vault_witness :
  exists id w' m,
    resetIdentity client lockedPaired = (Ok id, w')
    /\ vault_entries (vault w') = vault_entries (vault lockedPaired)
    /\ MEMORY_IDENTITY w' = Some m
    /\ ed25519PublicKey id = toBase64 (ed25519PublicKeyBytes m)
    /\ x25519PublicKey id = toBase64 (x25519PublicKeyBytes m).
Proof.
  apply (resetIdentity_locked_vault lockedPaired). reflexivity.
Defined.

(** X14, witness: a frame sealed on the live session. *)
Lemma encryptWithSession_sequence_witness :
  exists sealed w',
    encryptWithSession sid hello live = (Ok sealed, w')
    /\ seq sealed = js_incr (sendSeq session0)
    /\ (sendSeq session0 < 2 ^ 53 -> seq sealed = sendSeq session0 + 1)
    /\ sessions w' !! sid = Some (with_sendSeq (seq sealed) session0)
    /\ (forall other, other <> sid -> sessions w' !! other = sessions live !! other)
    /\ fromBase64 (nonceB64 sealed) = draw (entropy live) crypto_secretbox_NONCEBYTES
    /\ entropy w' = (entropy live + crypto_secretbox_NONCEBYTES)%nat
    /\ List.length (fromBase64 (ciphertextB64 sealed))
       = (List.length hello + crypto_secretbox_MACBYTES)%nat
    /\ same_stores live w'.
Proof.
  apply (encryptWithSession_sequence live sid session0 hello); reflexivity.
Defined.

(** X15, witness: the live session closed. *)
Lemma nmCloseSession_closes_witness :
  exists w',
    nmCloseSession (Some sid) live = (Ok ok_true, w')
    /\ (forall plaintext,
          encryptWithSession sid plaintext w'
          = (Throw (Coded SESSION_NOT_FOUND), w'))
    /\ (forall nonce ciphertext,
          decryptWithSession sid nonce ciphertext w'
          = (Throw (Coded SESSION_NOT_FOUND), w'))
    /\ (forall seq,
          recordIncomingSeq sid seq w' = (Throw (Coded SESSION_NOT_FOUND), w'))
    /\ (forall clientSigB64,
          str_truthy clientSigB64 = true ->
          nmFinishHandshake (Some sid) (Some clientSigB64) w'
          = (Throw (Coded SESSION_NOT_FOUND), w'))
    /\ (forall other, other <> sid -> sessions w' !! other = sessions live !! other)
    /\ same_stores live w'.
Proof.
  apply (nmCloseSession_closes live sid). reflexivity.
Defined.

(** X17, witness: the handshake begun for E. *)
Lemma beginHandshake_registers_session_witness :
  exists hostEph peer k,
    sessions live !! hs_sessionId shaken
    = Some (mkSession k ((hostEph ++ fromBase64 extEphemeral) ++ peer) 0 0%Q false)
    /\ List.length k = 32%nat
    /\ hostEphemeralPubB64 shaken = toBase64 hostEph
    /\ List.length hostEph = 32%nat
    /\ List.length (fromBase64 extEphemeral) = 32%nat
    /\ truthy (opt_prop (client_data pinnedE) "publicKey") = true
    /\ Buffer_from_base64 (opt_prop (client_data pinnedE) "publicKey") pinnedE
       = (Ok peer, pinnedE)
    /\ List.length (fromBase64 (signatureB64 shaken)) = 64%nat
    /\ (forall other, other <> hs_sessionId shaken ->
          sessions live !! other = sessions pinnedE !! other)
    /\ client_data live = client_data pinnedE
    /\ localStorage live = localStorage pinnedE.
Proof.
  apply (beginHandshake_registers_session pinnedE live extEphemeral shaken).
  reflexivity.
Defined.

(** X18, witness: a handshake on the host before any pairing. *)
Lemma beginHandshake_requires_pinned_peer_witness :
  exists w',
    beginHandshake client extEphemeral hosted = (Throw (Coded CLIENT_NOT_PAIRED), w')
    /\ sessions w' = sessions hosted
    /\ localStorage w' = localStorage hosted
    /\ nativeMessagingEnabled w' = nativeMessagingEnabled hosted
    /\ client_data w' = client_data hosted.
Proof.
  apply (beginHandshake_requires_pinned_peer hosted extEphemeral). reflexivity.
Defined.

(** X19, witness: a reset of the pairing while a session is live. *)
Lemma nmResetPairing_disconnects_witness :
  exists r w',
    nmResetPairing client live = (Ok r, w')
    /\ clearedSessions r = size (sessions live)
    /\ sessions w' = ∅
    /\ (forall sessionId plaintext,
          encryptWithSession sessionId plaintext w'
          = (Throw (Coded SESSION_NOT_FOUND), w'))
    /\ vault_entries (vault w') !! ENC_KEY_CLIENT_DATA = Some ""
    /\ (forall ext,
          fst (beginHandshake client ext w') = Throw (Coded CLIENT_NOT_PAIRED))
    /\ (exists id w'',
          getOrCreateIdentity client w' = (Ok id, w'')
          /\ ed25519PublicKey id = ed25519PublicKey (newIdentity r)
          /\ x25519PublicKey id = x25519PublicKey (newIdentity r)
          /\ signKeypairCalls w'' = signKeypairCalls w'
          /\ boxKeypairCalls w'' = boxKeypairCalls w').
Proof.
  apply (nmResetPairing_disconnects live). reflexivity.
Defined.

(** X20, witness: E's signature over the tagged transcript. *)
Lemma nmFinishHandshake_verify_sound_witness :
  exists pub,
    truthy (JStr peerE) = true
    /\ Buffer_from_base64 (JStr peerE) live = (Ok pub, live)
    /\ List.length pub = 32%nat
    /\ List.length (fromBase64 goodSig) = 64%nat
    /\ crypto_sign_verify_detached (fromBase64 goodSig)
         ((utf8 CLIENT_FINISH ++ utf8 sid) ++ transcript session0) pub
       = true
    /\ (forall s, sessions live !! sid = Some s ->
          sessions verified !! sid = Some (with_clientVerified true s))
    /\ (forall other, other <> sid ->
          sessions verified !! other = sessions live !! other)
    /\ same_stores live verified.
Proof.
  apply (nmFinishHandshake_verify_sound sid goodSig session0 (JStr peerE)
           live verified ok_true).
  reflexivity.
Defined.

(** X21, witness: the forged signature presented after the good one. *)
Lemma nmFinishHandshake_verified_once_witness :
  nmFinishHandshake (Some sid) (Some forgedSig) verified = (Ok ok_true, verified).
Proof.
  apply (nmFinishHandshake_verified_once sid goodSig session0 (JStr peerE)
           live verified ok_true); reflexivity.
Defined.


(** X23, witness: the second scenario of the specification, a wrong
    token. *)
Lemma nmGetAppIdentity_refuses_wrong_token_witness :
  nmGetAppIdentity client (Some "000000-0000") (Some peerE) fresh
  = (Throw (Coded INVALID_PAIRING_TOKEN), hosted)
  /\ client_data hosted = client_data fresh
  /\ cache hosted = cache fresh
  /\ sessions hosted = sessions fresh.
Proof.
  apply (nmGetAppIdentity_refuses_wrong_token fresh hosted hosted hostIdentity
           goodToken "000000-0000" peerE); reflexivity.
Defined.

(** X24, witness: the host paired with E, its vault locked. *)
Lemma locked_vault_reads_as_unpaired_witness :
  getClientIdentityPublicKey client lockedPaired = (Ok JNull, lockedPaired)
  /\ getClientPairingState client lockedPaired = (Ok JNull, lockedPaired)
  /\ (forall k, confirmClientPairing client k lockedPaired
                = (Throw (Coded NO_PENDING_PAIRING), lockedPaired))
  /\ (forall ext,
        fst (beginHandshake client ext lockedPaired)
        = Throw (Coded CLIENT_NOT_PAIRED))
  /\ (forall k state, exists e,
        setClientIdentityPublicKey client k state lockedPaired
        = (Throw e, lockedPaired))
  /\ (forall k, cache lockedPaired = Some k -> str_truthy k = true ->
        getCachedClientIdentityPublicKey lockedPaired = (Ok (Some k), lockedPaired)).
Proof.
  apply (locked_vault_reads_as_unpaired lockedPaired). reflexivity.
Defined.
